(** * HostBasedUnitTestRunner: a shallow embedding of the post-build plugin

    The plugin [BaseTools/Plugin/HostBasedUnitTestRunner/HostBasedUnitTestRunner.py]
    locates the host-based unit tests of every target architecture, runs
    them, tallies the failures reported in their result documents and then
    drives one of two code-coverage pipelines.

    The embedding keeps the shape of the Python code.  Everything the plugin
    does to its surroundings goes through a small state-and-exception monad:
    the state holds the file system, the shell variables and the trace of
    the calls the plugin made (logging, [set_shell_var], [glob], [os.remove],
    [RunCmd], [ElementTree.parse]); a Python exception is the [Exc] result.
    What the external programs do is not the plugin's business: it is a
    parameter ([spawn] of [Host]). *)

From Stdlib Require Import ZArith Lia Ascii String DecimalString.
From stdpp Require Import base list strings gmap fin_maps.

Local Open Scope Z_scope.

(** ** Strings, as Python's [str] methods and [os.path] use them

    A [str] is modelled on the ASCII range, where the functions below are
    those of Python: outside of it [isdigit], [isspace] and [upper] of
    Python know further characters (the decimal digits and the white space
    of Unicode, the letters of other alphabets).  The statements about a
    text that comes from outside, the output of a command or the value of
    a build variable, that depend on these functions assume [isascii] of
    it. *)

Module Str.

(** [s.isascii()] *)
Fixpoint isascii (s : string) : bool :=
  match s with
  | "" => true
  | String c s' => ((nat_of_ascii c <? 128)%nat && isascii s')%bool
  end.

(** The double quote and the line feed. *)
Definition dq : string := String "034"%char "".
Definition nl : string := String "010"%char "".

(** [s.startswith(p)] *)
Definition startswith (p s : string) : bool := String.prefix p s.

(** [s.endswith(suf)] *)
Fixpoint endswith (suf s : string) : bool :=
  if String.eqb s suf then true
  else match s with
       | "" => false
       | String _ s' => endswith suf s'
       end.

(** [sub in s] *)
Fixpoint contains (sub s : string) : bool :=
  if String.prefix sub s then true
  else match s with
       | "" => false
       | String _ s' => contains sub s'
       end.

(** [c in s] for one character. *)
Fixpoint has_char (c : ascii) (s : string) : bool :=
  match s with
  | "" => false
  | String d s' => if Ascii.eqb d c then true else has_char c s'
  end.

(** [s.upper()], on the ASCII letters. *)
Definition upper_char (c : ascii) : ascii :=
  let n := nat_of_ascii c in
  if ((97 <=? n)%nat && (n <=? 122)%nat)%bool then ascii_of_nat (n - 32) else c.

Fixpoint upper (s : string) : string :=
  match s with
  | "" => ""
  | String c s' => String (upper_char c) (upper s')
  end.

(** [c.isspace()], on the ASCII characters: tab, line feed, vertical tab,
    form feed, carriage return, the four separators 28 to 31 and the
    space.  The white space of Unicode beyond them (U+0085, U+00A0, ...)
    is outside of the model. *)
Definition isspace (c : ascii) : bool :=
  let n := nat_of_ascii c in
  (((9 <=? n)%nat && (n <=? 13)%nat) || ((28 <=? n)%nat && (n <=? 32)%nat))%bool.

(** [s.split()]: the maximal runs of characters that are not white space.
    [cur] is the run read so far, in reverse. *)
Fixpoint split_go (cur : option string) (s : string) : list string :=
  match s with
  | "" => option_list (String.rev <$> cur)
  | String c s' =>
      if isspace c
      then option_list (String.rev <$> cur) ++ split_go None s'
      else split_go (Some (String c (default "" cur))) s'
  end.

Definition split (s : string) : list string := split_go None s.

(** [c.isdigit()], on the ASCII digits; the other decimal digits of
    Unicode are outside of the model. *)
Definition isdigit (c : ascii) : bool :=
  let n := nat_of_ascii c in ((48 <=? n)%nat && (n <=? 57)%nat)%bool.

(** [int(s)] for a string of ASCII digits, as a number: the refusal of
    CPython 3.11 and later to convert more than 4300 digits is not
    modelled. *)
Fixpoint int_go (acc : Z) (s : string) : Z :=
  match s with
  | "" => acc
  | String c s' => int_go (10 * acc + (Z.of_nat (nat_of_ascii c) - 48)) s'
  end.

Definition int (s : string) : Z := int_go 0 s.

(** [s[n:]] *)
Fixpoint drop (n : nat) (s : string) : string :=
  match n, s with
  | O, _ => s
  | S n', String _ s' => drop n' s'
  | S _, "" => ""
  end.

(** [s[-1]], when there is one. *)
Fixpoint last (s : string) : option ascii :=
  match s with
  | "" => None
  | String c "" => Some c
  | String _ s' => last s'
  end.

(** The maximal run of digits [s] starts with, and what follows it. *)
Fixpoint span_digits (s : string) : string * string :=
  match s with
  | "" => ("", "")
  | String c s' =>
      if isdigit c
      then let '(ds, r) := span_digits s' in (String c ds, r)
      else ("", s)
  end.

(** The decimal numeral of an integer, as an f-string prints it. *)
Definition of_Z (z : Z) : string := NilZero.string_of_int (Z.to_int z).

(** The literal ["%s" % x] of an optional string: [None] prints as
    [None]. *)
Definition fmt (o : option string) : string := default "None" o.

End Str.

(** ** [os.path] *)

Module Path.

(** [os.sep] of the POSIX flavour, which is the flavour modelled: the
    Windows flavour differs on drive letters and on the second separator,
    which no path the plugin builds itself contains. *)
Definition sep : string := "/".

(** [os.path.join(a, b)]: an absolute [b] discards [a]; otherwise the two
    are glued with one separator, unless [a] is empty or brings its own. *)
Definition join (a b : string) : string :=
  if Str.startswith sep b then b
  else if (String.eqb a "" || Str.endswith sep a)%bool then a +:+ b
  else a +:+ sep +:+ b.

(** [os.path.basename(p)]: what follows the last separator. *)
Fixpoint basename (p : string) : string :=
  match p with
  | "" => ""
  | String c p' =>
      if (Ascii.eqb c "/" || Str.has_char "/" p')%bool then basename p' else p
  end.

(** [os.path.isabs(p)] *)
Definition isabs (p : string) : bool := Str.startswith sep p.

End Path.

(** ** [glob]

    The file system is a finite map from paths to nodes, and [glob.glob]
    returns the paths of the map that match the pattern.  The patterns the
    plugin builds use [*] and, in the recursive calls, a [**] directory
    segment; the other two wildcards of [fnmatch] (the question mark and the
    bracket) are read as themselves.  A name that starts with a dot is not
    matched by a wildcard, as in [glob].  The model is the [glob] of Python
    for a pattern whose text around the stars has none of the wildcard
    characters ([literal], below); the statements that depend on what a
    pattern matches assume it of the directory the pattern is built
    from. *)

Module Glob.

Definition hidden (s : string) : bool := Str.startswith "." s.

(** [wmatch recursive p seg0 s]: does the path [s] match the pattern [p]?
    [seg0] says that [p] and [s] stand at the start of a path segment. *)
Fixpoint wmatch (recursive : bool) (p : string) (seg0 : bool) (s : string)
  {struct p} : bool :=
  match p with
  | "" => match s with "" => true | _ => false end
  | String c p' =>
      if Ascii.eqb c "*" then
        (* a star takes any run of characters of one segment *)
        let star :=
          fix star (z : bool) (s : string) {struct s} : bool :=
            if wmatch recursive p' (seg0 && z) s then true
            else match s with
                 | "" => false
                 | String d s' => if Ascii.eqb d "/" then false else star false s'
                 end in
        let plain := if (seg0 && hidden s)%bool then false else star true s in
        match p' with
        | String c1 (String c2 p'') =>
            if (recursive && seg0 && Ascii.eqb c1 "*" && Ascii.eqb c2 "/")%bool
            then
              (* a double star segment takes zero or more directories *)
              (fix deep (start : bool) (s : string) {struct s} : bool :=
                 if (start && wmatch recursive p'' true s)%bool then true
                 else match s with
                      | "" => false
                      | String d s' =>
                          if (start && Ascii.eqb d ".")%bool then false
                          else deep (Ascii.eqb d "/") s'
                      end) true s
            else plain
        | _ => plain
        end
      else
        match s with
        | "" => false
        | String d s' =>
            (Ascii.eqb c d && wmatch recursive p' (Ascii.eqb c "/") s')%bool
        end
  end.

Definition glob {V : Type} (files : gmap string V) (pattern : string)
  (recursive : bool) : list string :=
  List.filter (wmatch recursive pattern true) (map_to_list files).*1.

End Glob.

(** ** Result documents

    What [xml.etree.ElementTree] hands to the plugin: an element has a tag,
    its attributes, its text (absent for an empty element) and its child
    elements in document order. *)

Local Set Warnings "-register-all".

Inductive Element : Type :=
  mkElement { tag : string;
              attrib : gmap string string;
              text : option string;
              children : list Element }.

(** ** The file system *)

Inductive kind : Type := Regular | Directory | Special.

(** A node, as [os.stat] (which follows links) sees it: its kind, its
    permission bits, and what [ElementTree.parse] makes of its content,
    [None] for a content that is not well-formed XML. *)
Record node : Type :=
  mkNode { kind_of : kind; st_mode : Z; xml_doc : option Element }.

(** [stat.S_IEXEC], [stat.S_IXGRP], [stat.S_IXOTH] *)
Definition S_IEXEC : Z := 64.
Definition S_IXGRP : Z := 8.
Definition S_IXOTH : Z := 1.

(** ** The calls the plugin makes, in the order it makes them *)

Inductive level : Type := SECTION | SUBSECTION | DEBUG | INFO | WARNING | ERROR.

Inductive event : Type :=
| EvLog (lvl : level) (msg : string)
| EvSetShellVar (name value : string)
| EvGlob (pattern : string) (recursive : bool) (found : list string)
| EvRemove (path : string)
| EvRunCmd (cmd params : string) (workingdir : option string) (rc : Z)
| EvParse (file : string) (doc : option Element).

Record state : Type :=
  mkState { fs : gmap string node;
            shell_vars : gmap string string;
            trace : list event }.

(** ** Exceptions and the monad *)

Inductive exn : Type :=
| NotImplementedError (msg : string)
| ParseError
| KeyError (key : string)
| AttributeError
| TypeError
| IndexError
| ValueError
| UnboundLocalError
| OSError.

Inductive res (A : Type) : Type :=
| Val (a : A)
| Exc (e : exn).
Arguments Val {A} a.
Arguments Exc {A} e.

Definition M (A : Type) : Type := state -> res A * state.

Definition ret {A} (a : A) : M A := fun st => (Val a, st).

Definition raise {A} (e : exn) : M A := fun st => (Exc e, st).

Definition bind {A B} (m : M A) (k : A -> M B) : M B :=
  fun st =>
    match m st with
    | (Val a, st') => k a st'
    | (Exc e, st') => (Exc e, st')
    end.

Declare Scope prog_scope.
Delimit Scope prog_scope with prog.
Notation "x <- m ;; k" := (bind m (fun x => k))
  (at level 20, m at level 99, k at level 200, only parsing) : prog_scope.
Notation "m ;; k" := (bind m (fun _ => k))
  (at level 100, k at level 200, only parsing, right associativity) : prog_scope.
Local Open Scope prog_scope.

(** What a loop body or a block says about the control flow: go on with
    the loop variables [s], or leave the function with [return r]. *)
Inductive ctl (S R : Type) : Type :=
| Continue (s : S)
| Return (r : R).
Arguments Continue {S R} s.
Arguments Return {S R} r.

(** [for x in l: body], with the variables the body assigns threaded
    through; a [return] in the body ends the loop. *)
Fixpoint for_loop {A S R} (l : list A) (body : A -> S -> M (ctl S R)) (s : S)
  : M (ctl S R) :=
  match l with
  | [] => ret (Continue s)
  | x :: l' =>
      c <- body x s ;;
      match c with
      | Continue s' => for_loop l' body s'
      | Return r => ret (Return r)
      end
  end.

Definition emit (e : event) : M unit :=
  fun st => (Val tt, mkState (fs st) (shell_vars st) (trace st ++ [e])).

(** [logging.log(level, msg)] and its shorthands. *)
Definition log (lvl : level) (msg : string) : M unit := emit (EvLog lvl msg).

(** [shell_env.set_shell_var(name, value)] *)
Definition set_shell_var (name value : string) : M unit :=
  fun st => (Val tt, mkState (fs st) (<[name := value]> (shell_vars st))
                             (trace st ++ [EvSetShellVar name value])).

(** [glob.glob(pattern, recursive=...)] *)
Definition glob (pattern : string) (recursive : bool) : M (list string) :=
  fun st =>
    let found := Glob.glob (fs st) pattern recursive in
    (Val found, mkState (fs st) (shell_vars st)
                        (trace st ++ [EvGlob pattern recursive found])).

(** [os.path.isfile(p)] *)
Definition isfile (p : string) : M bool :=
  fun st =>
    (Val match fs st !! p with
         | Some n => match kind_of n with Regular => true | _ => false end
         | None => false
         end, st).

(** [os.stat(p).st_mode] *)
Definition stat_mode (p : string) : M Z :=
  fun st =>
    match fs st !! p with
    | Some n => (Val (st_mode n), st)
    | None => (Exc OSError, st)
    end.

(** [os.remove(p)]: it fails with [OSError] on a directory and on a path
    that does not exist.  The other ways in which the real call fails
    (permissions, a file in use) raise [OSError] too and are not
    modelled. *)
Definition os_remove (p : string) : M unit :=
  fun st =>
    match fs st !! p with
    | Some n =>
        match kind_of n with
        | Directory => (Exc OSError, st)
        | _ => (Val tt, mkState (delete p (fs st)) (shell_vars st)
                                (trace st ++ [EvRemove p]))
        end
    | None => (Exc OSError, st)
    end.

(** [xml.etree.ElementTree.parse(file).getroot()] *)
Definition parse (file : string) : M Element :=
  fun st =>
    match fs st !! file with
    | Some n =>
        match kind_of n with
        | Directory => (Exc OSError, st)
        | _ =>
            let st' := mkState (fs st) (shell_vars st)
                               (trace st ++ [EvParse file (xml_doc n)]) in
            match xml_doc n with
            | Some root => (Val root, st')
            | None => (Exc ParseError, st')
            end
        end
    | None => (Exc OSError, st)
    end.

(** ** The host

    What the plugin is given: the build variables ([thebuilder.env]), the
    operating system [GetHostInfo] reports, and what a spawned command does:
    its exit code, what it prints and the file system it leaves, from the
    state it is started in. *)
Record Host : Type :=
  mkHost { GetValue : string -> option string;
           host_os : string;
           spawn : state -> string -> string -> option string
                   -> Z * string * gmap string node }.

(** ** The regular expression of [get_lcov_version]

    [re.search(r"version (\d+)\.(\d+)", s)]: the leftmost place where the
    word and a blank are followed by a run of digits, a dot and a run of
    digits.  Both runs are greedy; a shorter first run is followed by a
    digit, never by the dot, so only the maximal one can match.  The
    digits are the ASCII digits, which is what lcov prints: on a text
    that is [Str.isascii] this is the search of Python, whose [\d] also
    takes the other decimal digits of Unicode. *)

Definition version_here (s : string) : option (string * string) :=
  if Str.startswith "version " s then
    let '(major, r) := Str.span_digits (Str.drop 8 s) in
    match major, r with
    | String _ _, String "." r' =>
        let '(minor, _) := Str.span_digits r' in
        match minor with
        | String _ _ => Some (major, minor)
        | "" => None
        end
    | _, _ => None
    end
  else None.

Fixpoint search_version (s : string) : option (string * string) :=
  match version_here s with
  | Some g => Some g
  | None => match s with
            | "" => None
            | String _ s' => search_version s'
            end
  end.

(** [l.remove(x)]: without the first [x]; [None] when there is none (where
    Python raises [ValueError]). *)
Fixpoint list_remove (x : string) (l : list string) : option (list string) :=
  match l with
  | [] => None
  | y :: l' => if decide (y = x) then Some l' else cons y <$> list_remove x l'
  end.

(** [for x in l: body] for a body that has no [return]. *)
Fixpoint for_fold {A S} (l : list A) (body : A -> S -> M S) (s : S) : M S :=
  match l with
  | [] => ret s
  | x :: l' => s' <- body x s ;; for_fold l' body s'
  end.

(** ** The artifact paths the plugin derives *)

(** The two result-file names a test is told to write, [CMOCKA_XML_FILE] and
    the path in [GTEST_OUTPUT]. *)
Definition cmocka_xml_file (test arch : string) : string :=
  test +:+ ".CMOCKA.%g." +:+ arch +:+ ".result.xml".

Definition gtest_xml_file (test arch : string) : string :=
  test +:+ ".GTEST." +:+ arch +:+ ".result.xml".

(** The files of the lcov pipeline, under the package build output and
    under the build directory of the workspace. *)
Definition cov_base_info (buildOutputBase : string) : string :=
  buildOutputBase +:+ "/cov-base.info".
Definition coverage_test_info (buildOutputBase : string) : string :=
  buildOutputBase +:+ "/coverage-test.info".
Definition total_coverage_info (buildOutputBase : string) : string :=
  buildOutputBase +:+ "/total-coverage.info".
Definition compare_xml (buildOutputBase : string) : string :=
  buildOutputBase +:+ "/compare.xml".
Definition package_coverage_xml (buildOutputBase : string) : string :=
  buildOutputBase +:+ "/coverage.xml".
Definition all_coverage_info (workspace : string) : string :=
  workspace +:+ "/Build/all-coverage.info".
Definition workspace_coverage_xml (workspace : string) : string :=
  workspace +:+ "/Build/coverage.xml".

Definition excludes : string := "^.*UnitTest\|^.*MU\|^.*Mock\|^.*DEBUG".

(** [lcov_error_settings] of [gen_code_coverage_gcc] *)
Definition lcov_error_settings (lcov_version_major : Z) : string :=
  if decide (lcov_version_major >= 2) then "--ignore-errors mismatch" else "".

Definition no_tests_message : string :=
  "UnitTest Coverage:" +:+ Str.nl +:+
  "  No unit tests discovered. Test coverage will not be generated." +:+ Str.nl +:+
  Str.nl +:+
  "  Prevent this message by:" +:+ Str.nl +:+
  "  1. Adding host-based unit tests to this package" +:+ Str.nl +:+
  "  2. Ensuring tests have the word " +:+ Str.dq +:+ "Test" +:+ Str.dq +:+
  " in their name" +:+ Str.nl +:+
  "  3. Disabling HostUnitTestCompilerPlugin in the package CI YAML file".

(** ** The plugin *)

Section Plugin.

Context (host : Host).

(** [RunCmd(cmd, params, workingdir=..., outstream=...)] of edk2toollib:
    runs the command and returns its exit code; the second component is
    what the command printed, for the call that passes a stream.  The
    call is taken to return: a working directory that does not exist,
    for which the real call raises, is outside of the model. *)
Definition RunCmd (cmd params : string) (workingdir : option string)
  : M (Z * string) :=
  fun st =>
    let '(rc, out, files) := spawn host st cmd params workingdir in
    (Val (rc, out),
     mkState files (shell_vars st)
             (trace st ++ [EvRunCmd cmd params workingdir rc])).

(** *** [get_lcov_version] *)
Definition get_lcov_version : M (option Z) :=
  r <- RunCmd "lcov" "--version" None ;;
  let '(ret_, lcov_ver) := r in
  if decide (ret_ ≠ 0) then ret None
  else
    match search_version lcov_ver with
    | None => raise AttributeError
    | Some (major, _minor) => ret (Some (Str.int major))
    end.

(** *** [gen_code_coverage_gcc] *)

(** The stages of [gen_code_coverage_gcc] that follow the version check,
    as a function of the major version found. *)
Definition lcov_stages (buildOutputBase workspace : string)
  (lcov_version_major : Z) : M Z :=
  let lcov_error_settings := lcov_error_settings lcov_version_major in
  (* Generate base code coverage for all source files *)
  r <- RunCmd "lcov"
         ("--no-external --capture --initial --directory " +:+ buildOutputBase
          +:+ " --output-file " +:+ cov_base_info buildOutputBase
          +:+ " --rc lcov_branch_coverage=1 " +:+ lcov_error_settings) None ;;
  if decide (r.1 ≠ 0) then
    log ERROR "UnitTest Coverage: Failed to build initial coverage data." ;;
    ret 1
  else
  (* Coverage data for tested files only *)
  r <- RunCmd "lcov"
         ("--capture --directory " +:+ buildOutputBase +:+ "/"
          +:+ " --output-file " +:+ coverage_test_info buildOutputBase
          +:+ " --rc lcov_branch_coverage=1 " +:+ lcov_error_settings) None ;;
  if decide (r.1 ≠ 0) then
    log ERROR "UnitTest Coverage: Failed to build coverage data for tested files." ;;
    ret 1
  else
  (* Aggregate all coverage data *)
  r <- RunCmd "lcov"
         ("--add-tracefile " +:+ cov_base_info buildOutputBase
          +:+ " --add-tracefile " +:+ coverage_test_info buildOutputBase
          +:+ " --output-file " +:+ total_coverage_info buildOutputBase
          +:+ " --rc lcov_branch_coverage=1 " +:+ lcov_error_settings) None ;;
  if decide (r.1 ≠ 0) then
    log ERROR "UnitTest Coverage: Failed to aggregate coverage data." ;;
    ret 1
  else
  (* Generate coverage XML *)
  r <- RunCmd "lcov_cobertura"
         (total_coverage_info buildOutputBase +:+ " -o "
          +:+ compare_xml buildOutputBase) None ;;
  if decide (r.1 ≠ 0) then
    log ERROR "UnitTest Coverage: Failed to generate coverage XML." ;;
    ret 1
  else
  (* Filter out auto-generated and test code *)
  r <- RunCmd "lcov_cobertura"
         (total_coverage_info buildOutputBase +:+ " --excludes " +:+ excludes
          +:+ " -o " +:+ package_coverage_xml buildOutputBase) None ;;
  if decide (r.1 ≠ 0) then
    log ERROR "UnitTest Coverage: Failed generate filtered coverage XML." ;;
    ret 1
  else
  (* Generate all coverage file *)
  testCoverageList <-
    glob (workspace +:+ "/Build/**/total-coverage.info") true ;;
  let coverageFile :=
    foldl (fun acc testCoverage => acc +:+ " --add-tracefile " +:+ testCoverage)
          "" testCoverageList in
  r <- RunCmd "lcov"
         (coverageFile +:+ " --output-file " +:+ all_coverage_info workspace
          +:+ " --rc lcov_branch_coverage=1 " +:+ lcov_error_settings) None ;;
  if decide (r.1 ≠ 0) then
    log ERROR "UnitTest Coverage: Failed generate all coverage file." ;;
    ret 1
  else
  (* Generate and XML file if requested.for all package *)
  b <- isfile (workspace_coverage_xml workspace) ;;
  (if b : bool then os_remove (workspace_coverage_xml workspace) else ret tt) ;;
  _r <- RunCmd "lcov_cobertura"
          (all_coverage_info workspace +:+ " --excludes " +:+ excludes
           +:+ " -o " +:+ workspace_coverage_xml workspace) None ;;
  ret 0.

Definition gen_code_coverage_gcc : M Z :=
  log INFO "Generating UnitTest code coverage" ;;
  let buildOutputBase := Str.fmt (GetValue host "BUILD_OUTPUT_BASE") in
  let workspace := Str.fmt (GetValue host "WORKSPACE") in
  lcov_version_major <- get_lcov_version ;;
  match lcov_version_major with
  | None | Some 0 =>
      log ERROR "UnitTest Coverage: Failed to determine lcov version" ;;
      ret 1
  | Some lcov_version_major =>
      log INFO ("Got lcov version " +:+ Str.of_Z lcov_version_major) ;;
      lcov_stages buildOutputBase workspace lcov_version_major
  end.

(** *** [gen_code_coverage_msvc] *)

(** The merge of one snapshot into the running aggregate
    [totalCoverageFile], the step both loops of the function share. *)
Definition merge_coverage (workspaceBuild snapshot totalCoverageFile : string)
  : M (Z * string) :=
  let coverageFile := " --input_coverage=" +:+ snapshot in
  b <- isfile totalCoverageFile ;;
  let coverageFile :=
    if b : bool then coverageFile +:+ " --input_coverage=" +:+ totalCoverageFile
    else coverageFile in
  RunCmd "OpenCppCoverage"
    ("--export_type binary:" +:+ totalCoverageFile +:+ " "
     +:+ "--working_dir=" +:+ workspaceBuild +:+ " "
     +:+ coverageFile) None.

(** The body of the first loop.  The loop variable is [totalCoverageFile],
    which the function assigns for the first time here: [None] is the
    name not bound yet. *)
Definition collect_coverage (buildOutputBase workspace workspaceBuild : string)
  (testFile : string) (_ : option string) : M (ctl (option string) Z) :=
  r <- RunCmd "OpenCppCoverage"
         ("--source " +:+ workspace +:+ " --export_type binary:" +:+ testFile
          +:+ ".cov -- " +:+ testFile) None ;;
  if decide (r.1 ≠ 0) then
    log ERROR "UnitTest Coverage: Failed to collect coverage data." ;;
    ret (Return 1)
  else
    let totalCoverageFile := Path.join buildOutputBase "coverage.cov" in
    r <- merge_coverage workspaceBuild (testFile +:+ ".cov") totalCoverageFile ;;
    if decide (r.1 ≠ 0) then
      log ERROR "UnitTest Coverage: Failed to collect coverage data." ;;
      ret (Return 1)
    else ret (Continue (Some totalCoverageFile)).

(** The body of the second loop. *)
Definition fold_coverage (workspaceBuild totalCoverageFile : string)
  (testCoverage : string) (_ : unit) : M (ctl unit Z) :=
  r <- merge_coverage workspaceBuild testCoverage totalCoverageFile ;;
  if decide (r.1 ≠ 0) then
    log ERROR "UnitTest Coverage: Failed to collect coverage data." ;;
    ret (Return 1)
  else ret (Continue tt).

Definition gen_code_coverage_msvc : M Z :=
  log INFO "Generating UnitTest code coverage" ;;
  match GetValue host "BUILD_OUTPUT_BASE" with
  | None => raise TypeError
  | Some buildOutputBase =>
    testList <-
      glob (Path.join (Path.join buildOutputBase "**") "*Test*.exe") true ;;
    workspace <-
      match GetValue host "WORKSPACE" with
      | None => raise TypeError
      | Some workspace =>
          match Str.last workspace with
          | None => raise IndexError
          | Some c =>
              ret (if decide (String c "" ≠ Path.sep)
                   then workspace +:+ Path.sep else workspace)
          end
      end ;;
    let workspaceBuild := Path.join workspace "Build" in
    (* Generate coverage file *)
    c <- for_loop testList
           (collect_coverage buildOutputBase workspace workspaceBuild) None ;;
    match c with
    | Return r => ret r
    | Continue None => raise UnboundLocalError
    | Continue (Some totalCoverageFile) =>
      (* Generate and XML file if requested.by each package *)
      r <- RunCmd "OpenCppCoverage"
             ("--export_type cobertura:"
              +:+ Path.join buildOutputBase "coverage.xml" +:+ " "
              +:+ "--working_dir=" +:+ workspaceBuild +:+ " "
              +:+ "--input_coverage=" +:+ totalCoverageFile +:+ " ") None ;;
      if decide (r.1 ≠ 0) then
        log ERROR "UnitTest Coverage: Failed to generate cobertura format xml in single package." ;;
        ret 1
      else
      (* Generate total report XML file for all package *)
      testCoverageList <-
        glob (Path.join (Path.join (Path.join workspace "Build") "**")
                        "*Test*.exe.cov") true ;;
      let totalCoverageFile := Path.join workspaceBuild "coverage.cov" in
      c <- for_loop testCoverageList
             (fold_coverage workspaceBuild totalCoverageFile) tt ;;
      match c with
      | Return r => ret r
      | Continue _ =>
        r <- RunCmd "OpenCppCoverage"
               ("--export_type cobertura:"
                +:+ Path.join workspaceBuild "coverage.xml" +:+ " "
                +:+ "--working_dir=" +:+ workspaceBuild +:+ " "
                +:+ "--input_coverage=" +:+ totalCoverageFile) None ;;
        if decide (r.1 ≠ 0) then
          log ERROR "UnitTest Coverage: Failed to generate cobertura format xml." ;;
          ret 1
        else ret 0
      end
    end
  end.

(** *** [do_post_build] *)

(** The filter over the candidates of the POSIX branch: the loop runs over
    a copy of [testList] and removes from [testList] itself. *)
Definition check_candidate (cp : string) (a : string) (testList : list string)
  : M (list string) :=
  let p := Path.join cp a in
  (* It must be a file *)
  b <- isfile p ;;
  if negb b then
    match list_remove a testList with
    | None => raise ValueError
    | Some testList =>
        log DEBUG ("Remove directory file: " +:+ p) ;;
        ret testList
    end
  else
    (* It must be executable *)
    m <- stat_mode p ;;
    if decide (Z.land m (Z.lor (Z.lor S_IEXEC S_IXGRP) S_IXOTH) = 0) then
      match list_remove a testList with
      | None => raise ValueError
      | Some testList =>
          log DEBUG ("Remove non-executable file: " +:+ p) ;;
          ret testList
      end
    else
      log INFO ("Test file found: " +:+ p) ;;
      ret testList.

(** Find any host tests of the directory [cp]. *)
Definition discover (cp : string) : M (list string) :=
  if decide (Str.upper (host_os host) = "LINUX") then
    testList <- glob (Path.join cp "*Test*") false ;;
    for_fold testList (check_candidate cp) testList
  else if decide (Str.upper (host_os host) = "WINDOWS") then
    glob (Path.join cp "*Test*.exe") false
  else raise (NotImplementedError "Unsupported Operating System").

(** The innermost loop body: one child of a case. *)
Definition tally_result (test : string) (case : Element) (result : Element)
  (failure_count : Z) : M Z :=
  if decide (tag result = "failure") then
    log WARNING (Path.basename test +:+ " Test Failed") ;;
    name <- match attrib case !! "name" with
            | Some name => ret name
            | None => raise (KeyError "name")
            end ;;
    log WARNING ("  " +:+ name +:+ " - " +:+ Str.fmt (text result)) ;;
    ret (failure_count + 1)
  else ret failure_count.

Definition tally_case (test : string) (case : Element) (failure_count : Z)
  : M Z :=
  for_fold (children case) (tally_result test case) failure_count.

Definition tally_suite (test : string) (suite : Element) (failure_count : Z)
  : M Z :=
  for_fold (children suite) (tally_case test) failure_count.

Definition tally_root (test : string) (root : Element) (failure_count : Z)
  : M Z :=
  for_fold (children root) (tally_suite test) failure_count.

(** One result document: parse it and tally its failures. *)
Definition tally_file (test : string) (xml_result_file : string)
  (failure_count : Z) : M Z :=
  root <- parse xml_result_file ;;
  tally_root test root failure_count.

(** One test binary. *)
Definition run_test (cp arch : string) (test : string) (failure_count : Z)
  : M Z :=
  (* Configure output name if test uses cmocka. *)
  set_shell_var "CMOCKA_XML_FILE" (cmocka_xml_file test arch) ;;
  (* Configure output name if test uses gtest. *)
  set_shell_var "GTEST_OUTPUT" ("xml:" +:+ gtest_xml_file test arch) ;;
  (* Run the test. *)
  r <- RunCmd (Str.dq +:+ test +:+ Str.dq) "" (Some cp) ;;
  if decide (r.1 ≠ 0) then
    log ERROR ("UnitTest Execution Error: " +:+ Path.basename test) ;;
    ret (failure_count + 1)
  else
    log INFO ("UnitTest Completed: " +:+ Path.basename test) ;;
    let file_match_pattern := test +:+ ".*." +:+ arch +:+ ".result.xml" in
    xml_results_list <- glob file_match_pattern false ;;
    for_fold xml_results_list (tally_file test) failure_count.

(** The coverage step that ends the processing of an architecture. *)
Definition run_coverage (failure_count : Z) : M Z :=
  if decide (GetValue host "CODE_COVERAGE" ≠ Some "FALSE") then
    match GetValue host "TOOL_CHAIN_TAG" with
    | None => raise AttributeError
    | Some tool_chain_tag =>
        if decide (tool_chain_tag = "GCC5") then
          r <- gen_code_coverage_gcc ;;
          ret (if decide (r ≠ 0) then failure_count + 1 else failure_count)
        else if Str.startswith "VS" tool_chain_tag then
          r <- gen_code_coverage_msvc ;;
          ret (if decide (r ≠ 0) then failure_count + 1 else failure_count)
        else
          log INFO "Skipping code coverage. Currently, support GCC and MSVC compiler." ;;
          ret failure_count
    end
  else ret failure_count.

(** The body of the loop over the architectures. *)
Definition arch_body (path : option string) (arch : string)
  (failure_count : Z) : M (ctl Z Z) :=
  log SUBSECTION ("Testing for architecture: " +:+ arch) ;;
  cp <- match path with
        | Some path => ret (Path.join path arch)
        | None => raise TypeError
        end ;;
  (* If any old results XML files exist, clean them up. *)
  old_results <- glob (Path.join cp "*.result.xml") false ;;
  for_fold old_results (fun old_result _ => os_remove old_result) tt ;;
  (* Find and Run any Host Tests *)
  testList <- discover cp ;;
  match testList with
  | [] =>
      log WARNING no_tests_message ;;
      ret (Return 0)
  | _ =>
      failure_count <- for_fold testList (run_test cp arch) failure_count ;;
      failure_count <- run_coverage failure_count ;;
      ret (Continue failure_count)
  end.

Definition do_post_build : M Z :=
  let ci_type := GetValue host "CI_BUILD_TYPE" in
  if decide (ci_type ≠ Some "host_unit_test") then ret 0
  else
    log SECTION "Run Host based Unit Tests" ;;
    let path := GetValue host "BUILD_OUTPUT_BASE" in
    let failure_count := 0 in
    (* Do not catch exceptions in gtest so they are handled by address sanitizer *)
    set_shell_var "GTEST_CATCH_EXCEPTIONS" "0" ;;
    (* Disable address sanitizer memory leak detection *)
    set_shell_var "ASAN_OPTIONS" "detect_leaks=0" ;;
    (* Set up the reporting type for Cmocka. *)
    set_shell_var "CMOCKA_MESSAGE_OUTPUT" "xml" ;;
    archs <- match GetValue host "TARGET_ARCH" with
             | Some target_arch => ret (Str.split target_arch)
             | None => raise AttributeError
             end ;;
    c <- for_loop archs (arch_body path) failure_count ;;
    match c with
    | Continue failure_count => ret failure_count
    | Return r => ret r
    end.

End Plugin.

(** ** Vocabulary of the statements *)

(** A string of ASCII digits. *)
Fixpoint all_digits (s : string) : bool :=
  match s with
  | "" => true
  | String c s' => (Str.isdigit c && all_digits s')%bool
  end.

(** The string has a substring of the shape [version <digits>.<digits>]. *)
Definition has_version (s : string) : Prop :=
  exists pre major minor post,
    s = pre +:+ "version " +:+ major +:+ "." +:+ minor +:+ post
    /\ major <> "" /\ minor <> ""
    /\ all_digits major = true /\ all_digits minor = true.

(** The state a call of [RunCmd] leaves. *)
Definition after_RunCmd (st : state) (cmd params : string)
  (workingdir : option string) (rc : Z) (files : gmap string node) : state :=
  mkState files (shell_vars st)
          (trace st ++ [EvRunCmd cmd params workingdir rc]).

(** The state with one more entry in its log. *)
Definition logged (st : state) (lvl : level) (msg : string) : state :=
  mkState (fs st) (shell_vars st) (trace st ++ [EvLog lvl msg]).

(** The run of [m] from any state appends events that all satisfy [P]. *)
Definition emits (P : event -> Prop) {A} (m : M A) : Prop :=
  forall st, exists evs,
    trace (m st).2 = trace st ++ evs /\ Forall P evs.

(** The compatibility flag of lcov 2. *)
Definition mismatch_flag : string := "--ignore-errors mismatch".

(** What C8 asks of one call: a call of lcov carries the flag exactly when
    the major version is 2 or more.  The flag is looked for where the
    plugin puts it, at the end of the parameters: the paths before it
    are arbitrary text. *)
Definition flag_ok (lcov_version_major : Z) (e : event) : Prop :=
  match e with
  | EvRunCmd cmd params _ _ =>
      cmd = "lcov" ->
      (Str.endswith mismatch_flag params = true <-> lcov_version_major >= 2)
  | _ => True
  end.

(** The nodes tagged [failure] at the case level of a document, each with
    the case that encloses it, in document order. *)
Definition case_failures (case : Element) : list (Element * Element) :=
  (fun result => (case, result))
    <$> filter (fun result => tag result = "failure") (children case).

Definition failure_nodes (root : Element) : list (Element * Element) :=
  children root ≫= fun suite => children suite ≫= case_failures.

(** The enclosing case of the failure node has a [name] attribute. *)
Definition named (f : Element * Element) : Prop :=
  is_Some (attrib f.1 !! "name").

#[local] Instance named_dec (f : Element * Element) : Decision (named f).
Proof. unfold named. apply _. Defined.

(** The two lines the tally logs for a failure node. *)
Definition failure_log (test : string) (f : Element * Element) : list event :=
  [EvLog WARNING (Path.basename test +:+ " Test Failed");
   EvLog WARNING ("  " +:+ default "" (attrib f.1 !! "name") +:+ " - "
                  +:+ Str.fmt (text f.2))].

Definition failure_logs (test : string) (l : list (Element * Element))
  : list event :=
  l ≫= failure_log test.

(** The state with more events in its trace. *)
Definition traced_by (st : state) (evs : list event) : state :=
  mkState (fs st) (shell_vars st) (trace st ++ evs).

(** The tally of one failure node. *)
Definition tally_failure (test : string) (f : Element * Element)
  (failure_count : Z) : M Z :=
  tally_result test f.1 f.2 failure_count.

(** The state [set_shell_var] leaves. *)
Definition with_shell_var (st : state) (name value : string) : state :=
  mkState (fs st) (<[name := value]> (shell_vars st))
          (trace st ++ [EvSetShellVar name value]).

(** The state in which [run_test] spawns the test. *)
Definition test_env (st : state) (test arch : string) : state :=
  with_shell_var
    (with_shell_var st "CMOCKA_XML_FILE" (cmocka_xml_file test arch))
    "GTEST_OUTPUT" ("xml:" +:+ gtest_xml_file test arch).

(** A parse the run does not survive: the document is not well-formed, or
    it has a failure node in a case without a [name]. *)
Definition fatal (e : event) : Prop :=
  match e with
  | EvParse _ None => True
  | EvParse _ (Some root) => Exists (fun f => ~ named f) (failure_nodes root)
  | _ => False
  end.

(** The exception such a parse ends in. *)
Definition abort_exn (e : event) : exn :=
  match e with
  | EvParse _ (Some _) => KeyError "name"
  | _ => ParseError
  end.

Definition is_warning (e : event) : Prop :=
  match e with
  | EvLog WARNING _ => True
  | _ => False
  end.

(** What follows a fatal parse in the trace: nothing after a document that
    is not well-formed; after a document with a nameless failing case, the
    lines of the failures before it and the first line of that one. *)
Definition abort_tail (e : event) (tail : list event) : Prop :=
  match e with
  | EvParse _ None => tail = []
  | _ => Forall is_warning tail
         /\ exists logs test,
              tail = logs ++ [EvLog WARNING (Path.basename test +:+ " Test Failed")]
  end.

(** The events of a run and its result: either no parse was fatal, or the
    run ended in the exception of the first fatal one. *)
Definition aborts {A} (evs : list event) (r : res A) : Prop :=
  Forall (fun e => ~ fatal e) evs
  \/ exists pre e tail,
       evs = pre ++ e :: tail
       /\ Forall (fun e => ~ fatal e) pre
       /\ fatal e /\ r = Exc (abort_exn e) /\ abort_tail e tail.

(** The run of [m] from any state appends events that, with the result,
    satisfy [Q]. *)
Definition traced {A} (m : M A) (Q : list event -> res A -> Prop) : Prop :=
  forall st, exists evs,
    trace (m st).2 = trace st ++ evs /\ Q evs (m st).1.

(** The loop of a star in a call of [Glob.wmatch] that is not recursive,
    as a function of its own. *)
Definition star_loop (p' : string) (seg0 : bool) : bool -> string -> bool :=
  fix star (z : bool) (s : string) {struct s} : bool :=
    if Glob.wmatch false p' (seg0 && z) s then true
    else match s with
         | "" => false
         | String d s' => if Ascii.eqb d "/" then false else star false s'
         end.

(** The path is a regular file. *)
Definition is_regular (files : gmap string node) (p : string) : bool :=
  match files !! p with
  | Some n => match kind_of n with Regular => true | _ => false end
  | None => false
  end.

(** One of the three execute bits of the mode (owner, group, other) is
    set. *)
Definition exec_bits (m : Z) : bool :=
  (Z.testbit m 6 || Z.testbit m 3 || Z.testbit m 0)%bool.

Definition is_executable (files : gmap string node) (p : string) : bool :=
  match files !! p with
  | Some n => exec_bits (st_mode n)
  | None => false
  end.

(** The candidates the POSIX branch keeps, and the line it logs for a
    candidate. *)
Definition candidate_ok (files : gmap string node) (a : string) : bool :=
  (is_regular files a && is_executable files a)%bool.

Definition candidate_log (files : gmap string node) (a : string) : event :=
  if negb (is_regular files a) then EvLog DEBUG ("Remove directory file: " +:+ a)
  else if negb (is_executable files a)
       then EvLog DEBUG ("Remove non-executable file: " +:+ a)
       else EvLog INFO ("Test file found: " +:+ a).

(** The result files the tests of an architecture are told to write. *)
Definition result_files (arch : string) (tests : list string) : list string :=
  tests ≫= fun test => [cmocka_xml_file test arch; gtest_xml_file test arch].

(** The snapshots, aggregates and reports of the lcov pipeline. *)
Definition coverage_files (workspace buildOutputBase : string) : list string :=
  [cov_base_info buildOutputBase; coverage_test_info buildOutputBase;
   total_coverage_info buildOutputBase; compare_xml buildOutputBase;
   package_coverage_xml buildOutputBase; all_coverage_info workspace;
   workspace_coverage_xml workspace].

(** The artifact paths the pipeline derives while it processes one
    architecture with the lcov pipeline. *)
Definition artifacts (workspace buildOutputBase arch : string)
  (tests : list string) : list string :=
  result_files arch tests ++ coverage_files workspace buildOutputBase.

(** The messages logged at ERROR level, in order. *)
Definition error_lines (evs : list event) : list string :=
  omap (fun e => match e with EvLog ERROR msg => Some msg | _ => None end) evs.

(** The commands run, in order, with their exit codes. *)
Definition commands (evs : list event) : list (string * Z) :=
  omap (fun e => match e with
                 | EvRunCmd cmd _ _ rc => Some (cmd, rc)
                 | _ => None
                 end) evs.

(** A command that succeeded, or an event that is no command. *)
Definition cmd_ok (e : event) : Prop :=
  match e with
  | EvRunCmd _ _ _ rc => rc = 0
  | _ => True
  end.

(** The events of a pipeline that a failing stage ended: commands that
    succeeded, then one that did not, then the line that reports it. *)
Definition fails_last (evs : list event) : Prop :=
  exists pre cmd params wd rc msg,
    evs = pre ++ [EvRunCmd cmd params wd rc; EvLog ERROR msg]
    /\ rc <> 0 /\ Forall cmd_ok pre.

(** The parameters of the last stage of the lcov variant, the report of
    the workspace. *)
Definition workspace_report_params (workspace : string) : string :=
  all_coverage_info workspace +:+ " --excludes " +:+ excludes
  +:+ " -o " +:+ workspace_coverage_xml workspace.

(** The events of a run of the lcov variant that reached its last stage:
    commands that succeeded, then the report of the workspace, whose exit
    code is not looked at. *)
Definition ok_but_last (workspace : string) (evs : list event) : Prop :=
  exists pre rc,
    evs = pre ++ [EvRunCmd "lcov_cobertura" (workspace_report_params workspace)
                           None rc]
    /\ Forall cmd_ok pre.

(** Fail-fast, for a pipeline whose run to the end leaves events [good]:
    it returns 0 after such a run, or 1 right after the first command that
    failed; an exception leaves no failed command behind. *)
Definition fail_fast (good : list event -> Prop) (evs : list event)
  (r : res Z) : Prop :=
  match r with
  | Val z => (z = 0 /\ good evs) \/ (z = 1 /\ fails_last evs)
  | Exc _ => Forall cmd_ok evs
  end.

(** The same for a loop whose body may leave the function. *)
Definition fail_fast_loop {S} (evs : list event) (r : res (ctl S Z)) : Prop :=
  match r with
  | Val (Return z) => z = 1 /\ fails_last evs
  | _ => Forall cmd_ok evs
  end.

(** What a run of [gen_code_coverage_gcc] leaves: 0 only after a run that
    reached the last stage with every command before it succeeding; 1
    right after the first command that failed, or when the version of
    lcov is of no use; an exception leaves no failed command behind. *)
Definition lcov_outcome (workspace : string) (evs : list event) (r : res Z)
  : Prop :=
  match r with
  | Val z =>
      (z = 0 /\ ok_but_last workspace evs)
      \/ (z = 1 /\ fails_last evs)
      \/ (z = 1 /\ Forall cmd_ok evs
          /\ last evs
             = Some (EvLog ERROR "UnitTest Coverage: Failed to determine lcov version"))
  | Exc _ => Forall cmd_ok evs
  end.

(** The line logged for an architecture without tests. *)
Definition no_tests_warning : event := EvLog WARNING no_tests_message.

(** An event that is no command. *)
Definition no_command (e : event) : Prop :=
  match e with
  | EvRunCmd _ _ _ _ => False
  | _ => True
  end.

(** What comes before the tests of an architecture runs no command and
    does not log the warning. *)
Definition calm (e : event) : Prop := no_command e /\ e <> no_tests_warning.

(** The events of a run that an architecture without tests ended: what
    came before that architecture, then its header, events that are no
    commands, and the warning. *)
Definition ends_at_empty_architecture (evs : list event) : Prop :=
  exists pre arch mid,
    evs = pre ++ EvLog SUBSECTION ("Testing for architecture: " +:+ arch)
                 :: mid ++ [no_tests_warning]
    /\ Forall no_command mid.

(** The run of the loop over the architectures: a [return] is the
    [return 0] of an architecture without tests; without it, the warning
    was not logged. *)
Definition short_circuit {S} (evs : list event) (r : res (ctl S Z)) : Prop :=
  match r with
  | Val (Return z) => z = 0 /\ ends_at_empty_architecture evs
  | _ => Forall (fun e => e <> no_tests_warning) evs
  end.

(** The same for what follows the header of an architecture. *)
Definition after_header {S} (evs : list event) (r : res (ctl S Z)) : Prop :=
  match r with
  | Val (Return z) =>
      z = 0 /\ exists mid, evs = mid ++ [no_tests_warning] /\ Forall no_command mid
  | _ => Forall (fun e => e <> no_tests_warning) evs
  end.

(** The run of [do_post_build]: the warning was not logged, or the run
    returned 0 at an architecture without tests. *)
Definition returns_zero_at_empty (evs : list event) (r : res Z) : Prop :=
  Forall (fun e => e <> no_tests_warning) evs
  \/ (r = Val 0 /\ ends_at_empty_architecture evs).

(** ** Vocabulary of the further properties *)

(** [do_pre_build] *)
Definition do_pre_build : M Z := ret 0.

(** The failures a trace reports: an ERROR line reports one, and so do
    the two WARNING lines of a failed case.  [reported] counts in halves:
    2 for an ERROR line, 1 for a WARNING line. *)
Definition weight (e : event) : Z :=
  match e with
  | EvLog ERROR _ => 2
  | EvLog WARNING _ => 1
  | _ => 0
  end.

Definition reported (evs : list event) : Z :=
  foldr (fun e acc => weight e + acc) 0 evs.

(** The WARNING lines of a trace, in order. *)
Definition warning_lines (evs : list event) : list string :=
  omap (fun e => match e with EvLog WARNING msg => Some msg | _ => None end) evs.

(** An event that reports nothing. *)
Definition silent (e : event) : Prop := weight e = 0.

(** A computation that carries the failure count on from [fc]: a count it
    returns is [fc] and what its events report. *)
Definition counted (fc : Z) (evs : list event) (r : res Z) : Prop :=
  match r with
  | Val fc' => 2 * fc' = 2 * fc + reported evs
  | Exc _ => True
  end.

(** The same for the body of the loop over the architectures. *)
Definition counted_loop (fc : Z) (evs : list event) (r : res (ctl Z Z)) : Prop :=
  match r with
  | Val (Continue fc') => 2 * fc' = 2 * fc + reported evs
  | _ => True
  end.

(** A coverage pipeline returns 0 having reported nothing, or 1 having
    reported one failure. *)
Definition coverage_counted (evs : list event) (r : res Z) : Prop :=
  match r with
  | Val z => (z = 0 \/ z = 1) /\ reported evs = 2 * z
  | Exc _ => True
  end.

Definition coverage_counted_loop {S} (evs : list event) (r : res (ctl S Z))
  : Prop :=
  match r with
  | Val (Continue _) => reported evs = 0
  | Val (Return z) => z = 1 /\ reported evs = 2
  | Exc _ => True
  end.

(** What a run of [do_post_build] that returns a count leaves: the count
    is not negative and, unless an architecture was without tests, it is
    what the events report. *)
Definition count_reported (evs : list event) (r : res Z) : Prop :=
  match r with
  | Val n => 0 <= n /\ (no_tests_warning ∉ evs -> 2 * n = reported evs)
  | Exc _ => True
  end.

(** ** An operating system the plugin does not know *)

Definition unsupported_os : exn :=
  NotImplementedError "Unsupported Operating System".

(** A step that ran no command and can only fail with [OSError]. *)
Definition harmless {A} (evs : list event) (r : res A) : Prop :=
  Forall no_command evs /\ forall e, r = Exc e -> e = OSError.

(** A run that ran no command and did not return: it was refused for the
    operating system, or failed with [OSError] before that. *)
Definition refused {A} (evs : list event) (r : res A) : Prop :=
  Forall no_command evs /\ (r = Exc unsupported_os \/ r = Exc OSError).

(** ** The cleaning of old results

    The first step of an architecture, on its own: the result files a
    former run left in the directory of the architecture are removed. *)
Definition clean_old_results (cp : string) : M unit :=
  old_results <- glob (Path.join cp "*.result.xml") false ;;
  for_fold old_results (fun old_result _ => os_remove old_result) tt.

Definition is_directory (files : gmap string node) (p : string) : Prop :=
  kind_of <$> files !! p = Some Directory.

(** ** The tests that were started *)

(** The commands of a run, in order, without their exit codes. *)
Definition launched (evs : list event)
  : list (string * string * option string) :=
  omap (fun e => match e with
                 | EvRunCmd cmd params wd _ => Some (cmd, params, wd)
                 | _ => None
                 end) evs.

(** The command [run_test] starts for a test: the quoted path of the
    binary, without parameters, in the directory of the architecture. *)
Definition test_command (cp test : string) : string * string * option string :=
  (Str.dq +:+ test +:+ Str.dq, "", Some cp).

(** ** Names and patterns *)

(** A string without the characters [glob] reads as wildcards. *)
Definition literal (s : string) : Prop :=
  Str.has_char "*" s = false /\ Str.has_char "?" s = false
  /\ Str.has_char "[" s = false.

(** A path spelled the way [glob] lists what is under it: without
    wildcard characters, without an empty segment and without a segment
    that starts with a dot (the directory itself, its parent, a hidden
    name).  The file system of the model knows a file under one
    spelling of its path, the real one under all of them. *)
Definition canonical (p : string) : Prop :=
  literal p /\ Str.contains "//" p = false /\ Str.contains "/." p = false
  /\ Glob.hidden p = false.

(** Whether a pattern that follows the literal text [q] stands at the
    start of a path segment; [b] says so for [q] itself. *)
Fixpoint seg_after (b : bool) (q : string) : bool :=
  match q with
  | "" => b
  | String c q' => seg_after (Ascii.eqb c "/") q'
  end.

(** What [os.path.join] puts before a relative second argument. *)
Definition join_prefix (a : string) : string :=
  if (String.eqb a "" || Str.endswith Path.sep a)%bool then a
  else a +:+ Path.sep.

(** A result file of a test: the name the test was given, with what the
    framework puts for the star of the pattern. *)
Definition result_file_of (test tag arch : string) : string :=
  test +:+ "." +:+ tag +:+ "." +:+ arch +:+ ".result.xml".

(** ** Programs that do not raise *)

Definition returns {A} (m : M A) : Prop :=
  forall st, exists a, (m st).1 = Val a.

(** ** The architectures a run went through *)

(** The line that opens the processing of an architecture. *)
Definition arch_header (arch : string) : string :=
  "Testing for architecture: " +:+ arch.

(** The SUBSECTION lines of a trace, in order. *)
Definition header (e : event) : option string :=
  match e with
  | EvLog SUBSECTION msg => Some msg
  | _ => None
  end.

Definition headers (evs : list event) : list string := omap header evs.

(** The architectures were taken in the order of the list, each once; a
    loop that ran to its end took them all. *)
Definition in_order {S R} (archs : list string) (evs : list event)
  (r : res (ctl S R)) : Prop :=
  headers evs `prefix_of` (arch_header <$> archs)
  /\ forall s, r = Val (Continue s) -> headers evs = arch_header <$> archs.

(** The same for a run of [do_post_build]: it took them all when it
    returned without the warning of an architecture without tests. *)
Definition all_in_order (archs : list string) (evs : list event) (r : res Z)
  : Prop :=
  headers evs `prefix_of` (arch_header <$> archs)
  /\ forall n, r = Val n -> no_tests_warning ∉ evs ->
               headers evs = arch_header <$> archs.

(** ** Scenarios

    Concrete hosts and file systems on which the statements below are
    run. *)
Module Scenario.

Definition build_vars (l : list (string * string)) (name : string)
  : option string :=
  (list_to_map l : gmap string string) !! name.

(** An executable file (mode 755), a plain file (mode 644) and a
    directory. *)
Definition exe : node := mkNode Regular 493 None.
Definition plain : node := mkNode Regular 420 None.
Definition dir : node := mkNode Directory 493 None.

Definition start (files : list (string * node)) : state :=
  mkState (list_to_map files) ∅ [].

(** Two architectures: [X64] has one test, which exits with 1; [ARM] has
    no test.  Coverage is off. *)
Definition x64_fails_arm_empty : Host :=
  mkHost (build_vars [("CI_BUILD_TYPE", "host_unit_test");
                      ("BUILD_OUTPUT_BASE", "/b");
                      ("TARGET_ARCH", "X64 ARM");
                      ("CODE_COVERAGE", "FALSE")])
         "Linux"
         (fun st _ _ _ => (1, "", fs st)).

Definition x64_tree : state :=
  start [("/b/X64", dir); ("/b/X64/FooTest", exe);
         ("/b/X64/TestNotes", plain); ("/b/X64/TestData", dir)].

(** The lcov pipeline on a host with lcov 2.0, where every command
    succeeds but the last one, the report of the workspace. *)
Definition last_report_fails : Host :=
  mkHost (build_vars [("BUILD_OUTPUT_BASE", "/b"); ("WORKSPACE", "/w")])
         "Linux"
         (fun st cmd params _ =>
            if decide (cmd = "lcov" /\ params = "--version")
            then (0, "lcov: LCOV version 2.0-1", fs st)
            else if (bool_decide (cmd = "lcov_cobertura")
                     && Str.startswith "/w/Build/all-coverage.info" params)%bool
                 then (1, "", fs st)
                 else (0, "", fs st)).

(** A host whose lcov prints no version number. *)
Definition lcov_without_version : Host :=
  mkHost (build_vars []) "Linux"
         (fun st _ _ _ => (0, "lcov: unknown build", fs st)).

(** A host on which every test exits with 2. *)
Definition tests_exit_2 : Host :=
  mkHost (build_vars []) "Linux" (fun st _ _ _ => (2, "", fs st)).

(** Result documents: one failure in a case named [TestBar], one failure
    in a case without a name. *)
Definition failure_node : Element :=
  mkElement "failure" ∅ (Some "expected 1, got 2") [].

Definition named_doc : Element :=
  mkElement "testsuites" ∅ None
    [mkElement "testsuite" ∅ None
       [mkElement "testcase" {["name" := "TestBar"]} None [failure_node]]].

Definition nameless_doc : Element :=
  mkElement "testsuites" ∅ None
    [mkElement "testsuite" ∅ None
       [mkElement "testcase" ∅ None [failure_node]]].

Definition result_file : string := "/b/X64/FooTest.GTEST.X64.result.xml".

(** One architecture with one test, which exits with 0 and leaves the
    result file with the given content. *)
Definition test_writes (doc : option Element) : Host :=
  mkHost (build_vars [("CI_BUILD_TYPE", "host_unit_test");
                      ("BUILD_OUTPUT_BASE", "/b");
                      ("TARGET_ARCH", "X64");
                      ("CODE_COVERAGE", "FALSE")])
         "Linux"
         (fun st _ _ _ =>
            (0, "", <[result_file := mkNode Regular 420 doc]> (fs st))).

(** A relative build output directory: the candidate the glob finds is a
    directory, and the path the filter checks in its place is an
    executable file. *)
Definition relative_host : Host :=
  mkHost (build_vars []) "Linux" (fun st _ _ _ => (0, "", fs st)).

Definition relative_tree : state :=
  start [("Build/X64/FooTest", dir); ("Build/X64/Build/X64/FooTest", exe)].

End Scenario.

(** ** Further scenarios *)
Module Runs.

(** A host whose operating system the plugin does not know. *)
Definition darwin : Host :=
  mkHost (Scenario.build_vars [("CI_BUILD_TYPE", "host_unit_test");
                               ("BUILD_OUTPUT_BASE", "/b");
                               ("TARGET_ARCH", "X64");
                               ("CODE_COVERAGE", "FALSE")])
         "Darwin"
         (fun st _ _ _ => (0, "", fs st)).

(** A host of the MSVC variant on which every command exits with 1. *)
Definition msvc_fails : Host :=
  mkHost (Scenario.build_vars [("BUILD_OUTPUT_BASE", "/b"); ("WORKSPACE", "/w")])
         "Windows"
         (fun st _ _ _ => (1, "", fs st)).

(** A build output with one test binary, and one without any. *)
Definition exe_tree : state :=
  Scenario.start [("/b/X64/FooTest.exe", Scenario.exe)].

Definition empty_tree : state := Scenario.start [].

(** A build output in which a former run left a result file. *)
Definition stale_tree : state :=
  Scenario.start [("/b/X64/FooTest", Scenario.exe);
                  (Scenario.result_file, Scenario.plain)].

End Runs.

(** * Proofs *)

(** The string and path functions on the inputs of the plugin. *)
Example split_target_arch : Str.split "IA32  X64 " = ["IA32"; "X64"].
Proof. reflexivity. Qed.

Example path_functions :
  Path.basename "/b/X64/FooTest" = "FooTest"
  /\ Path.basename "a/" = ""
  /\ Path.join "/b" "X64" = "/b/X64"
  /\ Path.join "/b/" "X64" = "/b/X64"
  /\ Path.join "b" "/X64" = "/X64"
  /\ Str.upper "Linux" = "LINUX"
  /\ Str.int "12" = 12.
Proof. repeat split; reflexivity. Qed.

Example search_version_lcov :
  search_version "lcov: LCOV version 1.14" = Some ("1", "14")
  /\ search_version "lcov: LCOV version 2.0-1" = Some ("2", "0")
  /\ search_version "version x version 12.x version 3.4" = Some ("3", "4")
  /\ search_version "lcov: unknown build" = None.
Proof. repeat split; reflexivity. Qed.

Example glob_tests :
  Glob.glob (fs Scenario.x64_tree) "/b/X64/*Test*" false
  = ["/b/X64/FooTest"; "/b/X64/TestNotes"; "/b/X64/TestData"].
Proof. vm_compute. reflexivity. Qed.

(** * Facts about strings *)

Module StrFacts.

Lemma app_nil_l (s : string) : "" +:+ s = s.
Proof. reflexivity. Qed.

Lemma app_cons (c : ascii) (a b : string) :
  String c a +:+ b = String c (a +:+ b).
Proof. reflexivity. Qed.

Lemma app_nil_r (s : string) : s +:+ "" = s.
Proof. induction s as [|c s IH]; [done|]. by rewrite app_cons, IH. Qed.

Lemma app_assoc (a b c : string) : (a +:+ b) +:+ c = a +:+ (b +:+ c).
Proof.
  induction a as [|x a IH]; [done|].
  by rewrite !app_cons, IH.
Qed.

Lemma length_app (a b : string) :
  String.length (a +:+ b) = (String.length a + String.length b)%nat.
Proof.
  induction a as [|x a IH]; [done|].
  rewrite app_cons. simpl. by rewrite IH.
Qed.

Lemma eqb_true (a b : string) : String.eqb a b = true -> a = b.
Proof. apply String.eqb_eq. Qed.

(** [startswith] is being a prefix. *)
Lemma startswith_drop (p s : string) :
  Str.startswith p s = true -> s = p +:+ Str.drop (String.length p) s.
Proof.
  unfold Str.startswith. revert s.
  induction p as [|c p IH]; intros s H; [done|].
  destruct s as [|d s]; simpl in H; [done|].
  destruct (ascii_dec c d) as [->|]; [|done].
  rewrite app_cons. simpl. f_equal. by apply IH.
Qed.

Lemma startswith_app (p r : string) : Str.startswith p (p +:+ r) = true.
Proof.
  unfold Str.startswith. induction p as [|c p IH].
  - by destruct r.
  - rewrite app_cons. simpl. by destruct (ascii_dec c c).
Qed.

Lemma endswith_cons (suf : string) (c : ascii) (s : string) :
  Str.endswith suf (String c s)
  = if String.eqb (String c s) suf then true else Str.endswith suf s.
Proof. reflexivity. Qed.

(** [endswith] is being a suffix. *)
Lemma endswith_app (x suf : string) : Str.endswith suf (x +:+ suf) = true.
Proof.
  induction x as [|c x IH].
  - rewrite app_nil_l. destruct suf; simpl; by rewrite ?String.eqb_refl, ?Ascii.eqb_refl.
  - rewrite app_cons, endswith_cons, IH. by destruct (String.eqb _ _).
Qed.

Lemma endswith_inv (suf s : string) :
  Str.endswith suf s = true -> exists x, s = x +:+ suf.
Proof.
  induction s as [|c s IH].
  - destruct suf; [|done]. by exists "".
  - rewrite endswith_cons.
    destruct (String.eqb (String c s) suf) eqn:E.
    + intros _. apply eqb_true in E as <-. by exists "".
    + intros H. destruct (IH H) as [x ->]. exists (String c x).
      by rewrite app_cons.
Qed.

(** A suffix no longer than [b] is looked for in [b] alone. *)
Lemma endswith_app_short (suf a b : string) :
  (String.length suf <= String.length b)%nat ->
  Str.endswith suf (a +:+ b) = Str.endswith suf b.
Proof.
  intros Hlen. induction a as [|c a IH]; [done|].
  rewrite app_cons, endswith_cons.
  destruct (String.eqb (String c (a +:+ b)) suf) eqn:E; [|done].
  apply eqb_true in E. subst suf. simpl in Hlen.
  rewrite length_app in Hlen. lia.
Qed.

Lemma has_char_app (c : ascii) (a b : string) :
  Str.has_char c (a +:+ b) = (Str.has_char c a || Str.has_char c b)%bool.
Proof.
  induction a as [|d a IH]; [done|].
  rewrite app_cons. simpl. rewrite IH. by destruct (Ascii.eqb d c).
Qed.

End StrFacts.

(** * The version of lcov *)

Section LcovVersion.

Import StrFacts.

Lemma span_digits_cons (c : ascii) (s : string) :
  Str.span_digits (String c s)
  = if Str.isdigit c
    then let '(ds, r) := Str.span_digits s in (String c ds, r)
    else ("", String c s).
Proof. reflexivity. Qed.

(** The run is a prefix made of digits. *)
Lemma span_digits_split (s : string) :
  s = (Str.span_digits s).1 +:+ (Str.span_digits s).2
  /\ all_digits (Str.span_digits s).1 = true.
Proof.
  induction s as [|c s [IH1 IH2]]; [done|].
  rewrite span_digits_cons.
  destruct (Str.isdigit c) eqn:Hc; [|done].
  destruct (Str.span_digits s) as [ds r]; simpl in *.
  rewrite Hc, IH2. split; [|done]. rewrite app_cons. by f_equal.
Qed.

(** The run stops at the dot. *)
Lemma span_digits_dot (ds r : string) :
  all_digits ds = true ->
  Str.span_digits (ds +:+ String "." r) = (ds, String "." r).
Proof.
  induction ds as [|c ds IH]; intros H; [done|].
  simpl in H. apply andb_prop in H as [Hc Hds].
  rewrite app_cons, span_digits_cons, Hc, IH; done.
Qed.

(** The run holds at least the digits the string starts with. *)
Lemma span_digits_ne (ds r : string) :
  ds <> "" -> all_digits ds = true -> (Str.span_digits (ds +:+ r)).1 <> "".
Proof.
  destruct ds as [|c ds]; [done|]. intros _ H.
  simpl in H. apply andb_prop in H as [Hc _].
  rewrite app_cons, span_digits_cons, Hc.
  by destruct (Str.span_digits (ds +:+ r)).
Qed.

Lemma version_here_sound (s major minor : string) :
  version_here s = Some (major, minor) ->
  exists post,
    s = "version " +:+ major +:+ "." +:+ minor +:+ post
    /\ major <> "" /\ minor <> ""
    /\ all_digits major = true /\ all_digits minor = true.
Proof.
  unfold version_here.
  destruct (Str.startswith "version " s) eqn:Hp; [|done].
  apply startswith_drop in Hp. simpl String.length in Hp.
  destruct (span_digits_split (Str.drop 8 s)) as [E1 D1].
  destruct (Str.span_digits (Str.drop 8 s)) as [mj r]; simpl in *.
  destruct mj as [|c mj]; [done|].
  destruct r as [|d r]; [done|].
  destruct (ascii_dec d ".") as [->|Hd].
  2:{ destruct d as [[] [] [] [] [] [] [] []]; try done. }
  destruct (span_digits_split r) as [E2 D2].
  destruct (Str.span_digits r) as [mi post]; simpl in *.
  destruct mi as [|e mi]; [done|].
  intros [= <- <-]. exists post.
  split; [|done].
  rewrite Hp at 1. rewrite E1. rewrite E2 at 1.
  reflexivity.
Qed.

Lemma version_here_complete (major minor post : string) :
  major <> "" -> minor <> "" ->
  all_digits major = true -> all_digits minor = true ->
  is_Some (version_here ("version " +:+ major +:+ "." +:+ minor +:+ post)).
Proof.
  intros Hmj Hmi Dmj Dmi. unfold version_here.
  rewrite startswith_app.
  change (Str.drop 8 ("version " +:+ major +:+ "." +:+ minor +:+ post))
    with (major +:+ String "." (minor +:+ post)).
  rewrite span_digits_dot by done.
  destruct major as [|c mj]; [done|].
  pose proof (span_digits_ne minor post Hmi Dmi) as Hne.
  destruct (Str.span_digits (minor +:+ post)) as [[|e mi] r]; [done|].
  by eexists.
Qed.

Lemma search_version_cons (c : ascii) (s : string) :
  search_version (String c s)
  = match version_here (String c s) with
    | Some g => Some g
    | None => search_version s
    end.
Proof. reflexivity. Qed.

(** The search finds a match exactly when the string has one. *)
Lemma search_version_spec (s : string) :
  is_Some (search_version s) <-> has_version s.
Proof.
  split.
  - induction s as [|c s IH].
    + intros [? ?]; done.
    + rewrite search_version_cons.
      destruct (version_here (String c s)) as [[mj mi]|] eqn:E.
      * intros _. apply version_here_sound in E as (post & -> & ?).
        by exists "", mj, mi, post.
      * intros H. destruct (IH H) as (pre & mj & mi & post & -> & ?).
        exists (String c pre), mj, mi, post. by rewrite app_cons.
  - intros (pre & mj & mi & post & -> & Hmj & Hmi & Dmj & Dmi).
    induction pre as [|c pre IH].
    + rewrite app_nil_l.
      destruct (version_here_complete mj mi post Hmj Hmi Dmj Dmi) as [g Hg].
      remember ("version " +:+ mj +:+ "." +:+ mi +:+ post) as s eqn:Es.
      destruct s as [|c s]; [done|].
      rewrite search_version_cons, Hg. by eexists.
    + rewrite app_cons, search_version_cons.
      destruct (version_here _); [by eexists|done].
Qed.

Lemma search_version_None (s : string) :
  search_version s = None <-> ~ has_version s.
Proof.
  rewrite <- search_version_spec, <- eq_None_not_Some. done.
Qed.

End LcovVersion.

(** C9: when [lcov --version] exits with 0 and prints nothing that matches
    the pattern, [get_lcov_version] raises (the [AttributeError] of calling
    [groups] on no match), and it returns [None] exactly when the exit code
    of the command is not 0.  The output is a text of ASCII characters,
    on which the digits of the pattern are the ASCII digits. *)
Theorem get_lcov_version_raises_on_unmatched_output
  (host : Host) (st : state) (rc : Z) (out : string) (files : gmap string node) :
  spawn host st "lcov" "--version" None = (rc, out, files) ->
  let st' := after_RunCmd st "lcov" "--version" None rc files in
  (rc = 0 -> Str.isascii out = true -> ~ has_version out ->
   get_lcov_version host st = (Exc AttributeError, st'))
  /\ (rc <> 0 -> get_lcov_version host st = (Val None, st'))
  /\ ((get_lcov_version host st).1 = Val None -> rc <> 0).
Proof.
  intros Hsp st'.
  unfold get_lcov_version, bind, RunCmd. rewrite Hsp. fold st'.
  repeat split.
  - intros -> _ Hno. apply search_version_None in Hno.
    destruct (decide (0 ≠ 0)); [done|]. by rewrite Hno.
  - intros Hrc. by destruct (decide (rc ≠ 0)).
  - destruct (decide (rc ≠ 0)); [done|].
    destruct (search_version out) as [[mj mi]|]; done.
Qed.

(** * Running the monad *)

Section Emits.

Context (P : event -> Prop).

Lemma emits_ret {A} (a : A) : emits P (ret a).
Proof. intros st. exists []. by rewrite app_nil_r. Qed.

Lemma emits_raise {A} (e : exn) : emits P (@raise A e).
Proof. intros st. exists []. by rewrite app_nil_r. Qed.

Lemma emits_bind {A B} (m : M A) (k : A -> M B) :
  emits P m -> (forall a, emits P (k a)) -> emits P (bind m k).
Proof.
  intros Hm Hk st. unfold bind.
  destruct (Hm st) as (evs1 & E1 & F1).
  destruct (m st) as [[a|e] st1]; simpl in *.
  - destruct (Hk a st1) as (evs2 & E2 & F2).
    exists (evs1 ++ evs2). rewrite E2, E1, app_assoc.
    split; [done|]. by apply Forall_app.
  - by exists evs1.
Qed.

Lemma emits_emit (e : event) : P e -> emits P (emit e).
Proof. intros He st. exists [e]. split; [done|]. by constructor. Qed.

Lemma emits_log (lvl : level) (msg : string) :
  P (EvLog lvl msg) -> emits P (log lvl msg).
Proof. apply emits_emit. Qed.

Lemma emits_set_shell_var (name value : string) :
  P (EvSetShellVar name value) -> emits P (set_shell_var name value).
Proof. intros He st. eexists [_]. split; [done|]. by constructor. Qed.

Lemma emits_glob (pattern : string) (recursive : bool) :
  (forall found, P (EvGlob pattern recursive found)) ->
  emits P (glob pattern recursive).
Proof. intros He st. eexists [_]. split; [done|]. by constructor. Qed.

Lemma emits_isfile (p : string) : emits P (isfile p).
Proof. intros st. exists []. by rewrite app_nil_r. Qed.

Lemma emits_stat_mode (p : string) : emits P (stat_mode p).
Proof.
  intros st. exists []. rewrite app_nil_r. unfold stat_mode.
  by destruct (fs st !! p).
Qed.

Lemma emits_os_remove (p : string) : P (EvRemove p) -> emits P (os_remove p).
Proof.
  intros He st. unfold os_remove.
  destruct (fs st !! p) as [n|]; [destruct (kind_of n)|]; simpl;
    try (exists []; by rewrite app_nil_r);
    (exists [EvRemove p]; split; [done|by constructor]).
Qed.

Lemma emits_parse (file : string) :
  (forall doc, P (EvParse file doc)) -> emits P (parse file).
Proof.
  intros He st. unfold parse.
  destruct (fs st !! file) as [n|]; [destruct (kind_of n)|]; simpl;
    try (exists []; by rewrite app_nil_r);
    (exists [EvParse file (xml_doc n)]; split;
     [by destruct (xml_doc n)|by constructor]).
Qed.

Lemma emits_RunCmd (host : Host) (cmd params : string) (wd : option string) :
  (forall rc, P (EvRunCmd cmd params wd rc)) ->
  emits P (RunCmd host cmd params wd).
Proof.
  intros He st. unfold RunCmd.
  destruct (spawn host st cmd params wd) as [[rc out] files].
  exists [EvRunCmd cmd params wd rc]. split; [done|]. by constructor.
Qed.

Lemma emits_for_fold {A S} (l : list A) (body : A -> S -> M S) (s : S) :
  (forall x s, emits P (body x s)) -> emits P (for_fold l body s).
Proof.
  intros Hb. revert s. induction l as [|x l IH]; intros s; simpl.
  - apply emits_ret.
  - apply emits_bind; [apply Hb|]. intros s'. apply IH.
Qed.

Lemma emits_for_loop {A S R} (l : list A) (body : A -> S -> M (ctl S R))
  (s : S) :
  (forall x s, emits P (body x s)) -> emits P (for_loop l body s).
Proof.
  intros Hb. revert s. induction l as [|x l IH]; intros s; simpl.
  - apply emits_ret.
  - apply emits_bind; [apply Hb|].
    intros [s'|r]; [apply IH|apply emits_ret].
Qed.

End Emits.

(** One step of a proof that every event of a program satisfies a
    predicate: take the program apart along its binds and branches. *)
Ltac emits_step :=
  lazymatch goal with
  | |- emits _ (bind _ _) => apply emits_bind; [|intros ?]
  | |- emits _ (ret _) => apply emits_ret
  | |- emits _ (raise _) => apply emits_raise
  | |- emits _ (log _ _) => apply emits_log
  | |- emits _ (set_shell_var _ _) => apply emits_set_shell_var
  | |- emits _ (glob _ _) => apply emits_glob; intros ?
  | |- emits _ (isfile _) => apply emits_isfile
  | |- emits _ (stat_mode _) => apply emits_stat_mode
  | |- emits _ (os_remove _) => apply emits_os_remove
  | |- emits _ (parse _) => apply emits_parse; intros ?
  | |- emits _ (RunCmd _ _ _ _) => apply emits_RunCmd; intros ?
  | |- emits _ (for_fold _ _ _) => apply emits_for_fold; intros ? ?
  | |- emits _ (for_loop _ _ _) => apply emits_for_loop; intros ? ?
  | |- emits _ (if ?b then _ else _) => destruct b
  | |- emits _ (match ?x with _ => _ end) => destruct x
  | |- emits _ (let '(_, _) := ?x in _) => destruct x
  end.

(** * The compatibility flag of the lcov calls *)

Section LcovFlag.

Import StrFacts.

(** The parameters of every lcov stage end with the branch-coverage
    setting and [lcov_error_settings]. *)
Lemma lcov_params_flag (v : Z) (pre : string) :
  Str.endswith mismatch_flag
    (pre +:+ " --rc lcov_branch_coverage=1 " +:+ lcov_error_settings v) = true
  <-> v >= 2.
Proof.
  rewrite endswith_app_short.
  - unfold lcov_error_settings. destruct (decide (v >= 2)); split; done.
  - rewrite length_app. simpl. lia.
Qed.

Lemma flag_ok_lcov (v : Z) (pre : string) (wd : option string) (rc : Z) :
  flag_ok v (EvRunCmd "lcov"
               (pre +:+ " --rc lcov_branch_coverage=1 " +:+ lcov_error_settings v)
               wd rc).
Proof. intros _. apply lcov_params_flag. Qed.

Lemma flag_ok_other (v : Z) (cmd params : string) (wd : option string) (rc : Z) :
  cmd <> "lcov" -> flag_ok v (EvRunCmd cmd params wd rc).
Proof. intros Hne Heq. done. Qed.

Lemma lcov_stages_flag (host : Host) (buildOutputBase workspace : string) (v : Z) :
  emits (flag_ok v) (lcov_stages host buildOutputBase workspace v).
Proof.
  unfold lcov_stages.
  repeat emits_step;
    try exact I; try (apply flag_ok_other; discriminate).
  - rewrite <- !app_assoc. rewrite (app_assoc _ " --rc lcov_branch_coverage=1 ").
    apply flag_ok_lcov.
  - rewrite <- !app_assoc. rewrite (app_assoc _ " --rc lcov_branch_coverage=1 ").
    apply flag_ok_lcov.
  - rewrite <- !app_assoc. rewrite (app_assoc _ " --rc lcov_branch_coverage=1 ").
    apply flag_ok_lcov.
  - rewrite <- !app_assoc. rewrite (app_assoc _ " --rc lcov_branch_coverage=1 ").
    apply flag_ok_lcov.
Qed.

End LcovFlag.

Lemma emits_weaken (P Q : event -> Prop) {A} (m : M A) :
  (forall e, P e -> Q e) -> emits P m -> emits Q m.
Proof.
  intros HPQ Hm st. destruct (Hm st) as (evs & E & F).
  exists evs. split; [done|]. eapply Forall_impl; eauto.
Qed.

(** A program that starts with a command has that call as the first of
    its events. *)
Lemma bind_RunCmd_first (host : Host) (cmd params : string)
  (wd : option string) {B} (k : Z * string -> M B) (st : state) :
  (forall a, emits (fun _ => True) (k a)) ->
  exists rc rest,
    trace (bind (RunCmd host cmd params wd) k st).2
    = trace st ++ EvRunCmd cmd params wd rc :: rest.
Proof.
  intros Hk. unfold bind, RunCmd.
  destruct (spawn host st cmd params wd) as [[rc out] files].
  destruct (Hk (rc, out) (mkState files (shell_vars st)
                            (trace st ++ [EvRunCmd cmd params wd rc])))
    as (rest & E & _).
  exists rc, rest. rewrite E. simpl. by rewrite <- app_assoc.
Qed.

(** The first stage is always run. *)
Lemma lcov_stages_first (host : Host) (buildOutputBase workspace : string)
  (v : Z) (st : state) :
  exists params rc rest,
    trace (lcov_stages host buildOutputBase workspace v st).2
    = trace st ++ EvRunCmd "lcov" params None rc :: rest.
Proof.
  unfold lcov_stages. eexists.
  apply bind_RunCmd_first.
  intros a. repeat emits_step; exact I.
Qed.

(** C8: in the lcov variant, once the major version [v] of lcov is known,
    the capture and merge calls of lcov that follow carry the flag
    [--ignore-errors mismatch] if and only if [v >= 2]; and whenever the
    version check passes, the first capture is among them. *)
Theorem lcov_mismatch_flag_iff_major_version_ge_2
  (host : Host) (st st1 : state) (v : Z) :
  get_lcov_version host (logged st INFO "Generating UnitTest code coverage")
  = (Val (Some v), st1) ->
  exists evs,
    trace (gen_code_coverage_gcc host st).2 = trace st1 ++ evs
    /\ (v <> 0 -> exists params rc, EvRunCmd "lcov" params None rc ∈ evs)
    /\ forall params wd rc,
         EvRunCmd "lcov" params wd rc ∈ evs ->
         (Str.endswith mismatch_flag params = true <-> v >= 2).
Proof.
  intros Hver.
  unfold gen_code_coverage_gcc. unfold bind at 1.
  change (log INFO "Generating UnitTest code coverage" st)
    with (Val tt, logged st INFO "Generating UnitTest code coverage").
  cbv beta iota. unfold bind at 1. rewrite Hver.
  set (bob := Str.fmt (GetValue host "BUILD_OUTPUT_BASE")).
  set (ws := Str.fmt (GetValue host "WORKSPACE")).
  assert (Hstages : forall msg,
    exists evs,
      trace (bind (log INFO msg) (fun _ => lcov_stages host bob ws v) st1).2
      = trace st1 ++ evs
      /\ (exists params rc, EvRunCmd "lcov" params None rc ∈ evs)
      /\ forall params wd rc,
           EvRunCmd "lcov" params wd rc ∈ evs ->
           (Str.endswith mismatch_flag params = true <-> v >= 2)).
  { intros msg. unfold bind, log, emit.
    set (st2 := mkState (fs st1) (shell_vars st1) (trace st1 ++ [EvLog INFO msg])).
    destruct (lcov_stages_flag host bob ws v st2) as (evs & E & F).
    destruct (lcov_stages_first host bob ws v st2) as (p & rc & rest & E').
    exists (EvLog INFO msg :: evs). rewrite E. simpl.
    split; [by rewrite <- app_assoc|]. split.
    - rewrite E in E'. apply app_inv_head in E'. subst evs.
      exists p, rc. set_solver.
    - intros params wd rc' Hin. apply elem_of_cons in Hin as [|Hin]; [done|].
      rewrite Forall_forall in F. by apply (F _ Hin). }
  destruct v as [|v|v].
  - exists [EvLog ERROR "UnitTest Coverage: Failed to determine lcov version"].
    split; [done|]. split; [done|].
    intros params wd rc Hin. apply list_elem_of_singleton in Hin. done.
  - destruct (Hstages ("Got lcov version " +:+ Str.of_Z (Z.pos v)))
      as (evs & E & H1 & H2).
    exists evs. split; [exact E|]. split; [intros _; exact H1|exact H2].
  - destruct (Hstages ("Got lcov version " +:+ Str.of_Z (Z.neg v)))
      as (evs & E & H1 & H2).
    exists evs. split; [exact E|]. split; [intros _; exact H1|exact H2].
Qed.

(** * The tally of a result document *)

Section Loops.

Lemma bind_ret_l {A B} (a : A) (k : A -> M B) (st : state) :
  bind (ret a) k st = k a st.
Proof. reflexivity. Qed.

Lemma bind_eq {A B} (m m' : M A) (k k' : A -> M B) (st : state) :
  m st = m' st -> (forall a st', k a st' = k' a st') ->
  bind m k st = bind m' k' st.
Proof.
  intros Hm Hk. unfold bind. rewrite Hm.
  destruct (m' st) as [[a|e] st']; [apply Hk|done].
Qed.

Lemma bind_assoc {A B C} (m : M A) (k : A -> M B) (k' : B -> M C) (st : state) :
  bind (bind m k) k' st = bind m (fun a => bind (k a) k') st.
Proof. unfold bind. by destruct (m st) as [[a|e] st']. Qed.

Lemma for_fold_app {A S} (l1 l2 : list A) (body : A -> S -> M S) (s : S)
  (st : state) :
  for_fold (l1 ++ l2) body s st
  = bind (for_fold l1 body s) (fun s' => for_fold l2 body s') st.
Proof.
  revert s st. induction l1 as [|x l1 IH]; intros s st; [done|].
  simpl. rewrite bind_assoc. apply bind_eq; [done|]. intros s' st'. apply IH.
Qed.

(** Nested loops are one loop over the flattened list. *)
Lemma for_fold_flatten {A B S} (l : list A) (f : A -> list B)
  (outer : A -> S -> M S) (inner : B -> S -> M S) (s : S) (st : state) :
  (forall x s st, outer x s st = for_fold (f x) inner s st) ->
  for_fold l outer s st = for_fold (l ≫= f) inner s st.
Proof.
  intros Hb. revert s st. induction l as [|x l IH]; intros s st; [done|].
  rewrite bind_cons, for_fold_app. simpl.
  apply bind_eq; [apply Hb|]. intros s' st'. apply IH.
Qed.

Lemma traced_by_nil (st : state) : traced_by st [] = st.
Proof. destruct st. unfold traced_by. simpl. by rewrite app_nil_r. Qed.

Lemma traced_by_app (st : state) (l1 l2 : list event) :
  traced_by (traced_by st l1) l2 = traced_by st (l1 ++ l2).
Proof. unfold traced_by. simpl. by rewrite app_assoc. Qed.

End Loops.

Section Tally.

Context (test : string).

Lemma tally_case_flat (case : Element) (fc : Z) (st : state) :
  tally_case test case fc st
  = for_fold (case_failures case) (tally_failure test) fc st.
Proof.
  unfold tally_case, case_failures.
  generalize (children case) as l. intros l. revert fc st.
  induction l as [|result l IH]; intros fc st; [done|].
  simpl. unfold tally_result at 1.
  rewrite filter_cons. destruct (decide (tag result = "failure")) as [Hf|Hf].
  - rewrite fmap_cons. simpl. unfold tally_failure at 1, tally_result. simpl.
    destruct (decide (tag result = "failure")); [|done].
    apply bind_eq; [done|]. intros a st'. apply IH.
  - rewrite bind_ret_l. apply IH.
Qed.

Lemma tally_root_flat (root : Element) (fc : Z) (st : state) :
  tally_root test root fc st
  = for_fold (failure_nodes root) (tally_failure test) fc st.
Proof.
  unfold tally_root, failure_nodes.
  apply for_fold_flatten. intros suite s st'.
  unfold tally_suite. apply for_fold_flatten. apply tally_case_flat.
Qed.

Lemma failure_nodes_tag (root : Element) :
  Forall (fun f => tag f.2 = "failure") (failure_nodes root).
Proof.
  unfold failure_nodes. apply Forall_bind, Forall_forall. intros suite _.
  apply Forall_bind, Forall_forall. intros case _.
  unfold case_failures. apply Forall_fmap, Forall_forall.
  intros result Hin. by apply list_elem_of_filter in Hin as [? _].
Qed.

(** A failure node in a named case: two lines and one more failure. *)
Lemma tally_failure_named (f : Element * Element) (fc : Z) (st : state) :
  tag f.2 = "failure" -> named f ->
  tally_failure test f fc st = (Val (fc + 1), traced_by st (failure_log test f)).
Proof.
  intros Htag [name Hname]. destruct f as [case result].
  unfold tally_failure, tally_result, failure_log, traced_by. simpl in *.
  destruct (decide (tag result = "failure")); [|done].
  unfold bind, log, emit. simpl. rewrite Hname. simpl.
  by rewrite <- app_assoc.
Qed.

(** A failure node in a case without a name: the first line, then the
    [KeyError]. *)
Lemma tally_failure_nameless (f : Element * Element) (fc : Z) (st : state) :
  tag f.2 = "failure" -> ~ named f ->
  tally_failure test f fc st
  = (Exc (KeyError "name"),
     traced_by st [EvLog WARNING (Path.basename test +:+ " Test Failed")]).
Proof.
  intros Htag Hname. destruct f as [case result].
  unfold tally_failure, tally_result, traced_by, named in *. simpl in *.
  destruct (decide (tag result = "failure")); [|done].
  unfold bind, log, emit. simpl.
  destruct (attrib case !! "name") as [name|]; [|done].
  destruct Hname. by eexists.
Qed.

Lemma tally_all_named (l : list (Element * Element)) (fc : Z) (st : state) :
  Forall (fun f => tag f.2 = "failure") l -> Forall named l ->
  for_fold l (tally_failure test) fc st
  = (Val (fc + Z.of_nat (length l)), traced_by st (failure_logs test l)).
Proof.
  revert fc st. induction l as [|f l IH]; intros fc st Ht Hn.
  - simpl. unfold ret, failure_logs. simpl.
    by rewrite Z.add_0_r, traced_by_nil.
  - apply Forall_cons in Ht as [Ht1 Ht2]. apply Forall_cons in Hn as [Hn1 Hn2].
    simpl for_fold. unfold bind. rewrite tally_failure_named by done.
    rewrite IH by done. unfold failure_logs. rewrite bind_cons, traced_by_app.
    f_equal. f_equal. simpl length. lia.
Qed.

Lemma tally_first_nameless (l1 l2 : list (Element * Element))
  (f : Element * Element) (fc : Z) (st : state) :
  Forall (fun f => tag f.2 = "failure") (l1 ++ f :: l2) ->
  Forall named l1 -> ~ named f ->
  for_fold (l1 ++ f :: l2) (tally_failure test) fc st
  = (Exc (KeyError "name"),
     traced_by st (failure_logs test l1
                   ++ [EvLog WARNING (Path.basename test +:+ " Test Failed")])).
Proof.
  intros Ht Hn1 Hf. apply Forall_app in Ht as [Ht1 Ht2].
  apply Forall_cons in Ht2 as [Htf _].
  rewrite for_fold_app. unfold bind. rewrite tally_all_named by done.
  simpl for_fold. unfold bind. rewrite tally_failure_nameless by done.
  by rewrite traced_by_app.
Qed.

End Tally.

(** The first failure node whose case has no name. *)
Lemma first_nameless (l : list (Element * Element)) :
  Exists (fun f => ~ named f) l ->
  exists l1 f l2, l = l1 ++ f :: l2 /\ Forall named l1 /\ ~ named f.
Proof.
  induction l as [|f l IH]; intros H; [by apply Exists_nil in H|].
  destruct (decide (named f)) as [Hf|Hf].
  - apply Exists_cons in H as [H|H]; [done|].
    destruct (IH H) as (l1 & g & l2 & -> & Hl1 & Hg).
    exists (f :: l1), g, l2. split; [done|]. split; [by constructor|done].
  - exists [], f, l. split; [done|]. split; [constructor|done].
Qed.

(** C4, as amended: for a well-formed result document in which every case
    that holds a [failure] node has a [name] attribute, parsing a document
    with exactly [k] such nodes at the case level adds exactly [k] to the
    failure count, and logs for each of them, in document order, the name
    of its case with the text of the node. *)
Theorem tally_adds_number_of_named_failures
  (test file : string) (fc : Z) (st : state) (n : node) (root : Element) :
  fs st !! file = Some n -> kind_of n <> Directory -> xml_doc n = Some root ->
  Forall named (failure_nodes root) ->
  tally_file test file fc st
  = (Val (fc + Z.of_nat (length (failure_nodes root))),
     traced_by st (EvParse file (Some root)
                   :: failure_logs test (failure_nodes root))).
Proof.
  intros Hfile Hkind Hdoc Hnamed.
  unfold tally_file, bind, parse. rewrite Hfile, Hdoc.
  destruct (kind_of n); try done.
  all: rewrite tally_root_flat, tally_all_named
         by (done || apply failure_nodes_tag).
  all: unfold traced_by; simpl; by rewrite <- app_assoc.
Qed.

(** C5: a test binary that exits with a code other than 0 adds exactly 1 to
    the failure count; the calls made for it are the two shell variables,
    the command and the error line, so no result file is looked for or
    parsed; and the loop goes on with the next binary. *)
Theorem failing_binary_counts_once_and_is_not_parsed
  (host : Host) (cp arch test : string) (rest : list string) (fc : Z)
  (st : state) (rc : Z) (out : string) (files : gmap string node) :
  spawn host (test_env st test arch) (Str.dq +:+ test +:+ Str.dq) "" (Some cp)
  = (rc, out, files) ->
  rc <> 0 ->
  let st' :=
    logged (after_RunCmd (test_env st test arch)
                         (Str.dq +:+ test +:+ Str.dq) "" (Some cp) rc files)
           ERROR ("UnitTest Execution Error: " +:+ Path.basename test) in
  run_test host cp arch test fc st = (Val (fc + 1), st')
  /\ trace st'
     = trace st
       ++ [EvSetShellVar "CMOCKA_XML_FILE" (cmocka_xml_file test arch);
           EvSetShellVar "GTEST_OUTPUT" ("xml:" +:+ gtest_xml_file test arch);
           EvRunCmd (Str.dq +:+ test +:+ Str.dq) "" (Some cp) rc;
           EvLog ERROR ("UnitTest Execution Error: " +:+ Path.basename test)]
  /\ for_fold (test :: rest) (run_test host cp arch) fc st
     = for_fold rest (run_test host cp arch) (fc + 1) st'.
Proof.
  intros Hsp Hrc st'.
  assert (Hrun : run_test host cp arch test fc st = (Val (fc + 1), st')).
  { unfold run_test, bind, set_shell_var, RunCmd.
    change (mkState (fs _) (<["GTEST_OUTPUT" := _]> _) _)
      with (test_env st test arch).
    rewrite Hsp. simpl. by destruct (decide (rc ≠ 0)). }
  split; [exact Hrun|]. split.
  - simpl. by rewrite <- !app_assoc.
  - simpl for_fold. unfold bind at 1. by rewrite Hrun.
Qed.

(** * Exceptions leave the run *)

Section Aborts.

Lemma aborts_exc {A B} (evs : list event) (e : exn) :
  @aborts A evs (Exc e) -> @aborts B evs (Exc e).
Proof.
  intros [H|(pre & ev & tail & -> & Hpre & Hev & [= ->] & Htail)]; [by left|].
  right. by exists pre, ev, tail.
Qed.

Lemma aborts_val {A} (evs : list event) (a : A) :
  aborts evs (Val a) -> Forall (fun e => ~ fatal e) evs.
Proof. intros [H|(pre & ev & tail & _ & _ & _ & [=] & _)]. done. Qed.

Lemma aborts_app {A} (evs1 evs2 : list event) (r : res A) :
  Forall (fun e => ~ fatal e) evs1 -> aborts evs2 r -> aborts (evs1 ++ evs2) r.
Proof.
  intros H1 [H2|(pre & ev & tail & -> & Hpre & Hev & Hr & Htail)].
  - left. by apply Forall_app.
  - right. exists (evs1 ++ pre), ev, tail.
    rewrite <- app_assoc. split; [done|]. split; [by apply Forall_app|done].
Qed.

(** A program whose events are never a fatal parse. *)
Lemma traced_of_emits {A} (m : M A) :
  emits (fun e => ~ fatal e) m -> traced m aborts.
Proof.
  intros Hm st. destruct (Hm st) as (evs & E & F).
  exists evs. split; [done|]. by left.
Qed.

Lemma traced_aborts_bind {A B} (m : M A) (k : A -> M B) :
  traced m aborts -> (forall a, traced (k a) aborts) ->
  traced (bind m k) aborts.
Proof.
  intros Hm Hk st. unfold bind.
  destruct (Hm st) as (evs1 & E1 & Q1).
  destruct (m st) as [[a|e] st1]; simpl in *.
  - destruct (Hk a st1) as (evs2 & E2 & Q2).
    exists (evs1 ++ evs2). rewrite E2, E1, app_assoc. split; [done|].
    apply aborts_app; [|done]. by eapply aborts_val.
  - exists evs1. split; [done|]. by eapply aborts_exc.
Qed.

Lemma traced_aborts_ret {A} (a : A) : traced (ret a) aborts.
Proof. apply traced_of_emits, emits_ret. Qed.

Lemma traced_aborts_for_fold {A S} (l : list A) (body : A -> S -> M S) (s : S) :
  (forall x s, traced (body x s) aborts) -> traced (for_fold l body s) aborts.
Proof.
  intros Hb. revert s. induction l as [|x l IH]; intros s; simpl.
  - apply traced_aborts_ret.
  - apply traced_aborts_bind; [apply Hb|]. intros s'. apply IH.
Qed.

Lemma traced_aborts_for_loop {A S R} (l : list A)
  (body : A -> S -> M (ctl S R)) (s : S) :
  (forall x s, traced (body x s) aborts) -> traced (for_loop l body s) aborts.
Proof.
  intros Hb. revert s. induction l as [|x l IH]; intros s; simpl.
  - apply traced_aborts_ret.
  - apply traced_aborts_bind; [apply Hb|].
    intros [s'|r]; [apply IH|apply traced_aborts_ret].
Qed.

Lemma failure_logs_warning (test : string) (l : list (Element * Element)) :
  Forall is_warning (failure_logs test l).
Proof.
  unfold failure_logs. apply Forall_bind, Forall_forall. intros f _.
  unfold failure_log. by repeat constructor.
Qed.

Lemma warning_not_fatal (l : list event) :
  Forall is_warning l -> Forall (fun e => ~ fatal e) l.
Proof.
  intros H. eapply Forall_impl; [exact H|].
  intros [[] ?| | | | |]; simpl; tauto.
Qed.

(** The tally that follows the parse of a well-formed document. *)
Lemma tally_parsed_aborts (test file : string) (root : Element) (fc : Z)
  (st : state) :
  let run := tally_root test root fc (traced_by st [EvParse file (Some root)]) in
  exists evs, trace run.2 = trace st ++ evs /\ aborts evs run.1.
Proof.
  intros run. unfold run. rewrite tally_root_flat.
  destruct (decide (Forall named (failure_nodes root))) as [Hall|Hsome].
  - rewrite tally_all_named by (done || apply failure_nodes_tag).
    eexists. simpl. rewrite <- app_assoc. split; [done|]. left.
    constructor.
    + simpl. intros H. by apply Exists_not_Forall in H.
    + apply warning_not_fatal, failure_logs_warning.
  - apply not_Forall_Exists in Hsome; [|apply _].
    destruct (first_nameless _ Hsome) as (l1 & f & l2 & E & Hl1 & Hf).
    pose proof (failure_nodes_tag root) as Htags. rewrite E in Htags.
    rewrite E, tally_first_nameless by done.
    eexists. simpl. rewrite <- app_assoc. split; [done|]. right.
    exists [], (EvParse file (Some root)),
      (failure_logs test l1
       ++ [EvLog WARNING (Path.basename test +:+ " Test Failed")]).
    split; [done|]. split; [constructor|].
    split; [exact Hsome|].
    split; [done|]. split; [|by eexists _, _].
    apply Forall_app. split; [apply failure_logs_warning|by repeat constructor].
Qed.

(** The one place where a parse can be fatal. *)
Lemma tally_file_aborts (test file : string) (fc : Z) :
  traced (tally_file test file fc) aborts.
Proof.
  intros st. unfold tally_file, bind, parse.
  destruct (fs st !! file) as [n|]; [|exists []; split; [by rewrite app_nil_r|by left]].
  destruct (kind_of n), (xml_doc n) as [root|];
    try apply tally_parsed_aborts;
    try (exists []; split; [by rewrite app_nil_r|by left]).
  all: exists [EvParse file None]; split; [done|]; right.
  all: exists [], (EvParse file None), []; by repeat split.
Qed.

End Aborts.

(** The steps of a program that never parse: every event is harmless. *)
Ltac no_parse :=
  apply traced_of_emits; repeat emits_step; simpl; tauto.

Ltac aborts_step :=
  lazymatch goal with
  | |- traced (bind _ _) aborts => apply traced_aborts_bind; [|intros ?]
  | |- traced (for_fold _ _ _) aborts => apply traced_aborts_for_fold; intros ? ?
  | |- traced (for_loop _ _ _) aborts => apply traced_aborts_for_loop; intros ? ?
  | |- traced (tally_file _ _ _) aborts => apply tally_file_aborts
  | |- traced (ret _) aborts => apply traced_aborts_ret
  | |- traced (if ?b then _ else _) aborts => destruct b
  | |- traced (match ?x with _ => _ end) aborts => destruct x
  end.

Section Propagation.

Context (host : Host).

Lemma gen_code_coverage_gcc_no_parse :
  emits (fun e => ~ fatal e) (gen_code_coverage_gcc host).
Proof.
  unfold gen_code_coverage_gcc, get_lcov_version, lcov_stages.
  repeat emits_step; simpl; tauto.
Qed.

Lemma gen_code_coverage_msvc_no_parse :
  emits (fun e => ~ fatal e) (gen_code_coverage_msvc host).
Proof.
  unfold gen_code_coverage_msvc, collect_coverage, fold_coverage, merge_coverage.
  repeat emits_step; simpl; tauto.
Qed.

Lemma run_coverage_no_parse (fc : Z) :
  emits (fun e => ~ fatal e) (run_coverage host fc).
Proof.
  unfold run_coverage.
  repeat first
    [ apply gen_code_coverage_gcc_no_parse
    | apply gen_code_coverage_msvc_no_parse
    | emits_step ]; simpl; tauto.
Qed.

Lemma discover_no_parse (cp : string) :
  emits (fun e => ~ fatal e) (discover host cp).
Proof.
  unfold discover, check_candidate. repeat emits_step; simpl; tauto.
Qed.

Lemma run_test_aborts (cp arch test : string) (fc : Z) :
  traced (run_test host cp arch test fc) aborts.
Proof.
  unfold run_test.
  aborts_step; [no_parse|]. aborts_step; [no_parse|].
  aborts_step; [no_parse|]. aborts_step; [no_parse|].
  aborts_step; [no_parse|]. aborts_step; [no_parse|].
  aborts_step. aborts_step.
Qed.

Lemma arch_body_aborts (path : option string) (arch : string) (fc : Z) :
  traced (arch_body host path arch fc) aborts.
Proof.
  unfold arch_body.
  aborts_step; [no_parse|]. aborts_step; [no_parse|].
  aborts_step; [no_parse|]. aborts_step; [no_parse|].
  aborts_step; [apply traced_of_emits, discover_no_parse|].
  aborts_step; [no_parse|].
  aborts_step; [aborts_step; apply run_test_aborts|].
  aborts_step; [apply traced_of_emits, run_coverage_no_parse|].
  aborts_step.
Qed.

Lemma do_post_build_aborts : traced (do_post_build host) aborts.
Proof.
  unfold do_post_build.
  aborts_step; [aborts_step|].
  aborts_step; [no_parse|]. aborts_step; [no_parse|].
  aborts_step; [no_parse|]. aborts_step; [no_parse|].
  aborts_step; [no_parse|].
  aborts_step; [aborts_step; apply arch_body_aborts|].
  aborts_step; aborts_step.
Qed.

End Propagation.

(** * Discovery *)

Section GlobFacts.

Import StrFacts.

Lemma wmatch_nil (rec b : bool) (s : string) :
  Glob.wmatch rec "" b s = match s with "" => true | _ => false end.
Proof. reflexivity. Qed.

Lemma wmatch_lit (rec : bool) (c : ascii) (p : string) (b : bool) (s : string) :
  Ascii.eqb c "*" = false ->
  Glob.wmatch rec (String c p) b s
  = match s with
    | "" => false
    | String d s' => (Ascii.eqb c d && Glob.wmatch rec p (Ascii.eqb c "/") s')%bool
    end.
Proof. intros H. simpl. by rewrite H. Qed.

Lemma wmatch_star (p : string) (b : bool) (s : string) :
  Glob.wmatch false (String "*" p) b s
  = if (b && Glob.hidden s)%bool then false else star_loop p b true s.
Proof. destruct p as [|c1 [|c2 p'']]; reflexivity. Qed.

Lemma star_loop_eq (p : string) (b z : bool) (s : string) :
  star_loop p b z s
  = if Glob.wmatch false p (b && z) s then true
    else match s with
         | "" => false
         | String d s' =>
             if Ascii.eqb d "/" then false else star_loop p b false s'
         end.
Proof. destruct s; reflexivity. Qed.

(** A match of a pattern with a separator splits the path at a separator:
    what follows it matches what follows in the pattern. *)
Lemma wmatch_split (r q : string) (b : bool) (s : string) :
  Glob.wmatch false (q +:+ "/" +:+ r) b s = true ->
  exists x n, s = x +:+ "/" +:+ n /\ Glob.wmatch false r true n = true.
Proof.
  revert b s. induction q as [|c q IH]; intros b s.
  - rewrite app_nil_l. change ("/" +:+ r) with (String "/" r).
    rewrite wmatch_lit by done.
    destruct s as [|d s]; [done|]. intros H. apply andb_prop in H as [Hd Hr].
    apply Ascii.eqb_eq in Hd as <-. by exists "", s.
  - rewrite app_cons. destruct (Ascii.eqb c "*") eqn:Hc.
    + apply Ascii.eqb_eq in Hc as ->. rewrite wmatch_star.
      destruct (b && Glob.hidden s)%bool; [done|].
      assert (Hloop : forall z s,
        star_loop (q +:+ "/" +:+ r) b z s = true ->
        exists x n, s = x +:+ "/" +:+ n /\ Glob.wmatch false r true n = true);
        [|apply Hloop].
      clear s. intros z s. revert z.
      induction s as [|d s IHs]; intros z; rewrite star_loop_eq.
      * destruct (Glob.wmatch false _ _ "") eqn:E; [|done].
        intros _. by eapply IH.
      * destruct (Glob.wmatch false _ _ (String d s)) eqn:E;
          [intros _; by eapply IH|].
        destruct (Ascii.eqb d "/"); [done|]. intros H.
        destruct (IHs _ H) as (x & n & -> & Hn).
        exists (String d x), n. by rewrite app_cons.
    + rewrite wmatch_lit by done. destruct s as [|d s]; [done|].
      intros H. apply andb_prop in H as [Hd Hr]. apply Ascii.eqb_eq in Hd as <-.
      destruct (IH _ _ Hr) as (x & n & -> & Hn).
      exists (String c x), n. by rewrite app_cons.
Qed.

(** A trailing star stays inside the segment. *)
Lemma star_loop_nil (b z : bool) (s : string) :
  star_loop "" b z s = true -> Str.has_char "/" s = false.
Proof.
  revert z. induction s as [|d s IH]; intros z; [done|].
  rewrite star_loop_eq, wmatch_nil. simpl Str.has_char.
  destruct (Ascii.eqb d "/"); [done|]. apply IH.
Qed.

Lemma contains_cons (sub : string) (c : ascii) (s : string) :
  Str.contains sub (String c s)
  = if String.prefix sub (String c s) then true else Str.contains sub s.
Proof. reflexivity. Qed.

(** What [*Test*] matches: a name of one segment with [Test] in it. *)
Lemma wmatch_Test (n : string) :
  Glob.wmatch false "*Test*" true n = true ->
  Str.has_char "/" n = false /\ Str.contains "Test" n = true.
Proof.
  rewrite wmatch_star. destruct (true && Glob.hidden n)%bool; [done|].
  assert (Hloop : forall z n,
    star_loop "Test*" true z n = true ->
    Str.has_char "/" n = false /\ Str.contains "Test" n = true);
    [|apply Hloop].
  clear n. intros z n. revert z. induction n as [|d n IH]; intros z.
  - by destruct z.
  - rewrite star_loop_eq.
    destruct (Glob.wmatch false "Test*" (true && z) (String d n)) eqn:E.
    + intros _. clear IH.
      rewrite wmatch_lit in E by done.
      apply andb_prop in E as [E1 E]. apply Ascii.eqb_eq in E1 as <-.
      destruct n as [|c2 n]; [done|]. rewrite wmatch_lit in E by done.
      apply andb_prop in E as [E2 E]. apply Ascii.eqb_eq in E2 as <-.
      destruct n as [|c3 n]; [done|]. rewrite wmatch_lit in E by done.
      apply andb_prop in E as [E3 E]. apply Ascii.eqb_eq in E3 as <-.
      destruct n as [|c4 n]; [done|]. rewrite wmatch_lit in E by done.
      apply andb_prop in E as [E4 E]. apply Ascii.eqb_eq in E4 as <-.
      rewrite wmatch_star in E.
      destruct (_ && Glob.hidden n)%bool; [done|].
      apply star_loop_nil in E. simpl. rewrite E. split; [done|].
      by destruct n.
    + destruct (Ascii.eqb d "/") eqn:Hd; [done|]. intros H.
      destruct (IH _ H) as [H1 H2]. split.
      * simpl. by rewrite Hd.
      * rewrite contains_cons, H2. by destruct (String.prefix _ _).
Qed.

Lemma basename_cons (c : ascii) (p : string) :
  Path.basename (String c p)
  = if (Ascii.eqb c "/" || Str.has_char "/" p)%bool then Path.basename p
    else String c p.
Proof. reflexivity. Qed.

Lemma basename_no_sep (n : string) :
  Str.has_char "/" n = false -> Path.basename n = n.
Proof.
  destruct n as [|c n]; [done|]. simpl Str.has_char. rewrite basename_cons.
  destruct (Ascii.eqb c "/"); [done|]. by intros ->.
Qed.

Lemma basename_app (x n : string) :
  Str.has_char "/" n = false -> Path.basename (x +:+ "/" +:+ n) = n.
Proof.
  intros Hn. induction x as [|c x IH].
  - rewrite app_nil_l. change ("/" +:+ n) with (String "/" n).
    rewrite basename_cons. simpl. by apply basename_no_sep.
  - rewrite app_cons, basename_cons, has_char_app.
    change ("/" +:+ n) with (String "/" n). simpl Str.has_char at 2.
    destruct (Ascii.eqb c "/"), (Str.has_char "/" x); exact IH.
Qed.

(** A pattern that ends in a directory separator and [*Test*] yields
    paths whose last segment has [Test] in it. *)
Lemma wmatch_Test_basename (q a : string) :
  Glob.wmatch false (q +:+ "/" +:+ "*Test*") true a = true ->
  Str.contains "Test" (Path.basename a) = true.
Proof.
  intros H. apply wmatch_split in H as (x & n & -> & Hn).
  apply wmatch_Test in Hn as [Hs Ht]. by rewrite basename_app.
Qed.

Lemma isabs_inv (p : string) :
  Path.isabs p = true <-> exists p', p = String "/" p'.
Proof.
  split.
  - intros H. apply startswith_drop in H. eexists. exact H.
  - intros [p' ->]. by destruct p'.
Qed.

(** An absolute pattern yields absolute paths. *)
Lemma wmatch_abs (rec : bool) (p a : string) :
  Path.isabs p = true -> Glob.wmatch rec p true a = true -> Path.isabs a = true.
Proof.
  intros [p' ->]%isabs_inv. rewrite wmatch_lit by done.
  destruct a as [|d a]; [done|]. intros [Hd _]%andb_prop.
  apply Ascii.eqb_eq in Hd as <-. apply isabs_inv. by eexists.
Qed.

Lemma elem_of_glob {V} (files : gmap string V) (pattern : string)
  (rec : bool) (a : string) :
  a ∈ Glob.glob files pattern rec
  <-> Glob.wmatch rec pattern true a = true /\ is_Some (files !! a).
Proof.
  unfold Glob.glob. rewrite list_elem_of_In, filter_In, <- list_elem_of_In.
  rewrite list_elem_of_fmap. split.
  - intros [([k v] & -> & Hin) Hm]. apply elem_of_map_to_list in Hin.
    split; [done|]. by exists v.
  - intros [Hm [v Hv]]. split; [|done].
    exists (a, v). split; [done|]. by apply elem_of_map_to_list.
Qed.

End GlobFacts.

Section Discover.

Import StrFacts.

(** The test against the mask is the test of the three execute bits. *)
Lemma exec_mask (m : Z) :
  Z.land m (Z.lor (Z.lor S_IEXEC S_IXGRP) S_IXOTH) = 0 <-> exec_bits m = false.
Proof.
  change (Z.lor (Z.lor S_IEXEC S_IXGRP) S_IXOTH) with 73.
  unfold exec_bits. split.
  - intros H.
    assert (Hb : forall i, Z.testbit 73 i = true -> Z.testbit m i = false).
    { intros i Hi. pose proof (Z.land_spec m 73 i) as Hl.
      rewrite H, Z.bits_0, Hi, andb_true_r in Hl. done. }
    rewrite !Hb; done.
  - intros H. apply orb_false_elim in H as [H H0].
    apply orb_false_elim in H as [H6 H3].
    apply Z.bits_inj'. intros i Hi. rewrite Z.land_spec, Z.bits_0.
    assert (Hcase : i = 0 \/ i = 1 \/ i = 2 \/ i = 3 \/ i = 4 \/ i = 5
                    \/ i = 6 \/ 7 <= i) by lia.
    destruct Hcase as [->|[->|[->|[->|[->|[->|[->|Hbig]]]]]]];
      rewrite ?H0, ?H3, ?H6; try done; try apply andb_false_r.
    rewrite (Z.bits_above_log2 73 i); [apply andb_false_r|lia|].
    change (Z.log2 73) with 6. lia.
Qed.

Lemma join_abs (cp a : string) : Path.isabs a = true -> Path.join cp a = a.
Proof. unfold Path.isabs, Path.join. by intros ->. Qed.

Lemma join_isabs (a b : string) :
  Path.isabs a = true -> Path.isabs (Path.join a b) = true.
Proof.
  intros Ha. unfold Path.join.
  destruct (Str.startswith Path.sep b) eqn:Hb; [done|].
  apply isabs_inv in Ha as [a' ->].
  destruct (_ || _)%bool; apply isabs_inv; rewrite app_cons; by eexists.
Qed.

(** A pattern built by [join] from a directory and a name pattern that is
    not absolute ends with a separator and the name pattern. *)
Lemma join_pattern (cp r : string) :
  Path.isabs cp = true -> Str.startswith Path.sep r = false ->
  exists q, Path.join cp r = q +:+ "/" +:+ r.
Proof.
  intros Hcp Hr. unfold Path.join. rewrite Hr.
  apply isabs_inv in Hcp as [cp' ->]. simpl String.eqb.
  destruct (Str.endswith Path.sep (String "/" cp')) eqn:He; simpl.
  - apply endswith_inv in He as [q ->]. exists q. by rewrite app_assoc.
  - by eexists.
Qed.

Lemma list_remove_first (a : string) (done_ l : list string) :
  a ∉ done_ -> list_remove a (done_ ++ a :: l) = Some (done_ ++ l).
Proof.
  induction done_ as [|y done_ IH]; intros Hin; simpl.
  - by destruct (decide (a = a)).
  - apply not_elem_of_cons in Hin as [Hne Hin].
    destruct (decide (y = a)); [done|]. by rewrite IH.
Qed.

(** One candidate with an absolute path. *)
Lemma check_candidate_abs (cp a : string) (done_ l : list string) (st : state) :
  Path.isabs a = true ->
  Forall (fun x => candidate_ok (fs st) x = true) done_ ->
  check_candidate cp a (done_ ++ a :: l) st
  = (Val (if candidate_ok (fs st) a then done_ ++ a :: l else done_ ++ l),
     traced_by st [candidate_log (fs st) a]).
Proof.
  intros Ha Hdone. unfold check_candidate. rewrite (join_abs cp a Ha).
  unfold bind, isfile, stat_mode, candidate_ok, candidate_log,
    is_regular, is_executable.
  assert (Hrm : candidate_ok (fs st) a = false ->
                list_remove a (done_ ++ a :: l) = Some (done_ ++ l)).
  { intros Hno. apply list_remove_first. intros Hin.
    rewrite Forall_forall in Hdone. rewrite (Hdone _ Hin) in Hno. done. }
  unfold candidate_ok, is_regular, is_executable in Hrm.
  destruct (fs st !! a) as [n|] eqn:Hfs; [|by rewrite Hrm].
  destruct (kind_of n); simpl in *; try by rewrite Hrm.
  rewrite Hfs. simpl.
  destruct (decide (Z.land (st_mode n) (Z.lor (Z.lor S_IEXEC S_IXGRP) S_IXOTH) = 0))
    as [Hm|Hm].
  - apply exec_mask in Hm. rewrite Hm in *. simpl. by rewrite Hrm.
  - destruct (exec_bits (st_mode n)) eqn:Hx; [done|].
    by apply exec_mask in Hx.
Qed.

(** The loop over the candidates is a filter. *)
Lemma check_candidates_filter (cp : string) (copy done_ : list string)
  (st : state) :
  Forall (fun a => Path.isabs a = true) copy ->
  Forall (fun x => candidate_ok (fs st) x = true) done_ ->
  for_fold copy (check_candidate cp) (done_ ++ copy) st
  = (Val (done_ ++ List.filter (candidate_ok (fs st)) copy),
     traced_by st (candidate_log (fs st) <$> copy)).
Proof.
  revert done_ st. induction copy as [|a copy IH]; intros done_ st Habs Hdone.
  - simpl. unfold ret. by rewrite traced_by_nil.
  - apply Forall_cons in Habs as [Ha Habs].
    simpl for_fold. unfold bind. rewrite check_candidate_abs by done.
    simpl List.filter. rewrite fmap_cons.
    change (candidate_log (fs st) a :: (candidate_log (fs st) <$> copy))
      with ([candidate_log (fs st) a] ++ (candidate_log (fs st) <$> copy)).
    rewrite <- traced_by_app.
    destruct (candidate_ok (fs st) a) eqn:Hok.
    + rewrite (cons_middle a done_ copy), List.app_assoc.
      rewrite IH; [by rewrite <- List.app_assoc|done|].
      apply Forall_app. split; [done|]. by repeat constructor.
    + by rewrite IH.
Qed.

End Discover.

(** X14: on the POSIX path and for an absolute build output directory
    whose path is spelled out, without wildcard characters, where the
    path the filter checks is the candidate itself, discovery returns, of the paths the glob found,
    those that are regular files with an execute bit set; each of them
    has [Test] in its name; and it does so without an exception, logging
    one DEBUG or INFO line per path the glob found. *)
Theorem posix_discovery_keeps_executable_test_files
  (host : Host) (path arch : string) (st : state) :
  Str.upper (host_os host) = "LINUX" ->
  Path.isabs path = true ->
  canonical path -> canonical arch ->
  let cp := Path.join path arch in
  let found := Glob.glob (fs st) (Path.join cp "*Test*") false in
  let testList := List.filter (candidate_ok (fs st)) found in
  discover host cp st
  = (Val testList,
     traced_by st (EvGlob (Path.join cp "*Test*") false found
                   :: (candidate_log (fs st) <$> found)))
  /\ forall a, a ∈ testList ->
       is_regular (fs st) a = true
       /\ is_executable (fs st) a = true
       /\ Str.contains "Test" (Path.basename a) = true.
Proof.
  intros Hos Habs _ _ cp found testList.
  assert (Hcp : Path.isabs cp = true) by by apply join_isabs.
  assert (Hpat : Path.isabs (Path.join cp "*Test*") = true) by by apply join_isabs.
  assert (Hfound : Forall (fun a => Path.isabs a = true) found).
  { apply Forall_forall. intros a Ha. apply elem_of_glob in Ha as [Hm _].
    by eapply wmatch_abs. }
  split.
  - unfold discover. destruct (decide (Str.upper (host_os host) = "LINUX")); [|done].
    unfold bind, glob. fold found.
    set (st1 := mkState _ _ _).
    pose proof (check_candidates_filter cp found [] st1 Hfound) as Hloop.
    simpl in Hloop. rewrite Hloop by constructor.
    unfold testList, traced_by. simpl. by rewrite <- List.app_assoc.
  - intros a Ha. unfold testList in Ha.
    apply list_elem_of_In, filter_In in Ha as [Hin Hok].
    apply list_elem_of_In, elem_of_glob in Hin as [Hm _].
    apply andb_prop in Hok as [Hreg Hex]. split; [done|]. split; [done|].
    destruct (join_pattern cp "*Test*" Hcp) as [q Hq]; [done|].
    rewrite Hq in Hm. by eapply wmatch_Test_basename.
Qed.

(** C6: a result document that is not well-formed makes the parse raise
    [ParseError], and nothing catches it: in every run of [do_post_build]
    in which such a document is parsed, the run ends in that exception,
    and the parse is the last thing the run did, so no failure was counted
    or logged for the document. *)
Theorem malformed_result_document_aborts_run
  (host : Host) (st : state) (evs : list event) (file : string) :
  trace (do_post_build host st).2 = trace st ++ evs ->
  EvParse file None ∈ evs ->
  (do_post_build host st).1 = Exc ParseError
  /\ (exists pre, evs = pre ++ [EvParse file None])
  /\ forall test fc st' n,
       fs st' !! file = Some n -> kind_of n <> Directory -> xml_doc n = None ->
       tally_file test file fc st'
       = (Exc ParseError, traced_by st' [EvParse file None]).
Proof.
  intros Htrace Hin.
  destruct (do_post_build_aborts host st) as (evs' & E & Q).
  rewrite E in Htrace. apply app_inv_head in Htrace. subst evs'.
  assert (Hlocal : forall test fc st' n,
    fs st' !! file = Some n -> kind_of n <> Directory -> xml_doc n = None ->
    tally_file test file fc st'
    = (Exc ParseError, traced_by st' [EvParse file None])).
  { intros test fc st' n Hf Hk Hd. unfold tally_file, bind, parse.
    rewrite Hf, Hd. by destruct (kind_of n). }
  destruct Q as [Hnone|(pre & e & tail & -> & Hpre & He & Hr & Htail)].
  - rewrite Forall_forall in Hnone. by destruct (Hnone _ Hin).
  - apply elem_of_app in Hin as [Hin|Hin].
    { rewrite Forall_forall in Hpre. by destruct (Hpre _ Hin). }
    apply elem_of_cons in Hin as [<-|Hin].
    + simpl in Htail. subst tail. split; [done|]. split; [by exists pre|done].
    + destruct e as [| | | | |f [root|]]; simpl in He; try done.
      * destruct Htail as [Hw _]. rewrite Forall_forall in Hw.
        by destruct (Hw _ Hin).
      * simpl in Htail. subst tail. by apply elem_of_nil in Hin.
Qed.

(** C10: a well-formed result document with a [failure] node at the case
    level whose case has no [name] attribute makes the tally raise
    [KeyError], after it logged the name of the test: in every run of
    [do_post_build] in which such a document is parsed, the run ends in
    that exception instead of a failure count, and the last thing it did
    is to log that a test failed. *)
Theorem nameless_failing_case_raises_KeyError
  (host : Host) (st : state) (evs : list event) (file : string) (root : Element) :
  trace (do_post_build host st).2 = trace st ++ evs ->
  EvParse file (Some root) ∈ evs ->
  Exists (fun f => ~ named f) (failure_nodes root) ->
  (do_post_build host st).1 = Exc (KeyError "name")
  /\ (exists pre test,
        evs = pre ++ [EvLog WARNING (Path.basename test +:+ " Test Failed")])
  /\ forall test fc st',
       exists logs,
         tally_root test root fc st'
         = (Exc (KeyError "name"),
            traced_by st'
              (logs ++ [EvLog WARNING (Path.basename test +:+ " Test Failed")])).
Proof.
  intros Htrace Hin Hroot.
  destruct (do_post_build_aborts host st) as (evs' & E & Q).
  rewrite E in Htrace. apply app_inv_head in Htrace. subst evs'.
  assert (Hlocal : forall test fc st',
    exists logs,
      tally_root test root fc st'
      = (Exc (KeyError "name"),
         traced_by st'
           (logs ++ [EvLog WARNING (Path.basename test +:+ " Test Failed")]))).
  { intros test fc st'.
    destruct (first_nameless _ Hroot) as (l1 & f & l2 & El & Hl1 & Hf).
    pose proof (failure_nodes_tag root) as Htags. rewrite El in Htags.
    exists (failure_logs test l1).
    by rewrite tally_root_flat, El, tally_first_nameless. }
  assert (Hfatal : fatal (EvParse file (Some root))) by exact Hroot.
  destruct Q as [Hnone|(pre & e & tail & -> & Hpre & He & Hr & Htail)].
  - rewrite Forall_forall in Hnone. by destruct (Hnone _ Hin).
  - apply elem_of_app in Hin as [Hin|Hin].
    { rewrite Forall_forall in Hpre. by destruct (Hpre _ Hin). }
    apply elem_of_cons in Hin as [<-|Hin].
    + destruct Htail as [_ (logs & test & ->)]. split; [done|]. split; [|done].
      exists (pre ++ EvParse file (Some root) :: logs), test.
      by rewrite <- List.app_assoc.
    + destruct e as [| | | | |f [root'|]]; simpl in He; try done.
      * destruct Htail as [Hw _]. rewrite Forall_forall in Hw.
        by destruct (Hw _ Hin).
      * simpl in Htail. subst tail. by apply elem_of_nil in Hin.
Qed.

(** * Artifact paths *)

Section Artifacts.

Import StrFacts.

Lemma str_app_inv_tail (x y s : string) : x +:+ s = y +:+ s -> x = y.
Proof.
  revert y. induction x as [|c x IH]; intros [|d y] H.
  - done.
  - apply (f_equal String.length) in H. rewrite app_nil_l, app_cons in H.
    simpl in H. rewrite length_app in H. lia.
  - apply (f_equal String.length) in H. rewrite app_nil_l, app_cons in H.
    simpl in H. rewrite length_app in H. lia.
  - rewrite !app_cons in H. injection H as -> H. f_equal. by apply IH.
Qed.

(** Two strings that end with a dot and a name without dots end with the
    same name. *)
Lemma last_dot_segment (x1 x2 a1 a2 : string) :
  Str.has_char "." a1 = false -> Str.has_char "." a2 = false ->
  x1 +:+ "." +:+ a1 = x2 +:+ "." +:+ a2 -> a1 = a2.
Proof.
  intros H1 H2.
  change ("." +:+ a1) with (String "." a1).
  change ("." +:+ a2) with (String "." a2).
  revert x2. induction x1 as [|c x1 IH]; intros [|d x2] H.
  - by injection H.
  - rewrite app_nil_l, app_cons in H. injection H as <- H.
    rewrite H, has_char_app in H1. simpl in H1.
    by rewrite orb_true_r in H1.
  - rewrite app_nil_l, app_cons in H. injection H as -> H.
    rewrite <- H, has_char_app in H2. simpl in H2.
    by rewrite orb_true_r in H2.
  - rewrite !app_cons in H. injection H as _ H. by eapply IH.
Qed.

(** A result file name ends with the architecture. *)
Lemma result_file_shape (arch : string) (tests : list string) (p : string) :
  p ∈ result_files arch tests ->
  exists x, p = (x +:+ "." +:+ arch) +:+ ".result.xml".
Proof.
  unfold result_files. rewrite list_elem_of_bind.
  intros (test & Hp & _). apply elem_of_cons in Hp as [->|Hp].
  - exists (test +:+ ".CMOCKA.%g"). unfold cmocka_xml_file.
    by rewrite !app_assoc.
  - apply list_elem_of_singleton in Hp as ->.
    exists (test +:+ ".GTEST"). unfold gtest_xml_file.
    by rewrite !app_assoc.
Qed.

End Artifacts.

(** C3, as amended: for two distinct architectures whose names have no dot
    in them, no result file derived for the one is a result file derived
    for the other, the architecture being part of the file name; the
    coverage snapshots, aggregates and reports do not depend on the
    architecture: they are the only paths the two have in common. *)
Theorem result_files_of_distinct_architectures_disjoint
  (workspace buildOutputBase arch1 arch2 : string) (tests1 tests2 : list string) :
  arch1 <> arch2 ->
  Str.has_char "." arch1 = false -> Str.has_char "." arch2 = false ->
  (forall p, p ∈ result_files arch1 tests1 -> p ∉ result_files arch2 tests2)
  /\ (forall p,
        p ∈ artifacts workspace buildOutputBase arch1 tests1 ->
        p ∈ artifacts workspace buildOutputBase arch2 tests2 ->
        p ∈ coverage_files workspace buildOutputBase).
Proof.
  intros Hne H1 H2.
  assert (Hdisj : forall p,
    p ∈ result_files arch1 tests1 -> p ∉ result_files arch2 tests2).
  { intros p Hp1 Hp2.
    apply result_file_shape in Hp1 as [x1 E1].
    apply result_file_shape in Hp2 as [x2 E2].
    rewrite E1 in E2. apply str_app_inv_tail in E2.
    by apply last_dot_segment in E2. }
  split; [exact Hdisj|].
  intros p Hp1 Hp2. unfold artifacts in *.
  apply elem_of_app in Hp1 as [Hp1|Hp1]; [|done].
  apply elem_of_app in Hp2 as [Hp2|Hp2]; [|done].
  by destruct (Hdisj p Hp1).
Qed.

(** * The coverage pipelines stop at the first failure *)

Lemma traced_bind {A B} (m : M A) (k : A -> M B)
  (Q1 : list event -> res A -> Prop) (Q2 Q : list event -> res B -> Prop) :
  traced m Q1 -> (forall a, traced (k a) Q2) ->
  (forall evs1 a evs2 r, Q1 evs1 (Val a) -> Q2 evs2 r -> Q (evs1 ++ evs2) r) ->
  (forall evs1 e, Q1 evs1 (Exc e) -> Q evs1 (Exc e)) ->
  traced (bind m k) Q.
Proof.
  intros Hm Hk Hseq Hexc st. unfold bind.
  destruct (Hm st) as (evs1 & E1 & H1).
  destruct (m st) as [[a|e] st1]; simpl in *.
  - destruct (Hk a st1) as (evs2 & E2 & H2).
    exists (evs1 ++ evs2). rewrite E2, E1, app_assoc. split; [done|].
    by eapply Hseq.
  - exists evs1. split; [done|]. by apply Hexc.
Qed.

Lemma traced_emits (P : event -> Prop) {A} (m : M A) :
  emits P m -> traced m (fun evs _ => Forall P evs).
Proof. intros Hm st. apply Hm. Qed.

Lemma fails_last_app (l1 l2 : list event) :
  Forall cmd_ok l1 -> fails_last l2 -> fails_last (l1 ++ l2).
Proof.
  intros H1 (pre & cmd & params & wd & rc & msg & -> & Hrc & Hpre).
  exists (l1 ++ pre), cmd, params, wd, rc, msg.
  rewrite app_assoc. split; [done|]. split; [done|]. by apply Forall_app.
Qed.

Lemma bind_RunCmd (host : Host) (cmd params : string) (wd : option string)
  {B} (k : Z * string -> M B) (st : state) (rc : Z) (out : string)
  (files : gmap string node) :
  spawn host st cmd params wd = (rc, out, files) ->
  bind (RunCmd host cmd params wd) k st
  = k (rc, out) (after_RunCmd st cmd params wd rc files).
Proof. intros E. unfold bind, RunCmd. by rewrite E. Qed.

Lemma bind_log {B} (lvl : level) (msg : string) (k : unit -> M B) (st : state) :
  bind (log lvl msg) k st = k tt (logged st lvl msg).
Proof. reflexivity. Qed.

Lemma not_ne_0 (rc : Z) : ~ rc ≠ 0 -> rc = 0.
Proof. intros H. by destruct (decide (rc = 0)). Qed.

Section FailFast.

Context (host : Host) (good : list event -> Prop).
Hypothesis good_app :
  forall l1 l2, Forall cmd_ok l1 -> good l2 -> good (l1 ++ l2).

Lemma fail_fast_app (l1 l2 : list event) (r : res Z) :
  Forall cmd_ok l1 -> fail_fast good l2 r -> fail_fast good (l1 ++ l2) r.
Proof.
  intros H1. destruct r as [z|e]; simpl.
  - intros [[-> Hg]|[-> Hf]]; [left|right]; split; auto using fails_last_app.
  - intros H2. by apply Forall_app.
Qed.

(** Steps that run no command, or only commands known to succeed, do not
    matter. *)
Lemma fail_fast_after {A} (m : M A) (k : A -> M Z) :
  emits cmd_ok m -> (forall a, traced (k a) (fail_fast good)) ->
  traced (bind m k) (fail_fast good).
Proof.
  intros Hm Hk.
  eapply traced_bind; [by apply traced_emits|exact Hk| |].
  - intros evs1 a evs2 r H1 H2. by apply fail_fast_app.
  - intros evs1 e H1. exact H1.
Qed.

(** A stage: a command, and the return of 1 when it fails. *)
Lemma fail_fast_stage (cmd params : string) (wd : option string)
  (msg : string) (k : M Z) :
  traced k (fail_fast good) ->
  traced (bind (RunCmd host cmd params wd)
               (fun r => if decide (r.1 ≠ 0)
                         then bind (log ERROR msg) (fun _ => ret 1)
                         else k))
         (fail_fast good).
Proof.
  intros Hk st.
  destruct (spawn host st cmd params wd) as [[rc out] files] eqn:E.
  rewrite (bind_RunCmd _ _ _ _ _ _ _ _ _ E). simpl.
  destruct (decide (rc ≠ 0)) as [Hrc|Hrc%not_ne_0].
  - rewrite bind_log. exists [EvRunCmd cmd params wd rc; EvLog ERROR msg].
    split; [simpl; by rewrite <- app_assoc|]. right. split; [done|].
    by exists [], cmd, params, wd, rc, msg.
  - destruct (Hk (after_RunCmd st cmd params wd rc files)) as (evs & E' & Hff).
    exists (EvRunCmd cmd params wd rc :: evs). rewrite E'. simpl.
    split; [by rewrite <- app_assoc|].
    apply (fail_fast_app [_]); [|done]. by repeat constructor.
Qed.

Lemma fail_fast_raise (e : exn) : traced (raise e) (fail_fast good).
Proof. intros st. exists []. rewrite app_nil_r. split; [done|]. constructor. Qed.

(** A loop of stages, and what follows it. *)
Lemma fail_fast_loop_then {S} (m : M (ctl S Z)) (K : ctl S Z -> M Z) :
  traced m fail_fast_loop ->
  (forall z, K (Return z) = ret z) ->
  (forall s, traced (K (Continue s)) (fail_fast good)) ->
  traced (bind m K) (fail_fast good).
Proof.
  intros Hm Hret Hk st. unfold bind.
  destruct (Hm st) as (evs1 & E1 & H1).
  destruct (m st) as [[[s|z]|e] st1]; simpl in *.
  - destruct (Hk s st1) as (evs2 & E2 & H2).
    exists (evs1 ++ evs2). rewrite E2, E1, app_assoc. split; [done|].
    by apply fail_fast_app.
  - rewrite Hret. exists evs1. split; [done|]. destruct H1 as [-> Hf].
    right. by split.
  - by exists evs1.
Qed.

End FailFast.

Lemma fail_fast_loop_app {S} (l1 l2 : list event) (r : res (ctl S Z)) :
  Forall cmd_ok l1 -> fail_fast_loop l2 r -> fail_fast_loop (l1 ++ l2) r.
Proof.
  intros H1. destruct r as [[s|z]|e]; simpl.
  - intros H2. by apply Forall_app.
  - intros [-> Hf]. split; [done|]. by apply fails_last_app.
  - intros H2. by apply Forall_app.
Qed.

(** A loop of stages. *)
Lemma fail_fast_for_loop {A S} (l : list A) (body : A -> S -> M (ctl S Z)) (s : S) :
  (forall x s, traced (body x s) fail_fast_loop) ->
  traced (for_loop l body s) fail_fast_loop.
Proof.
  intros Hb. revert s. induction l as [|x l IH]; intros s st.
  - exists []. rewrite app_nil_r. split; [done|]. constructor.
  - simpl for_loop. unfold bind.
    destruct (Hb x s st) as (evs1 & E1 & H1).
    destruct (body x s st) as [[[s'|z]|e] st1]; simpl in *.
    + destruct (IH s' st1) as (evs2 & E2 & H2).
      exists (evs1 ++ evs2). rewrite E2, E1, app_assoc. split; [done|].
      by apply fail_fast_loop_app.
    + by exists evs1.
    + by exists evs1.
Qed.

Section Pipelines.

Context (host : Host).

(** The merge of the MSVC variant is one command. *)
Lemma merge_coverage_one_command (workspaceBuild snapshot total : string)
  (st : state) :
  exists params rc out files,
    merge_coverage host workspaceBuild snapshot total st
    = (Val (rc, out), after_RunCmd st "OpenCppCoverage" params None rc files).
Proof.
  unfold merge_coverage, bind, isfile, RunCmd.
  match goal with |- context [spawn host st ?c ?p ?w] =>
    destruct (spawn host st c p w) as [[rc out] files] eqn:E;
    exists p, rc, out, files end.
  reflexivity.
Qed.

Lemma collect_coverage_fail_fast (bob ws wb testFile : string) (s : option string) :
  traced (collect_coverage host bob ws wb testFile s) fail_fast_loop.
Proof.
  intros st. unfold collect_coverage.
  match goal with |- context [RunCmd host ?c ?p ?w] =>
    destruct (spawn host st c p w) as [[rc out] files] eqn:E end.
  rewrite (bind_RunCmd _ _ _ _ _ _ _ _ _ E). simpl.
  destruct (decide (rc ≠ 0)) as [Hrc|Hrc%not_ne_0].
  - rewrite bind_log. eexists [_; _].
    split; [simpl; by rewrite <- app_assoc|]. split; [done|].
    by eexists [], _, _, _, rc, _.
  - subst rc. unfold bind.
    match goal with |- context [merge_coverage host ?a ?b ?c ?s] =>
      destruct (merge_coverage_one_command a b c s)
        as (p2 & rc2 & out2 & files2 & ->) end. simpl.
    destruct (decide (rc2 ≠ 0)) as [Hrc2|Hrc2%not_ne_0].
    + eexists [_; _; _]. unfold log, emit, ret. simpl.
      split; [by rewrite <- !app_assoc|]. split; [done|].
      eexists [_], _, _, _, rc2, _. split; [done|]. split; [done|].
      by repeat constructor.
    + subst rc2. eexists [_; _]. unfold ret. simpl.
      split; [by rewrite <- !app_assoc|]. by repeat constructor.
Qed.

Lemma fold_coverage_fail_fast (wb total testCoverage : string) (s : unit) :
  traced (fold_coverage host wb total testCoverage s) fail_fast_loop.
Proof.
  intros st. unfold fold_coverage, bind.
  destruct (merge_coverage_one_command wb testCoverage total st)
    as (p2 & rc2 & out2 & files2 & ->). simpl.
  destruct (decide (rc2 ≠ 0)) as [Hrc2|Hrc2%not_ne_0].
  - eexists [_; _]. unfold log, emit, ret. simpl.
    split; [by rewrite <- !app_assoc|]. split; [done|].
    by eexists [], _, _, _, rc2, _.
  - subst rc2. eexists [_]. unfold ret. simpl. split; [done|].
    by repeat constructor.
Qed.

End Pipelines.

Lemma ok_but_last_app (ws : string) (l1 l2 : list event) :
  Forall cmd_ok l1 -> ok_but_last ws l2 -> ok_but_last ws (l1 ++ l2).
Proof.
  intros H1 (pre & rc & -> & Hpre).
  exists (l1 ++ pre), rc.
  rewrite app_assoc. split; [done|]. by apply Forall_app.
Qed.

Section Variants.

Context (host : Host).

(** The MSVC variant is fail-fast: it returns 0 only when every command
    succeeded, and 1 right after the first command that failed. *)
Lemma gen_code_coverage_msvc_fail_fast :
  traced (gen_code_coverage_msvc host) (fail_fast (Forall cmd_ok)).
Proof.
  assert (Happ : forall l1 l2 : list event,
            Forall cmd_ok l1 -> Forall cmd_ok l2 -> Forall cmd_ok (l1 ++ l2))
    by (intros; by apply Forall_app).
  unfold gen_code_coverage_msvc.
  apply fail_fast_after; [done|emits_step; exact I|intros _].
  destruct (GetValue host "BUILD_OUTPUT_BASE") as [bob|];
    [|by apply fail_fast_raise].
  apply fail_fast_after; [done|emits_step; exact I|intros testList].
  apply fail_fast_after; [done|repeat emits_step|intros ws].
  apply fail_fast_loop_then; [done| | |].
  - apply fail_fast_for_loop. intros. apply collect_coverage_fail_fast.
  - done.
  - intros [total|]; [|by apply fail_fast_raise].
    apply fail_fast_stage; [done|].
    apply fail_fast_after; [done|emits_step; exact I|intros covs].
    apply fail_fast_loop_then; [done| | |].
    + apply fail_fast_for_loop. intros. apply fold_coverage_fail_fast.
    + done.
    + intros _. apply fail_fast_stage; [done|].
      intros st. exists []. rewrite app_nil_r. split; [done|].
      left. split; [done|constructor].
Qed.

(** The stages of the lcov variant are fail-fast, but for the last one,
    whose exit code is not looked at. *)
Lemma lcov_stages_fail_fast (bob ws : string) (v : Z) :
  traced (lcov_stages host bob ws v) (fail_fast (ok_but_last ws)).
Proof.
  pose proof (ok_but_last_app ws) as Happ.
  unfold lcov_stages.
  do 5 (apply fail_fast_stage; [done|]).
  apply fail_fast_after; [done|emits_step; exact I|intros covs].
  apply fail_fast_stage; [done|].
  apply fail_fast_after; [done|emits_step|intros b].
  apply fail_fast_after; [done|repeat emits_step; exact I|intros _].
  intros st.
  match goal with |- context [RunCmd host ?c ?p ?w] =>
    destruct (spawn host st c p w) as [[rc out] files] eqn:E end.
  rewrite (bind_RunCmd _ _ _ _ _ _ _ _ _ E). eexists [_].
  split; [done|]. left. split; [done|]. by exists [], rc.
Qed.

End Variants.

(** The whole lcov variant. *)
Lemma gen_code_coverage_gcc_outcome (host : Host) :
  traced (gen_code_coverage_gcc host)
         (lcov_outcome (Str.fmt (GetValue host "WORKSPACE"))).
Proof.
  intros st. unfold gen_code_coverage_gcc. rewrite bind_log.
  set (st0 := logged st INFO "Generating UnitTest code coverage").
  unfold get_lcov_version. rewrite bind_assoc.
  destruct (spawn host st0 "lcov" "--version" None) as [[rc out] files] eqn:E.
  rewrite (bind_RunCmd _ _ _ _ _ _ _ _ _ E).
  set (st1 := after_RunCmd st0 "lcov" "--version" None rc files).
  assert (Hbad : forall rc',
    rc' = rc ->
    exists evs,
      trace (bind (log ERROR "UnitTest Coverage: Failed to determine lcov version")
                  (fun _ => ret 1) st1).2 = trace st ++ evs
      /\ ((rc' <> 0 -> fails_last evs)
          /\ (rc' = 0 ->
              Forall cmd_ok evs
              /\ last evs
                 = Some (EvLog ERROR
                           "UnitTest Coverage: Failed to determine lcov version")))).
  { intros rc' ->. eexists [_; _; _]. split; [simpl; by rewrite <- !app_assoc|].
    split.
    - intros Hrc. eexists [_], _, _, _, rc, _. split; [done|]. split; [done|].
      by repeat constructor.
    - intros ->. split; [by repeat constructor|done]. }
  simpl. destruct (decide (rc ≠ 0)) as [Hrc|Hrc%not_ne_0].
  - rewrite bind_ret_l. destruct (Hbad rc eq_refl) as (evs & Et & Hf & _).
    exists evs. split; [done|]. right. left. split; [done|]. by apply Hf.
  - subst rc. destruct (search_version out) as [[major minor]|].
    + rewrite bind_ret_l.
      destruct (Str.int major) as [|v|v] eqn:Ev.
      * destruct (Hbad 0 eq_refl) as (evs & Et & _ & Hz).
        exists evs. split; [done|]. right. right. split; [done|]. by apply Hz.
      * rewrite bind_log.
        match goal with |- context [lcov_stages host ?b ?w ?v ?s] =>
          destruct (lcov_stages_fail_fast host b w v s) as (evs & Et & Hff) end.
        eexists (_ :: _ :: _ :: evs). rewrite Et. simpl.
        split; [by rewrite <- !app_assoc|].
        destruct (lcov_stages _ _ _ _ _).1 as [z|e]; simpl in *.
        -- destruct Hff as [[-> Hg]|[-> Hf]].
           ++ left. split; [done|].
              apply (ok_but_last_app _ [_; _; _]); [by repeat constructor|done].
           ++ right. left. split; [done|].
              apply (fails_last_app [_; _; _]); [by repeat constructor|done].
        -- by repeat constructor.
      * rewrite bind_log.
        match goal with |- context [lcov_stages host ?b ?w ?v ?s] =>
          destruct (lcov_stages_fail_fast host b w v s) as (evs & Et & Hff) end.
        eexists (_ :: _ :: _ :: evs). rewrite Et. simpl.
        split; [by rewrite <- !app_assoc|].
        destruct (lcov_stages _ _ _ _ _).1 as [z|e]; simpl in *.
        -- destruct Hff as [[-> Hg]|[-> Hf]].
           ++ left. split; [done|].
              apply (ok_but_last_app _ [_; _; _]); [by repeat constructor|done].
           ++ right. left. split; [done|].
              apply (fails_last_app [_; _; _]); [by repeat constructor|done].
        -- by repeat constructor.
    + eexists [_; _]. split; [simpl; by rewrite <- !app_assoc|].
      simpl. by repeat constructor.
Qed.

(** * An architecture without tests ends the run *)

Section ShortCircuit.

Import StrFacts.

Context (host : Host).

(** The two lines of the tally are not the warning. *)
Lemma test_failed_not_warning (test : string) :
  EvLog WARNING (Path.basename test +:+ " Test Failed") <> no_tests_warning.
Proof.
  intros [= H]. apply (f_equal (Str.endswith " Test Failed")) in H.
  rewrite endswith_app in H. vm_compute in H. discriminate.
Qed.

Lemma failure_line_not_warning (name text : string) :
  EvLog WARNING ("  " +:+ name +:+ " - " +:+ text) <> no_tests_warning.
Proof.
  (* the line starts with a blank, the warning with a letter *)
  intros [= H].
Qed.

Ltac not_warning :=
  first [ exact I
        | discriminate
        | apply test_failed_not_warning
        | apply failure_line_not_warning
        | (split; [exact I|discriminate]) ].

Lemma gen_code_coverage_gcc_not_warning :
  emits (fun e => e <> no_tests_warning) (gen_code_coverage_gcc host).
Proof.
  unfold gen_code_coverage_gcc, get_lcov_version, lcov_stages.
  repeat emits_step; not_warning.
Qed.

Lemma gen_code_coverage_msvc_not_warning :
  emits (fun e => e <> no_tests_warning) (gen_code_coverage_msvc host).
Proof.
  unfold gen_code_coverage_msvc, collect_coverage, fold_coverage, merge_coverage.
  repeat emits_step; not_warning.
Qed.

Lemma run_coverage_not_warning (fc : Z) :
  emits (fun e => e <> no_tests_warning) (run_coverage host fc).
Proof.
  unfold run_coverage.
  repeat first
    [ apply gen_code_coverage_gcc_not_warning
    | apply gen_code_coverage_msvc_not_warning
    | emits_step ]; not_warning.
Qed.

Lemma run_test_not_warning (cp arch test : string) (fc : Z) :
  emits (fun e => e <> no_tests_warning) (run_test host cp arch test fc).
Proof.
  unfold run_test, tally_file, tally_root, tally_suite, tally_case, tally_result.
  repeat emits_step; not_warning.
Qed.

Lemma discover_calm (cp : string) : emits calm (discover host cp).
Proof.
  unfold discover, check_candidate. repeat emits_step; not_warning.
Qed.

Lemma after_header_calm {A S} (m : M A) (k : A -> M (ctl S Z)) :
  emits calm m -> (forall a, traced (k a) after_header) ->
  traced (bind m k) after_header.
Proof.
  intros Hm Hk.
  eapply traced_bind; [by apply traced_emits|exact Hk| |].
  - intros evs1 a evs2 [[s|z]|e] H1 H2; simpl in *.
    + apply Forall_app. split; [|done].
      eapply Forall_impl; [exact H1|]. by intros ? [_ He].
    + destruct H2 as (-> & mid & -> & Hmid). split; [done|].
      exists (evs1 ++ mid). rewrite List.app_assoc. split; [done|].
      apply Forall_app. split; [|done].
      eapply Forall_impl; [exact H1|]. by intros ? [He _].
    + apply Forall_app. split; [|done].
      eapply Forall_impl; [exact H1|]. by intros ? [_ He].
  - intros evs1 e H1. simpl.
    eapply Forall_impl; [exact H1|]. by intros ? [_ He].
Qed.

(** An architecture with tests does not leave the function. *)
Lemma tests_and_coverage_go_on (cp arch : string) (testList : list string)
  (fc : Z) :
  traced (bind (for_fold testList (run_test host cp arch) fc)
               (fun fc => bind (run_coverage host fc)
                               (fun fc => ret (Continue (R := Z) fc))))
         after_header.
Proof.
  intros st.
  assert (Hev : emits (fun e => e <> no_tests_warning)
                  (bind (for_fold testList (run_test host cp arch) fc)
                        (fun fc => bind (run_coverage host fc)
                                        (fun fc => ret (Continue (R := Z) fc))))).
  { apply emits_bind; [apply emits_for_fold; intros; apply run_test_not_warning|].
    intros fc'. apply emits_bind; [apply run_coverage_not_warning|].
    intros. apply emits_ret. }
  destruct (Hev st) as (evs & E & F). exists evs. split; [exact E|].
  clear E Hev. unfold bind.
  destruct (for_fold testList (run_test host cp arch) fc st) as [[a|e] st1];
    [|done].
  by destruct (run_coverage host a st1) as [[b|e] st2].
Qed.

Lemma arch_body_short_circuit (path : option string) (arch : string) (fc : Z) :
  traced (arch_body host path arch fc) short_circuit.
Proof.
  assert (Hrest : forall k : unit -> M (ctl Z Z),
    traced (k tt) after_header ->
    traced (bind (log SUBSECTION ("Testing for architecture: " +:+ arch)) k)
           short_circuit).
  { intros k Hk st. rewrite bind_log.
    destruct (Hk (logged st SUBSECTION ("Testing for architecture: " +:+ arch)))
      as (evs & E & H).
    exists (EvLog SUBSECTION ("Testing for architecture: " +:+ arch) :: evs).
    rewrite E. simpl. split; [by rewrite <- List.app_assoc|].
    destruct (k tt _).1 as [[s|z]|e]; simpl in *.
    - by constructor.
    - destruct H as (-> & mid & -> & Hmid). split; [done|].
      by exists [], arch, mid.
    - by constructor. }
  unfold arch_body. apply Hrest.
  apply after_header_calm; [repeat emits_step|intros cp].
  apply after_header_calm; [repeat emits_step; by split|intros olds].
  apply after_header_calm; [repeat emits_step; by split|intros _].
  apply after_header_calm; [apply discover_calm|intros testList].
  destruct testList as [|test testList].
  - intros st. rewrite bind_log. exists [no_tests_warning].
    split; [done|]. split; [done|]. by exists [].
  - apply tests_and_coverage_go_on.
Qed.

Lemma short_circuit_app {S} (l1 l2 : list event) (r : res (ctl S Z)) :
  Forall (fun e => e <> no_tests_warning) l1 ->
  short_circuit l2 r -> short_circuit (l1 ++ l2) r.
Proof.
  intros H1. destruct r as [[s|z]|e]; simpl.
  - intros H2. by apply Forall_app.
  - intros (-> & pre & arch & mid & -> & Hmid). split; [done|].
    exists (l1 ++ pre), arch, mid. by rewrite <- List.app_assoc.
  - intros H2. by apply Forall_app.
Qed.

Lemma for_loop_short_circuit (archs : list string)
  (body : string -> Z -> M (ctl Z Z)) (fc : Z) :
  (forall arch fc, traced (body arch fc) short_circuit) ->
  traced (for_loop archs body fc) short_circuit.
Proof.
  intros Hb. revert fc. induction archs as [|arch archs IH]; intros fc st.
  - exists []. rewrite List.app_nil_r. split; [done|]. constructor.
  - simpl for_loop. unfold bind.
    destruct (Hb arch fc st) as (evs1 & E1 & H1).
    destruct (body arch fc st) as [[[fc'|z]|e] st1]; simpl in *.
    + destruct (IH fc' st1) as (evs2 & E2 & H2).
      exists (evs1 ++ evs2). rewrite E2, E1, List.app_assoc. split; [done|].
      by apply short_circuit_app.
    + by exists evs1.
    + by exists evs1.
Qed.

Lemma do_post_build_short_circuit :
  traced (do_post_build host) returns_zero_at_empty.
Proof.
  unfold do_post_build.
  destruct (decide (GetValue host "CI_BUILD_TYPE" ≠ Some "host_unit_test")).
  { intros st. exists []. rewrite List.app_nil_r. split; [done|]. left. constructor. }
  assert (Hpre : forall {A} (m : M A) (k : A -> M Z),
    emits (fun e => e <> no_tests_warning) m ->
    (forall a, traced (k a) returns_zero_at_empty) ->
    traced (bind m k) returns_zero_at_empty).
  { intros A m k Hm Hk.
    eapply traced_bind; [by apply traced_emits|exact Hk| |].
    - intros evs1 a evs2 r H1 [H2|(-> & pre & arch & mid & -> & Hmid)].
      + left. by apply Forall_app.
      + right. split; [done|]. exists (evs1 ++ pre), arch, mid.
        by rewrite <- List.app_assoc.
    - intros evs1 e H1. by left. }
  apply Hpre; [emits_step; discriminate|intros _].
  apply Hpre; [emits_step; discriminate|intros _].
  apply Hpre; [emits_step; discriminate|intros _].
  apply Hpre; [emits_step; discriminate|intros _].
  apply Hpre; [repeat emits_step|intros archs].
  intros st. unfold bind.
  destruct (for_loop_short_circuit archs
              (arch_body host (GetValue host "BUILD_OUTPUT_BASE")) 0
              (fun arch fc => arch_body_short_circuit _ arch fc) st)
    as (evs & E & H).
  exists evs.
  destruct (for_loop archs _ 0 st) as [[[fc|z]|e] st1]; simpl in *.
  - split; [done|]. by left.
  - split; [done|]. destruct H as [-> H]. by right.
  - split; [done|]. by left.
Qed.

End ShortCircuit.

(** X2: whenever an architecture has no test, which the warning in the
    trace tells, [do_post_build] returns 0, whatever it counted before;
    the empty architecture itself ran no command, and the warning is the
    last thing the run did. *)
Theorem empty_architecture_returns_zero
  (host : Host) (st : state) (evs : list event) :
  trace (do_post_build host st).2 = trace st ++ evs ->
  no_tests_warning ∈ evs ->
  (do_post_build host st).1 = Val 0 /\ ends_at_empty_architecture evs.
Proof.
  intros Htrace Hin.
  destruct (do_post_build_short_circuit host st) as (evs' & E & H).
  rewrite E in Htrace. apply app_inv_head in Htrace. subst evs'.
  destruct H as [Hnone|H]; [|done].
  rewrite Forall_forall in Hnone. by destruct (Hnone _ Hin).
Qed.

(** A failed command among the events of a fail-fast run is the one the
    run stopped at. *)
Lemma failed_command_in_fails_last (evs : list event) (cmd params : string)
  (wd : option string) (rc : Z) :
  fails_last evs -> EvRunCmd cmd params wd rc ∈ evs -> rc <> 0 ->
  exists pre msg,
    evs = pre ++ [EvRunCmd cmd params wd rc; EvLog ERROR msg]
    /\ Forall cmd_ok pre.
Proof.
  intros (pre & c & p & w & rc' & msg & -> & Hrc' & Hpre) Hin Hrc.
  apply elem_of_app in Hin as [Hin|Hin].
  { rewrite Forall_forall in Hpre. by destruct (Hpre _ Hin). }
  apply elem_of_cons in Hin as [[= -> -> -> ->]|Hin]; [by exists pre, msg|].
  by apply list_elem_of_singleton in Hin.
Qed.

Lemma failed_command_not_ok (evs : list event) (cmd params : string)
  (wd : option string) (rc : Z) :
  Forall cmd_ok evs -> EvRunCmd cmd params wd rc ∈ evs -> rc <> 0 -> False.
Proof. intros H Hin Hrc. rewrite Forall_forall in H. by destruct (H _ Hin). Qed.

(** X3: in the MSVC variant, a command that exits with a code other than
    0 is the last command of the run, the line that reports it follows,
    and the function returns 1. *)
Theorem msvc_pipeline_stops_at_failed_command
  (host : Host) (st : state) (evs : list event) (cmd params : string)
  (wd : option string) (rc : Z) :
  trace (gen_code_coverage_msvc host st).2 = trace st ++ evs ->
  EvRunCmd cmd params wd rc ∈ evs -> rc <> 0 ->
  (gen_code_coverage_msvc host st).1 = Val 1
  /\ exists pre msg,
       evs = pre ++ [EvRunCmd cmd params wd rc; EvLog ERROR msg]
       /\ Forall cmd_ok pre.
Proof.
  intros Htrace Hin Hrc.
  destruct (gen_code_coverage_msvc_fail_fast host st) as (evs' & E & H).
  rewrite E in Htrace. apply app_inv_head in Htrace. subst evs'.
  destruct (gen_code_coverage_msvc host st).1 as [z|e]; simpl in H.
  - destruct H as [[-> H]|[-> H]].
    + by destruct (failed_command_not_ok _ _ _ _ _ H Hin Hrc).
    + split; [done|]. by eapply failed_command_in_fails_last.
  - by destruct (failed_command_not_ok _ _ _ _ _ H Hin Hrc).
Qed.

(** X4: in the lcov variant, a command that exits with a code other than
    0 is the last command of the run, and every command before it exited
    with 0.  The function then returns 1, with the line that reports the
    failure as its last event; the one exception is the last stage of the
    pipeline, the [lcov_cobertura] call that writes the report of the
    workspace from [all-coverage.info], whose exit code is not looked at:
    after it the function returns 0.  So a failure of the version check
    or of any stage before the last one returns 1. *)
Theorem lcov_pipeline_stops_at_failed_command
  (host : Host) (st : state) (evs : list event) (cmd params : string)
  (wd : option string) (rc : Z) :
  trace (gen_code_coverage_gcc host st).2 = trace st ++ evs ->
  EvRunCmd cmd params wd rc ∈ evs -> rc <> 0 ->
  ((gen_code_coverage_gcc host st).1 = Val 1
   /\ exists pre msg,
        evs = pre ++ [EvRunCmd cmd params wd rc; EvLog ERROR msg]
        /\ Forall cmd_ok pre)
  \/ ((gen_code_coverage_gcc host st).1 = Val 0
      /\ cmd = "lcov_cobertura"
      /\ params = workspace_report_params (Str.fmt (GetValue host "WORKSPACE"))
      /\ wd = None
      /\ exists pre, evs = pre ++ [EvRunCmd cmd params wd rc]
                     /\ Forall cmd_ok pre).
Proof.
  intros Htrace Hin Hrc.
  destruct (gen_code_coverage_gcc_outcome host st) as (evs' & E & H).
  rewrite E in Htrace. apply app_inv_head in Htrace. subst evs'.
  destruct (gen_code_coverage_gcc host st).1 as [z|e]; simpl in H.
  - destruct H as [[-> H]|[[-> H]|(-> & H & _)]].
    + right. split; [done|].
      destruct H as (pre & rc' & -> & Hpre).
      apply elem_of_app in Hin as [Hin|Hin].
      { by destruct (failed_command_not_ok _ _ _ _ _ Hpre Hin Hrc). }
      apply list_elem_of_singleton in Hin as [= -> -> -> ->].
      repeat split; try done. by exists pre.
    + left. split; [done|]. by eapply failed_command_in_fails_last.
    + by destruct (failed_command_not_ok _ _ _ _ _ H Hin Hrc).
  - by destruct (failed_command_not_ok _ _ _ _ _ H Hin Hrc).
Qed.

(** * The count returned is the count reported *)

Lemma reported_app (l1 l2 : list event) :
  reported (l1 ++ l2) = reported l1 + reported l2.
Proof.
  induction l1 as [|e l1 IH]; simpl; [done|]. rewrite IH. lia.
Qed.

Lemma reported_silent (l : list event) : Forall silent l -> reported l = 0.
Proof.
  induction 1 as [|e l He _ IH]; simpl; [done|]. unfold silent in He. lia.
Qed.

Lemma reported_nonneg (l : list event) : 0 <= reported l.
Proof.
  induction l as [|e l IH]; simpl; [done|].
  assert (0 <= weight e) by (destruct e as [[] ?| | | | |]; simpl; lia). lia.
Qed.

(** Two facts about the same run. *)
Lemma traced_and {A} (m : M A) (Q1 Q2 : list event -> res A -> Prop) :
  traced m Q1 -> traced m Q2 -> traced m (fun evs r => Q1 evs r /\ Q2 evs r).
Proof.
  intros H1 H2 st.
  destruct (H1 st) as (evs1 & E1 & HQ1). destruct (H2 st) as (evs2 & E2 & HQ2).
  rewrite E1 in E2. apply app_inv_head in E2. subst evs2. by exists evs1.
Qed.

Section Counting.

Context (host : Host).

Lemma counted_after {A} (fc : Z) (m : M A) (k : A -> M Z) :
  emits silent m -> (forall a, traced (k a) (counted fc)) ->
  traced (bind m k) (counted fc).
Proof.
  intros Hm Hk.
  eapply traced_bind; [by apply traced_emits|exact Hk| |].
  - intros evs1 a evs2 [fc'|e] H1 H2; simpl in *; [|done].
    rewrite reported_app, (reported_silent _ H1). lia.
  - done.
Qed.

Lemma counted_trans (fc fc' : Z) (evs1 evs2 : list event) (r : res Z) :
  2 * fc' = 2 * fc + reported evs1 -> counted fc' evs2 r ->
  counted fc (evs1 ++ evs2) r.
Proof.
  intros H1. destruct r as [fc''|e]; simpl; [|done].
  rewrite reported_app. lia.
Qed.

(** A step that carries the count on, and what follows it. *)
Lemma counted_bind (fc : Z) (m : M Z) (k : Z -> M Z) :
  traced m (counted fc) -> (forall fc', traced (k fc') (counted fc')) ->
  traced (bind m k) (counted fc).
Proof.
  intros Hm Hk st. unfold bind.
  destruct (Hm st) as (evs1 & E1 & H1).
  destruct (m st) as [[fc'|e] st1]; simpl in *.
  - destruct (Hk fc' st1) as (evs2 & E2 & H2).
    exists (evs1 ++ evs2). rewrite E2, E1, app_assoc. split; [done|].
    by eapply counted_trans.
  - by exists evs1.
Qed.

Lemma counted_ret (fc : Z) : traced (ret fc) (counted fc).
Proof. intros st. exists []. rewrite app_nil_r. split; [done|]. simpl. lia. Qed.

Lemma counted_for_fold {A} (l : list A) (body : A -> Z -> M Z) (fc : Z) :
  (forall x fc, traced (body x fc) (counted fc)) ->
  traced (for_fold l body fc) (counted fc).
Proof.
  intros Hb. revert fc. induction l as [|x l IH]; intros fc; simpl.
  - apply counted_ret.
  - apply counted_bind; [apply Hb|intros fc'; apply IH].
Qed.

(** *** The tally *)

Lemma tally_result_counted (test : string) (case result : Element) (fc : Z) :
  traced (tally_result test case result fc) (counted fc).
Proof.
  intros st. unfold tally_result.
  destruct (decide (tag result = "failure")); [|apply counted_ret].
  rewrite bind_log. unfold bind.
  destruct (attrib case !! "name") as [name|]; simpl.
  - eexists [_; _]. split; [by rewrite <- app_assoc|]. simpl. lia.
  - by eexists [_].
Qed.

Lemma tally_file_counted (test file : string) (fc : Z) :
  traced (tally_file test file fc) (counted fc).
Proof.
  unfold tally_file. apply counted_after; [by emits_step|intros root].
  unfold tally_root. apply counted_for_fold. intros suite fc1.
  unfold tally_suite. apply counted_for_fold. intros case fc2.
  unfold tally_case. apply counted_for_fold. intros result fc3.
  apply tally_result_counted.
Qed.

(** *** One test *)

Lemma run_test_counted (cp arch test : string) (fc : Z) :
  traced (run_test host cp arch test fc) (counted fc).
Proof.
  unfold run_test.
  apply counted_after; [by emits_step|intros _].
  apply counted_after; [by emits_step|intros _].
  apply counted_after; [by emits_step|intros r].
  destruct (decide (r.1 ≠ 0)).
  - intros st. rewrite bind_log. eexists [_]. split; [done|]. simpl. lia.
  - apply counted_after; [by emits_step|intros _].
    apply counted_after; [by emits_step|intros files].
    apply counted_for_fold. intros file fc'. apply tally_file_counted.
Qed.

End Counting.

(** *** The coverage pipelines *)

Section CoverageCounting.

Context (host : Host).

Lemma coverage_counted_app (l1 l2 : list event) (r : res Z) :
  Forall silent l1 -> coverage_counted l2 r -> coverage_counted (l1 ++ l2) r.
Proof.
  intros H1. destruct r as [z|e]; simpl; [|done].
  rewrite reported_app, (reported_silent _ H1). by intros [? ?].
Qed.

Lemma coverage_counted_after {A} (m : M A) (k : A -> M Z) :
  emits silent m -> (forall a, traced (k a) coverage_counted) ->
  traced (bind m k) coverage_counted.
Proof.
  intros Hm Hk.
  eapply traced_bind; [by apply traced_emits|exact Hk| |].
  - intros evs1 a evs2 r H1 H2. by apply coverage_counted_app.
  - done.
Qed.

Lemma coverage_counted_raise (e : exn) : traced (raise e) coverage_counted.
Proof. intros st. exists []. by rewrite app_nil_r. Qed.

Lemma coverage_counted_ret_0 : traced (ret 0) coverage_counted.
Proof.
  intros st. exists []. rewrite app_nil_r. split; [done|]. simpl. auto.
Qed.

(** A stage: a command, and the return of 1 with one ERROR line when it
    fails. *)
Lemma coverage_counted_stage (cmd params : string) (wd : option string)
  (msg : string) (k : M Z) :
  traced k coverage_counted ->
  traced (bind (RunCmd host cmd params wd)
               (fun r => if decide (r.1 ≠ 0)
                         then bind (log ERROR msg) (fun _ => ret 1)
                         else k))
         coverage_counted.
Proof.
  intros Hk st.
  destruct (spawn host st cmd params wd) as [[rc out] files] eqn:E.
  rewrite (bind_RunCmd _ _ _ _ _ _ _ _ _ E). simpl.
  destruct (decide (rc ≠ 0)) as [Hrc|Hrc].
  - rewrite bind_log. eexists [_; _].
    split; [simpl; by rewrite <- app_assoc|]. simpl. auto.
  - destruct (Hk (after_RunCmd st cmd params wd rc files)) as (evs & E' & H).
    exists (EvRunCmd cmd params wd rc :: evs). rewrite E'. simpl.
    split; [by rewrite <- app_assoc|].
    apply (coverage_counted_app [_]); [|done]. by repeat constructor.
Qed.

Lemma coverage_counted_for_loop {A S} (l : list A)
  (body : A -> S -> M (ctl S Z)) (s : S) :
  (forall x s, traced (body x s) coverage_counted_loop) ->
  traced (for_loop l body s) coverage_counted_loop.
Proof.
  intros Hb. revert s. induction l as [|x l IH]; intros s st.
  - exists []. by rewrite app_nil_r.
  - simpl for_loop. unfold bind.
    destruct (Hb x s st) as (evs1 & E1 & H1).
    destruct (body x s st) as [[[s'|z]|e] st1]; simpl in *.
    + destruct (IH s' st1) as (evs2 & E2 & H2).
      exists (evs1 ++ evs2). rewrite E2, E1, app_assoc. split; [done|].
      destruct (for_loop l body s' st1).1 as [[s''|z]|e]; simpl in *;
        rewrite ?reported_app, ?H1; [lia| |done].
      destruct H2 as [-> H2]. split; [done|lia].
    + by exists evs1.
    + by exists evs1.
Qed.

Lemma coverage_counted_loop_then {S} (m : M (ctl S Z)) (K : ctl S Z -> M Z) :
  traced m coverage_counted_loop ->
  (forall z, K (Return z) = ret z) ->
  (forall s, traced (K (Continue s)) coverage_counted) ->
  traced (bind m K) coverage_counted.
Proof.
  intros Hm Hret Hk st. unfold bind.
  destruct (Hm st) as (evs1 & E1 & H1).
  destruct (m st) as [[[s|z]|e] st1]; simpl in *.
  - destruct (Hk s st1) as (evs2 & E2 & H2).
    exists (evs1 ++ evs2). rewrite E2, E1, app_assoc. split; [done|].
    destruct (K (Continue s) st1).1 as [z|e]; simpl in *; [|done].
    rewrite reported_app, H1. destruct H2 as [? ?]. split; [done|lia].
  - rewrite Hret. exists evs1. split; [done|]. destruct H1 as [-> H1].
    simpl. split; [auto|lia].
  - by exists evs1.
Qed.

Lemma collect_coverage_counted (bob ws wb testFile : string) (s : option string) :
  traced (collect_coverage host bob ws wb testFile s) coverage_counted_loop.
Proof.
  intros st. unfold collect_coverage.
  match goal with |- context [RunCmd host ?c ?p ?w] =>
    destruct (spawn host st c p w) as [[rc out] files] eqn:E end.
  rewrite (bind_RunCmd _ _ _ _ _ _ _ _ _ E). simpl.
  destruct (decide (rc ≠ 0)) as [Hrc|Hrc].
  - rewrite bind_log. eexists [_; _].
    split; [simpl; by rewrite <- app_assoc|]. by simpl.
  - unfold bind.
    match goal with |- context [merge_coverage host ?a ?b ?c ?s] =>
      destruct (merge_coverage_one_command host a b c s)
        as (p2 & rc2 & out2 & files2 & ->) end. simpl.
    destruct (decide (rc2 ≠ 0)) as [Hrc2|Hrc2].
    + eexists [_; _; _]. unfold log, emit, ret. simpl.
      split; [by rewrite <- !app_assoc|]. by simpl.
    + eexists [_; _]. unfold ret. simpl.
      split; [by rewrite <- !app_assoc|]. by simpl.
Qed.

Lemma fold_coverage_counted (wb total testCoverage : string) (s : unit) :
  traced (fold_coverage host wb total testCoverage s) coverage_counted_loop.
Proof.
  intros st. unfold fold_coverage, bind.
  destruct (merge_coverage_one_command host wb testCoverage total st)
    as (p2 & rc2 & out2 & files2 & ->). simpl.
  destruct (decide (rc2 ≠ 0)) as [Hrc2|Hrc2].
  - eexists [_; _]. unfold log, emit, ret. simpl.
    split; [by rewrite <- !app_assoc|]. by simpl.
  - eexists [_]. unfold ret. simpl. split; [done|]. by simpl.
Qed.

Lemma gen_code_coverage_msvc_counted :
  traced (gen_code_coverage_msvc host) coverage_counted.
Proof.
  unfold gen_code_coverage_msvc.
  apply coverage_counted_after; [by emits_step|intros _].
  destruct (GetValue host "BUILD_OUTPUT_BASE") as [bob|];
    [|by apply coverage_counted_raise].
  apply coverage_counted_after; [by emits_step|intros testList].
  apply coverage_counted_after; [repeat emits_step|intros ws].
  apply coverage_counted_loop_then.
  - apply coverage_counted_for_loop. intros. apply collect_coverage_counted.
  - done.
  - intros [total|]; [|by apply coverage_counted_raise].
    apply coverage_counted_stage.
    apply coverage_counted_after; [by emits_step|intros covs].
    apply coverage_counted_loop_then.
    + apply coverage_counted_for_loop. intros. apply fold_coverage_counted.
    + done.
    + intros _. apply coverage_counted_stage. apply coverage_counted_ret_0.
Qed.

Lemma lcov_stages_counted (bob ws : string) (v : Z) :
  traced (lcov_stages host bob ws v) coverage_counted.
Proof.
  unfold lcov_stages.
  do 5 apply coverage_counted_stage.
  apply coverage_counted_after; [by emits_step|intros covs].
  apply coverage_counted_stage.
  apply coverage_counted_after; [by emits_step|intros b].
  apply coverage_counted_after; [by repeat emits_step|intros _].
  apply coverage_counted_after; [by emits_step|intros _].
  apply coverage_counted_ret_0.
Qed.

Lemma gen_code_coverage_gcc_counted :
  traced (gen_code_coverage_gcc host) coverage_counted.
Proof.
  assert (Hbad : traced
    (bind (log ERROR "UnitTest Coverage: Failed to determine lcov version")
          (fun _ => ret 1)) coverage_counted).
  { intros st. rewrite bind_log. eexists [_]. split; [done|]. simpl. auto. }
  unfold gen_code_coverage_gcc.
  apply coverage_counted_after; [by emits_step|intros _].
  apply coverage_counted_after.
  { unfold get_lcov_version. by repeat emits_step. }
  intros [[|v|v]|]; try exact Hbad.
  - apply coverage_counted_after; [by emits_step|intros _].
    apply lcov_stages_counted.
  - apply coverage_counted_after; [by emits_step|intros _].
    apply lcov_stages_counted.
Qed.

Lemma run_coverage_counted (fc : Z) :
  traced (run_coverage host fc) (counted fc).
Proof.
  assert (Hcov : forall m : M Z,
    traced m coverage_counted ->
    traced (bind m (fun r => ret (if decide (r ≠ 0) then fc + 1 else fc)))
           (counted fc)).
  { intros m Hm st. unfold bind. destruct (Hm st) as (evs & E & H).
    exists evs. destruct (m st) as [[z|e] st1]; simpl in *;
      rewrite ?app_nil_r; [|done].
    split; [done|]. destruct H as [[-> | ->] H]; simpl; lia. }
  unfold run_coverage.
  destruct (decide (_ ≠ _)); [|apply counted_ret].
  destruct (GetValue host "TOOL_CHAIN_TAG") as [tct|].
  - destruct (decide (tct = "GCC5")).
    + apply Hcov, gen_code_coverage_gcc_counted.
    + destruct (Str.startswith "VS" tct).
      * apply Hcov, gen_code_coverage_msvc_counted.
      * apply counted_after; [by emits_step|intros _]. apply counted_ret.
  - intros st. exists []. by rewrite app_nil_r.
Qed.

End CoverageCounting.

(** *** The architectures *)

Section ArchCounting.

Context (host : Host).

Lemma counted_loop_after {A} (fc : Z) (m : M A) (k : A -> M (ctl Z Z)) :
  emits silent m -> (forall a, traced (k a) (counted_loop fc)) ->
  traced (bind m k) (counted_loop fc).
Proof.
  intros Hm Hk.
  eapply traced_bind; [by apply traced_emits|exact Hk| |].
  - intros evs1 a evs2 [[fc'|z]|e] H1 H2; simpl in *; try done.
    rewrite reported_app, (reported_silent _ H1). lia.
  - done.
Qed.

Lemma counted_goes_on (fc : Z) (m : M Z) :
  traced m (counted fc) ->
  traced (bind m (fun fc' => ret (Continue (R := Z) fc'))) (counted_loop fc).
Proof.
  intros Hm st. unfold bind. destruct (Hm st) as (evs & E & H).
  exists evs. by destruct (m st) as [[fc'|e] st1].
Qed.

Lemma arch_body_counted (path : option string) (arch : string) (fc : Z) :
  traced (arch_body host path arch fc) (counted_loop fc).
Proof.
  unfold arch_body.
  apply counted_loop_after; [by emits_step|intros _].
  apply counted_loop_after; [by repeat emits_step|intros cp].
  apply counted_loop_after; [by emits_step|intros olds].
  apply counted_loop_after; [by repeat emits_step|intros _].
  apply counted_loop_after.
  { unfold discover, check_candidate. by repeat emits_step. }
  intros [|test testList].
  - intros st. rewrite bind_log. by eexists [_].
  - intros st.
    rewrite <- (bind_assoc (for_fold (test :: testList) (run_test host cp arch) fc)
                  (run_coverage host) (fun fc => ret (Continue fc)) st).
    apply counted_goes_on, counted_bind.
    + apply counted_for_fold. intros. apply run_test_counted.
    + apply run_coverage_counted.
Qed.

Lemma for_loop_counted (path : option string) (archs : list string) (fc : Z) :
  traced (for_loop archs (arch_body host path) fc) (counted_loop fc).
Proof.
  revert fc. induction archs as [|arch archs IH]; intros fc st.
  - exists []. rewrite app_nil_r. split; [done|]. simpl. lia.
  - simpl for_loop. unfold bind.
    destruct (arch_body_counted path arch fc st) as (evs1 & E1 & H1).
    destruct (arch_body host path arch fc st) as [[[fc'|z]|e] st1]; simpl in *.
    + destruct (IH fc' st1) as (evs2 & E2 & H2).
      exists (evs1 ++ evs2). rewrite E2, E1, app_assoc. split; [done|].
      destruct (for_loop archs _ fc' st1).1 as [[fc''|z]|e]; simpl in *;
        try done.
      rewrite reported_app. lia.
    + by exists evs1.
    + by exists evs1.
Qed.

End ArchCounting.

Lemma ends_at_empty_has_warning (evs : list event) :
  ends_at_empty_architecture evs -> no_tests_warning ∈ evs.
Proof.
  intros (pre & arch & mid & -> & _).
  rewrite elem_of_app, elem_of_cons, elem_of_app, list_elem_of_singleton. auto.
Qed.

Lemma count_reported_after {A} (m : M A) (k : A -> M Z) :
  emits silent m -> (forall a, traced (k a) count_reported) ->
  traced (bind m k) count_reported.
Proof.
  intros Hm Hk.
  eapply traced_bind; [by apply traced_emits|exact Hk| |].
  - intros evs1 a evs2 [n|e] H1 H2; simpl in *; [|done].
    destruct H2 as [Hn H2]. split; [done|]. intros Hnot.
    rewrite reported_app, (reported_silent _ H1). apply H2.
    intros Hin. apply Hnot, elem_of_app. by right.
  - done.
Qed.

Lemma do_post_build_count_reported (host : Host) :
  traced (do_post_build host) count_reported.
Proof.
  unfold do_post_build.
  destruct (decide (GetValue host "CI_BUILD_TYPE" ≠ Some "host_unit_test")).
  { intros st. exists []. rewrite app_nil_r. by repeat split. }
  do 4 (apply count_reported_after; [by emits_step|intros _]).
  apply count_reported_after; [by repeat emits_step|intros archs].
  intros st. unfold bind.
  destruct (traced_and _ _ _
              (for_loop_counted host (GetValue host "BUILD_OUTPUT_BASE") archs 0)
              (for_loop_short_circuit archs
                 (arch_body host (GetValue host "BUILD_OUTPUT_BASE")) 0
                 (fun arch fc => arch_body_short_circuit host _ arch fc)) st)
    as (evs & E & H1 & H2).
  exists evs.
  destruct (for_loop archs _ 0 st) as [[[fc|z]|e] st1]; simpl in *;
    rewrite ?app_nil_r; split; try done.
  - pose proof (reported_nonneg evs). split; [lia|]. intros _. lia.
  - destruct H2 as [-> Hends]. split; [done|]. intros Hnot.
    by destruct Hnot; apply ends_at_empty_has_warning.
Qed.

Lemma error_lines_cons (e : event) (evs : list event) :
  error_lines (e :: evs)
  = match e with
    | EvLog ERROR msg => msg :: error_lines evs
    | _ => error_lines evs
    end.
Proof. by destruct e as [[]| | | | |]. Qed.

Lemma warning_lines_cons (e : event) (evs : list event) :
  warning_lines (e :: evs)
  = match e with
    | EvLog WARNING msg => msg :: warning_lines evs
    | _ => warning_lines evs
    end.
Proof. by destruct e as [[]| | | | |]. Qed.

Lemma reported_lines (evs : list event) :
  reported evs
  = 2 * Z.of_nat (length (error_lines evs))
    + Z.of_nat (length (warning_lines evs)).
Proof.
  induction evs as [|e evs IH]; [done|].
  change (reported (e :: evs)) with (weight e + reported evs).
  rewrite IH, error_lines_cons, warning_lines_cons.
  destruct e as [[]| | | | |]; simpl weight; rewrite ?length_cons; lia.
Qed.

(** X1: the count [do_post_build] returns is never negative, and in a run
    in which no architecture was without tests it is the number of
    failures the log reports: one for every ERROR line and one for every
    two WARNING lines (a failed case logs two). *)
Theorem returned_count_is_reported_count
  (host : Host) (st : state) (evs : list event) (n : Z) :
  trace (do_post_build host st).2 = trace st ++ evs ->
  (do_post_build host st).1 = Val n ->
  0 <= n
  /\ (no_tests_warning ∉ evs ->
      2 * n = 2 * Z.of_nat (length (error_lines evs))
              + Z.of_nat (length (warning_lines evs))).
Proof.
  intros E Hn. destruct (do_post_build_count_reported host st) as (evs' & E' & H).
  rewrite E' in E. apply app_inv_head in E. subst evs'.
  rewrite Hn in H. destruct H as [H0 H]. split; [done|].
  intros Hno. rewrite <- reported_lines. by apply H.
Qed.

(** * An operating system the plugin does not know *)

Section Unsupported.

Context (host : Host).
Hypothesis not_linux : Str.upper (host_os host) ≠ "LINUX".
Hypothesis not_windows : Str.upper (host_os host) ≠ "WINDOWS".

Lemma refused_after {A B} (m : M A) (k : A -> M B) :
  traced m harmless -> (forall a, traced (k a) refused) ->
  traced (bind m k) refused.
Proof.
  intros Hm Hk. eapply traced_bind; [exact Hm|exact Hk| |].
  - intros evs1 a evs2 r [H1 _] [H2 Hr]. split; [|done].
    by apply Forall_app.
  - intros evs1 e [H1 He]. split; [done|]. right. by rewrite (He e).
Qed.

Lemma harmless_emits {A} (m : M A) :
  emits no_command m -> (forall st e, (m st).1 = Exc e -> e = OSError) ->
  traced m harmless.
Proof.
  intros Hm He st. destruct (Hm st) as (evs & E & H).
  exists evs. split; [done|]. split; [done|]. apply He.
Qed.

Lemma remove_all_harmless (l : list string) :
  traced (for_fold l (fun old_result _ => os_remove old_result) tt) harmless.
Proof.
  induction l as [|p l IH]; simpl for_fold.
  - intros st. exists []. rewrite app_nil_r. by repeat split.
  - eapply traced_bind; [|intros []; exact IH| |].
    + apply (harmless_emits (os_remove p)); [by emits_step|].
      intros st e. unfold os_remove.
      destruct (fs st !! p) as [n|]; [destruct (kind_of n)|]; simpl; congruence.
    + intros evs1 a evs2 r [H1 _] [H2 Hr]. split; [|done]. by apply Forall_app.
    + by intros evs1 e H.
Qed.

Lemma discover_refused (cp : string) : traced (discover host cp) refused.
Proof.
  intros st. unfold discover.
  destruct (decide (Str.upper (host_os host) = "LINUX")); [done|].
  destruct (decide (Str.upper (host_os host) = "WINDOWS")); [done|].
  exists []. rewrite app_nil_r. split; [done|]. split; [constructor|by left].
Qed.

Lemma refused_bind {A B} (m : M A) (k : A -> M B) :
  traced m refused -> traced (bind m k) refused.
Proof.
  intros Hm st. unfold bind. destruct (Hm st) as (evs & E & H & Hr).
  destruct (m st) as [[a|e] st1]; simpl in *.
  - destruct Hr as [Hr|Hr]; discriminate Hr.
  - exists evs. split; [done|]. split; [done|].
    destruct Hr as [[= ->]|[= ->]]; [by left|by right].
Qed.

Lemma arch_body_refused (path arch : string) (fc : Z) :
  traced (arch_body host (Some path) arch fc) refused.
Proof.
  unfold arch_body.
  apply refused_after.
  { apply harmless_emits; [by emits_step|done]. }
  intros _. apply refused_after.
  { apply harmless_emits; [by emits_step|done]. }
  intros cp. apply refused_after.
  { apply harmless_emits; [by emits_step|done]. }
  intros old_results. apply refused_after; [apply remove_all_harmless|].
  intros _. apply refused_bind, discover_refused.
Qed.

Lemma do_post_build_refused (path ta : string) :
  GetValue host "CI_BUILD_TYPE" = Some "host_unit_test" ->
  GetValue host "BUILD_OUTPUT_BASE" = Some path ->
  GetValue host "TARGET_ARCH" = Some ta ->
  Str.split ta <> [] ->
  traced (do_post_build host) refused.
Proof.
  intros Hci Hpath Hta Hsplit. unfold do_post_build.
  rewrite Hci, Hpath, Hta.
  destruct (decide (Some "host_unit_test" ≠ Some "host_unit_test")); [done|].
  do 4 (apply refused_after;
        [apply harmless_emits; [by emits_step|done]|intros _]).
  intros st. rewrite bind_ret_l. revert st.
  destruct (Str.split ta) as [|arch archs]; [done|]. simpl for_loop.
  apply refused_bind, refused_bind, arch_body_refused.
Qed.

End Unsupported.

(** X5: on a host whose operating system is neither Linux nor Windows, a
    run that has an architecture to process runs no command and does not
    return: it ends in [NotImplementedError], or in the [OSError] of a
    result file of a former run that could not be removed.  The name of
    the operating system and the list of the architectures are texts of
    ASCII characters. *)
Theorem unsupported_os_runs_no_test
  (host : Host) (st : state) (evs : list event) (path ta : string) :
  Str.isascii (host_os host) = true ->
  Str.isascii ta = true ->
  Str.upper (host_os host) ≠ "LINUX" ->
  Str.upper (host_os host) ≠ "WINDOWS" ->
  GetValue host "CI_BUILD_TYPE" = Some "host_unit_test" ->
  GetValue host "BUILD_OUTPUT_BASE" = Some path ->
  GetValue host "TARGET_ARCH" = Some ta ->
  Str.split ta <> [] ->
  trace (do_post_build host st).2 = trace st ++ evs ->
  Forall no_command evs
  /\ ((do_post_build host st).1 = Exc unsupported_os
      \/ (do_post_build host st).1 = Exc OSError).
Proof.
  intros _ _ Hl Hw Hci Hpath Hta Hsplit E.
  destruct (do_post_build_refused host Hl Hw path ta Hci Hpath Hta Hsplit st)
    as (evs' & E' & H).
  rewrite E' in E. apply app_inv_head in E. by subst evs'.
Qed.

(** * The cleaning of old results *)

Section Cleaning.

Lemma arch_body_cleans_first (host : Host) (path arch : string) (fc : Z)
  (st : state) :
  arch_body host (Some path) arch fc st
  = (log SUBSECTION ("Testing for architecture: " +:+ arch) ;;
     clean_old_results (Path.join path arch) ;;
     testList <- discover host (Path.join path arch) ;;
     match testList with
     | [] => log WARNING no_tests_message ;; ret (Return 0)
     | _ =>
         failure_count <-
           for_fold testList (run_test host (Path.join path arch) arch) fc ;;
         failure_count <- run_coverage host failure_count ;;
         ret (Continue failure_count)
     end) st.
Proof.
  unfold arch_body, clean_old_results. rewrite !bind_log, bind_ret_l.
  by rewrite !bind_assoc.
Qed.

Lemma os_remove_file (p : string) (st : state) (n : node) :
  fs st !! p = Some n -> kind_of n <> Directory ->
  os_remove p st
  = (Val tt, mkState (delete p (fs st)) (shell_vars st)
                     (trace st ++ [EvRemove p])).
Proof. intros Hn Hk. unfold os_remove. rewrite Hn. by destruct (kind_of n). Qed.

Lemma os_remove_directory (p : string) (st : state) (n : node) :
  fs st !! p = Some n -> kind_of n = Directory ->
  os_remove p st = (Exc OSError, st).
Proof. intros Hn Hk. unfold os_remove. by rewrite Hn, Hk. Qed.

(** The loop of the removals, on a list without duplicates of paths that
    exist: it succeeds unless one of them is a directory, and then the
    paths of the list are gone and no other path has changed. *)
Lemma remove_all (l : list string) (st : state) :
  NoDup l ->
  Forall (fun p => is_Some (fs st !! p)) l ->
  let run := for_fold l (fun old_result _ => os_remove old_result) tt st in
  (run.1 = Val tt <-> Forall (fun p => ~ is_directory (fs st) p) l)
  /\ (run.1 = Val tt ->
      shell_vars run.2 = shell_vars st
      /\ forall q, fs run.2 !! q = if decide (q ∈ l) then None else fs st !! q).
Proof.
  revert st. induction l as [|p l IH]; intros st Hnd Hex; simpl.
  - split; [split; [constructor|done]|]. intros _. split; [done|]. intros q.
    destruct (decide (q ∈ [])) as [H|_]; [by apply elem_of_nil in H|done].
  - apply NoDup_cons in Hnd as [Hp Hnd].
    apply Forall_cons in Hex as [[n Hn] Hex].
    assert (Hk : kind_of n = Directory \/ kind_of n <> Directory)
      by (destruct (kind_of n); auto).
    unfold bind. destruct Hk as [Hk|Hk].
    { rewrite (os_remove_directory p st n Hn Hk). simpl.
      split; [|done]. split; [done|].
      intros [H _]%Forall_cons. destruct H. unfold is_directory.
      by rewrite Hn; simpl; rewrite Hk. }
    rewrite (os_remove_file p st n Hn Hk).
    set (st1 := mkState _ _ _).
    assert (Hfs : forall q, q <> p -> fs st1 !! q = fs st !! q).
    { intros q Hq. apply lookup_delete_ne. congruence. }
    assert (Hin : forall q, q ∈ l -> q <> p) by (intros q Hq ->; done).
    assert (Hex1 : Forall (fun p => is_Some (fs st1 !! p)) l).
    { rewrite Forall_forall in Hex |- *. intros q Hq.
      rewrite Hfs by auto. by apply Hex. }
    destruct (IH st1 Hnd Hex1) as [IH1 IH2]. split.
    + rewrite IH1, Forall_cons. split.
      * intros H. split.
        { unfold is_directory. rewrite Hn. simpl. congruence. }
        rewrite Forall_forall in H |- *. intros q Hq. unfold is_directory.
        rewrite <- Hfs by auto. by apply H.
      * intros [_ H]. rewrite Forall_forall in H |- *. intros q Hq.
        unfold is_directory. rewrite Hfs by auto. by apply H.
    + intros Hv. destruct (IH2 Hv) as [Hsh Hq]. split; [by rewrite Hsh|].
      intros q. rewrite Hq.
      destruct (decide (q ∈ l)) as [Hl|Hl].
      { by rewrite decide_True by (by right). }
      destruct (decide (q = p)) as [->|Hne].
      { rewrite decide_True by (by left). apply lookup_delete_eq. }
      rewrite decide_False by (intros [?|?]%elem_of_cons; congruence).
      by apply Hfs.
Qed.

Lemma glob_NoDup {V} (files : gmap string V) (pattern : string) (rec : bool) :
  NoDup (Glob.glob files pattern rec).
Proof.
  unfold Glob.glob. apply NoDup_ListNoDup, List.NoDup_filter, NoDup_ListNoDup.
  apply NoDup_fst_map_to_list.
Qed.

Lemma glob_nil {V} (files : gmap string V) (pattern : string) (rec : bool) :
  (forall a, Glob.wmatch rec pattern true a = true -> files !! a = None) ->
  Glob.glob files pattern rec = [].
Proof.
  intros H. destruct (Glob.glob files pattern rec) as [|a l] eqn:E; [done|].
  assert (Ha : a ∈ Glob.glob files pattern rec) by (rewrite E; by left).
  apply elem_of_glob in Ha as [Hm [v Hv]]. by rewrite (H a Hm) in Hv.
Qed.

(** The cleaning is the loop of the removals on what the pattern
    matches. *)
Lemma clean_old_results_run (cp : string) (st : state) :
  let old := Glob.glob (fs st) (Path.join cp "*.result.xml") false in
  let run := clean_old_results cp st in
  (run.1 = Val tt <-> Forall (fun p => ~ is_directory (fs st) p) old)
  /\ (run.1 = Val tt ->
      shell_vars run.2 = shell_vars st
      /\ forall q, fs run.2 !! q = if decide (q ∈ old) then None else fs st !! q).
Proof.
  intros old run. subst run. unfold clean_old_results, bind, glob.
  fold old. simpl.
  set (st1 := mkState _ _ _).
  assert (Hex : Forall (fun p => is_Some (fs st1 !! p)) old).
  { apply Forall_forall. intros p Hp. by apply elem_of_glob in Hp as [_ Hp]. }
  exact (remove_all old st1 (glob_NoDup _ _ _) Hex).
Qed.

End Cleaning.

(** X6: the cleaning of old results in a directory whose path is spelled
    out, without wildcard characters.  When it succeeds, none of the paths the
    pattern [*.result.xml] matched was a directory, the pattern matches
    nothing any more, every path it does not match is as it was, and the
    shell variables are untouched; when it fails, it fails with
    [OSError]. *)
Theorem stale_results_are_removed (cp : string) (st : state) :
  canonical cp ->
  let pattern := Path.join cp "*.result.xml" in
  let run := clean_old_results cp st in
  (run.1 = Val tt ->
   Forall (fun p => ~ is_directory (fs st) p) (Glob.glob (fs st) pattern false)
   /\ Glob.glob (fs run.2) pattern false = []
   /\ shell_vars run.2 = shell_vars st
   /\ forall p, Glob.wmatch false pattern true p = false ->
                fs run.2 !! p = fs st !! p)
  /\ (forall e, run.1 = Exc e -> e = OSError).
Proof.
  intros _ pattern run.
  destruct (clean_old_results_run cp st) as [H1 H2]. fold pattern run in H1, H2.
  split.
  - intros Hv. destruct (H2 Hv) as [Hsh Hq].
    split; [by apply H1|]. split; [|split; [exact Hsh|]].
    + apply glob_nil. intros a Ha. rewrite Hq.
      destruct (decide (a ∈ _)) as [_|Hno]; [done|].
      apply eq_None_not_Some. intros Hs. apply Hno.
      apply elem_of_glob. by split.
    + intros p Hp. rewrite Hq. rewrite decide_False; [done|].
      intros [Hm _]%elem_of_glob. fold pattern in Hm. congruence.
  - intros e. subst run. unfold clean_old_results, bind, glob. simpl.
    match goal with
    | |- context [for_fold ?l _ tt ?s] =>
        destruct (remove_all_harmless l s) as (evs & _ & _ & He)
    end.
    apply He.
Qed.

(** * The tests that were started *)

Section Launched.

Context (host : Host).

Lemma launched_app (l1 l2 : list event) :
  launched (l1 ++ l2) = launched l1 ++ launched l2.
Proof. apply omap_app. Qed.

Lemma launched_no_command (l : list event) :
  Forall no_command l -> launched l = [].
Proof.
  induction 1 as [|e l He _ IH]; [done|].
  unfold launched in *. by destruct e.
Qed.

Lemma tally_file_no_command (test file : string) (fc : Z) :
  emits no_command (tally_file test file fc).
Proof.
  unfold tally_file, tally_root, tally_suite, tally_case, tally_result.
  by repeat emits_step.
Qed.

(** One test starts one command, its own, whatever it ends in. *)
Lemma run_test_launched (cp arch test : string) (fc : Z) :
  traced (run_test host cp arch test fc)
         (fun evs _ => launched evs = [test_command cp test]).
Proof.
  intros st. unfold run_test.
  unfold bind at 1 2, set_shell_var. simpl.
  set (st2 := mkState _ _ _).
  destruct (spawn host st2 (Str.dq +:+ test +:+ Str.dq) "" (Some cp))
    as [[rc out] files] eqn:Hsp.
  rewrite (bind_RunCmd host _ _ _ _ st2 rc out files Hsp).
  set (st3 := after_RunCmd _ _ _ _ _ _).
  assert (Hrest : emits no_command
    (if decide ((rc, out).1 ≠ 0)
     then log ERROR ("UnitTest Execution Error: " +:+ Path.basename test) ;;
          ret (fc + 1)
     else log INFO ("UnitTest Completed: " +:+ Path.basename test) ;;
          xml_results_list <-
            glob (test +:+ ".*." +:+ arch +:+ ".result.xml") false ;;
          for_fold xml_results_list (tally_file test) fc)).
  { emits_step; repeat emits_step; try done. apply tally_file_no_command. }
  destruct (Hrest st3) as (evs & E & H).
  eexists (_ :: _ :: _ :: evs). split.
  - rewrite E. subst st3 st2. unfold after_RunCmd. simpl.
    by rewrite <- !List.app_assoc.
  - simpl. unfold launched in *. simpl.
    f_equal. by apply launched_no_command.
Qed.

Lemma run_tests_launched (cp arch : string) (tests : list string) (fc : Z) :
  traced (for_fold tests (run_test host cp arch) fc)
         (fun evs r =>
            launched evs `prefix_of` (test_command cp <$> tests)
            /\ (forall n, r = Val n ->
                launched evs = test_command cp <$> tests)).
Proof.
  revert fc. induction tests as [|test tests IH]; intros fc; simpl for_fold.
  - intros st. exists []. rewrite app_nil_r. by repeat split.
  - eapply traced_bind; [apply run_test_launched|intros a; apply IH| |].
    + intros evs1 a evs2 r H1 [H2 H3]. rewrite launched_app, H1. split.
      * simpl. by apply prefix_cons.
      * intros n Hn. simpl. f_equal. by eapply H3.
    + intros evs1 e H1. rewrite H1. split; [|done].
      simpl. apply prefix_cons, prefix_nil.
Qed.

End Launched.

(** X7: the loop over the tests of an architecture starts the tests in
    the order of the list, each once, quoted, without parameters and in
    the directory of the architecture, and starts no other command; a test
    that fails does not stop it: when the loop returns a count, every test
    of the list was started. *)
Theorem every_discovered_test_is_started
  (host : Host) (cp arch : string) (tests : list string) (fc : Z)
  (st : state) (evs : list event) :
  trace (for_fold tests (run_test host cp arch) fc st).2 = trace st ++ evs ->
  launched evs `prefix_of` (test_command cp <$> tests)
  /\ (forall n, (for_fold tests (run_test host cp arch) fc st).1 = Val n ->
      launched evs = test_command cp <$> tests).
Proof.
  intros E. destruct (run_tests_launched host cp arch tests fc st)
    as (evs' & E' & H).
  rewrite E' in E. apply app_inv_head in E. by subst evs'.
Qed.

(** * Names and patterns *)

Section Patterns.

Import StrFacts.

Lemma wmatch_prefix (rec : bool) (q p : string) (b : bool) (s : string) :
  Str.has_char "*" q = false ->
  Glob.wmatch rec (q +:+ p) b (q +:+ s) = Glob.wmatch rec p (seg_after b q) s.
Proof.
  revert b. induction q as [|c q IH]; intros b Hq; [done|].
  simpl in Hq. destruct (Ascii.eqb c "*") eqn:Hc; [done|].
  rewrite !app_cons, wmatch_lit by done.
  rewrite Ascii.eqb_refl. simpl. by apply IH.
Qed.

Lemma wmatch_prefix_inv (rec : bool) (q p : string) (b : bool) (s : string) :
  Str.has_char "*" q = false ->
  Glob.wmatch rec (q +:+ p) b s = true ->
  exists s', s = q +:+ s' /\ Glob.wmatch rec p (seg_after b q) s' = true.
Proof.
  revert b s. induction q as [|c q IH]; intros b s Hq H.
  - by exists s.
  - simpl in Hq. destruct (Ascii.eqb c "*") eqn:Hc; [done|].
    rewrite app_cons, wmatch_lit in H by done.
    destruct s as [|d s]; [done|].
    apply andb_prop in H as [Hd H]. apply Ascii.eqb_eq in Hd as <-.
    destruct (IH _ _ Hq H) as (s' & -> & Hs'). by exists s'.
Qed.

Lemma wmatch_literal (rec : bool) (p : string) (b : bool) :
  Str.has_char "*" p = false -> Glob.wmatch rec p b p = true.
Proof.
  revert b. induction p as [|c p IH]; intros b Hp; [done|].
  simpl in Hp. destruct (Ascii.eqb c "*") eqn:Hc; [done|].
  rewrite wmatch_lit by done. rewrite Ascii.eqb_refl. simpl. by apply IH.
Qed.

(** A star takes any run of characters without a separator. *)
Lemma star_loop_skip (p : string) (b z : bool) (x s : string) :
  Str.has_char "/" x = false ->
  (forall b', Glob.wmatch false p b' s = true) ->
  star_loop p b z (x +:+ s) = true.
Proof.
  intros Hx Hs. revert z. induction x as [|c x IH]; intros z.
  - rewrite app_nil_l, star_loop_eq. by rewrite Hs.
  - simpl in Hx. destruct (Ascii.eqb c "/") eqn:Hc; [done|].
    rewrite app_cons, star_loop_eq, Hc.
    destruct (Glob.wmatch false p (b && z) _); [done|]. by apply IH.
Qed.

Lemma seg_after_app (b : bool) (x y : string) :
  seg_after b (x +:+ y) = seg_after (seg_after b x) y.
Proof. revert b. induction x as [|c x IH]; intros b; [done|]. apply IH. Qed.

Lemma join_relative (a r : string) :
  Str.startswith Path.sep r = false -> Path.join a r = join_prefix a +:+ r.
Proof.
  intros Hr. unfold Path.join, join_prefix. rewrite Hr.
  destruct (_ || _)%bool; [done|]. by rewrite app_assoc.
Qed.

Lemma join_prefix_seg (a : string) : seg_after true (join_prefix a) = true.
Proof.
  unfold join_prefix. destruct (String.eqb a "") eqn:Ha; simpl.
  - apply eqb_true in Ha as ->. done.
  - destruct (Str.endswith Path.sep a) eqn:He.
    + apply endswith_inv in He as [x ->]. by rewrite seg_after_app.
    + by rewrite seg_after_app.
Qed.

Lemma join_prefix_star (a : string) :
  Str.has_char "*" a = false -> Str.has_char "*" (join_prefix a) = false.
Proof.
  intros Ha. unfold join_prefix. destruct (_ || _)%bool; [done|].
  by rewrite has_char_app, Ha.
Qed.

Lemma hidden_app (n r : string) :
  n <> "" -> Glob.hidden (n +:+ r) = Glob.hidden n.
Proof. destruct n as [|c n]; [done|]. intros _. by destruct n, r. Qed.

(** The result files of a test are what the pattern of [run_test]
    matches. *)
Lemma result_file_matches (test tag arch : string) :
  Str.has_char "*" test = false -> Str.has_char "*" arch = false ->
  Str.has_char "/" tag = false ->
  Glob.wmatch false (test +:+ ".*." +:+ arch +:+ ".result.xml") true
              (result_file_of test tag arch) = true.
Proof.
  intros Ht Ha Hg. unfold result_file_of.
  rewrite wmatch_prefix by done.
  change (".*." +:+ arch +:+ ".result.xml")
    with (String "." (String "*" ("." +:+ arch +:+ ".result.xml"))).
  change ("." +:+ tag +:+ "." +:+ arch +:+ ".result.xml")
    with (String "." (tag +:+ "." +:+ arch +:+ ".result.xml")).
  rewrite wmatch_lit by done.
  change (Ascii.eqb "." ".") with true. change (Ascii.eqb "." "/") with false.
  rewrite wmatch_star. simpl andb. cbv iota.
  apply star_loop_skip; [done|]. intros b'. apply wmatch_literal.
  change ("." +:+ arch +:+ ".result.xml")
    with (String "." (arch +:+ ".result.xml")).
  simpl. by rewrite has_char_app, Ha.
Qed.

(** The result files of a test that the discovery finds in a directory
    are what the pattern of the cleaning matches. *)
Lemma result_file_is_cleaned (cp test tag arch : string) :
  Str.has_char "*" cp = false ->
  Glob.wmatch false (Path.join cp "*Test*") true test = true ->
  Str.has_char "/" tag = false -> Str.has_char "/" arch = false ->
  Glob.wmatch false (Path.join cp "*.result.xml") true
              (result_file_of test tag arch) = true.
Proof.
  intros Hcp Hm Hg Ha. rewrite join_relative in Hm |- * by done.
  apply wmatch_prefix_inv in Hm as (name & -> & Hn);
    [|by apply join_prefix_star].
  rewrite join_prefix_seg in Hn.
  pose proof Hn as Hh. rewrite wmatch_star in Hh. simpl andb in Hh.
  destruct (Glob.hidden name) eqn:Hhid; [done|]. clear Hh.
  apply wmatch_Test in Hn as [Hs Hc].
  assert (Hne : name <> "") by (by intros ->).
  unfold result_file_of. rewrite app_assoc.
  rewrite wmatch_prefix by (by apply join_prefix_star).
  rewrite join_prefix_seg, wmatch_star. simpl andb.
  rewrite hidden_app, Hhid by done.
  replace (name +:+ "." +:+ tag +:+ "." +:+ arch +:+ ".result.xml")
    with ((name +:+ "." +:+ tag +:+ "." +:+ arch) +:+ ".result.xml")
    by (by rewrite !app_assoc).
  apply star_loop_skip.
  - rewrite !has_char_app, Hs, Hg, Ha. done.
  - by intros [].
Qed.

End Patterns.

(** X8: the result files a test is told to write are the ones [run_test]
    reads back: for a test and an architecture without wildcard
    characters, the pattern of the glob finds the file named in
    [GTEST_OUTPUT], the files cmocka writes for the name in
    [CMOCKA_XML_FILE] with a group name for [%g], and any other file named
    in this way, once it exists. *)
Theorem written_result_files_are_read_back
  (test arch : string) (files : gmap string node) :
  literal test -> literal arch ->
  let found := Glob.glob files (test +:+ ".*." +:+ arch +:+ ".result.xml") false in
  (is_Some (files !! gtest_xml_file test arch) ->
   gtest_xml_file test arch ∈ found)
  /\ (forall group, Str.has_char "/" group = false ->
      is_Some (files !! result_file_of test ("CMOCKA." +:+ group) arch) ->
      result_file_of test ("CMOCKA." +:+ group) arch ∈ found)
  /\ (forall tag, Str.has_char "/" tag = false ->
      is_Some (files !! result_file_of test tag arch) ->
      result_file_of test tag arch ∈ found).
Proof.
  intros (Ht & _) (Ha & _) found.
  assert (H : forall tag, Str.has_char "/" tag = false ->
      is_Some (files !! result_file_of test tag arch) ->
      result_file_of test tag arch ∈ found).
  { intros tag Hg Hf. apply elem_of_glob. split; [|done].
    by apply result_file_matches. }
  split; [|split; [|exact H]].
  - apply (H "GTEST"). done.
  - intros group Hg. apply H. done.
Qed.

(** X9: after a cleaning that succeeded, no result file of a test that
    the discovery can find in the directory is left, whatever framework
    wrote it and whatever the architecture it was written for. *)
Theorem no_result_file_survives_the_cleaning
  (cp test tag arch : string) (st : state) :
  literal cp ->
  Glob.wmatch false (Path.join cp "*Test*") true test = true ->
  Str.has_char "/" tag = false -> Str.has_char "/" arch = false ->
  (clean_old_results cp st).1 = Val tt ->
  fs (clean_old_results cp st).2 !! result_file_of test tag arch = None.
Proof.
  intros (Hcp & _) Hm Hg Ha Hv.
  destruct (clean_old_results_run cp st) as [_ H].
  destruct (H Hv) as [_ Hq]. rewrite Hq.
  destruct (decide (_ ∈ _)) as [_|Hno]; [done|].
  apply eq_None_not_Some. intros Hs. apply Hno.
  apply elem_of_glob. split; [|done]. by apply result_file_is_cleaned.
Qed.

(** * Programs that do not raise *)

Section Returns.

Context (host : Host).

Lemma returns_ret {A} (a : A) : returns (ret a).
Proof. intros st. by exists a. Qed.

Lemma returns_bind {A B} (m : M A) (k : A -> M B) :
  returns m -> (forall a, returns (k a)) -> returns (bind m k).
Proof.
  intros Hm Hk st. unfold bind. destruct (Hm st) as [a Ha].
  destruct (m st) as [[a'|e] st1]; simpl in Ha; [|done].
  apply Hk.
Qed.

Lemma returns_log (lvl : level) (msg : string) : returns (log lvl msg).
Proof. intros st. by exists tt. Qed.

Lemma returns_glob (pattern : string) (rec : bool) :
  returns (glob pattern rec).
Proof. intros st. by eexists. Qed.

Lemma returns_isfile (p : string) : returns (isfile p).
Proof. intros st. by eexists. Qed.

Lemma returns_RunCmd (cmd params : string) (wd : option string) :
  returns (RunCmd host cmd params wd).
Proof.
  intros st. unfold RunCmd.
  destruct (spawn host st cmd params wd) as [[rc out] files]. by eexists.
Qed.

Lemma returns_for_loop {A S R} (l : list A) (body : A -> S -> M (ctl S R))
  (s : S) :
  (forall x s, returns (body x s)) -> returns (for_loop l body s).
Proof.
  intros Hb. revert s. induction l as [|x l IH]; intros s; simpl.
  - apply returns_ret.
  - apply returns_bind; [apply Hb|].
    intros [s'|r]; [apply IH|apply returns_ret].
Qed.

(** [if os.path.isfile(p): os.remove(p)] does not raise: what [isfile]
    accepts is no directory. *)
Lemma returns_remove_if_file {B} (p : string) (k : unit -> M B) :
  (forall u, returns (k u)) ->
  returns (b <- isfile p ;;
           u <- (if b : bool then os_remove p else ret tt) ;; k u).
Proof.
  intros Hk st. unfold bind at 1, isfile. simpl.
  destruct (fs st !! p) as [n|] eqn:Hn; [|apply Hk].
  destruct (kind_of n) eqn:Hk'; try apply Hk.
  unfold bind, os_remove. rewrite Hn, Hk'. apply Hk.
Qed.

End Returns.

Ltac returns_step :=
  lazymatch goal with
  | |- returns (bind (isfile _) _) =>
      first [apply returns_remove_if_file; intros ?
            |apply returns_bind; [|intros ?]]
  | |- returns (bind _ _) => apply returns_bind; [|intros ?]
  | |- returns (ret _) => apply returns_ret
  | |- returns (log _ _) => apply returns_log
  | |- returns (glob _ _) => apply returns_glob
  | |- returns (isfile _) => apply returns_isfile
  | |- returns (RunCmd _ _ _ _) => apply returns_RunCmd
  | |- returns (for_loop _ _ _) => apply returns_for_loop; intros ? ?
  | |- returns (if ?b then _ else _) => destruct b
  | |- returns (match ?x with _ => _ end) => destruct x
  | |- returns (let '(_, _) := ?x in _) => destruct x
  end.

Section Raises.

Context (host : Host).

Lemma merge_coverage_returns (workspaceBuild snapshot total : string) :
  returns (merge_coverage host workspaceBuild snapshot total).
Proof. unfold merge_coverage. repeat returns_step. Qed.

Lemma lcov_stages_returns (buildOutputBase workspace : string) (v : Z) :
  returns (lcov_stages host buildOutputBase workspace v).
Proof. unfold lcov_stages. cbv zeta. repeat returns_step. Qed.

Lemma collect_coverage_returns (buildOutputBase workspace workspaceBuild : string)
  (testFile : string) (s : option string) (st : state) :
  exists c, (collect_coverage host buildOutputBase workspace workspaceBuild
                              testFile s st).1 = Val c
            /\ c <> Continue None.
Proof.
  unfold collect_coverage.
  destruct (spawn host st "OpenCppCoverage"
              ("--source " +:+ workspace +:+ " --export_type binary:"
               +:+ testFile +:+ ".cov -- " +:+ testFile) None)
    as [[rc out] files] eqn:Hsp.
  rewrite (bind_RunCmd host _ _ _ _ st rc out files Hsp).
  destruct (decide ((rc, out).1 ≠ 0)); [by eexists|].
  cbv zeta. unfold bind at 1.
  destruct (merge_coverage_returns workspaceBuild (testFile +:+ ".cov")
              (Path.join buildOutputBase "coverage.cov")
              (after_RunCmd st "OpenCppCoverage"
                 ("--source " +:+ workspace +:+ " --export_type binary:"
                  +:+ testFile +:+ ".cov -- " +:+ testFile) None rc files))
    as [r Hr].
  destruct (merge_coverage _ _ _ _ _) as [[r'|e] st1]; simpl in Hr; [|done].
  destruct (decide (r'.1 ≠ 0)); by eexists.
Qed.

(** After a test binary, the name of the aggregate is bound. *)
Lemma collect_loop_returns (buildOutputBase workspace workspaceBuild : string)
  (testList : list string) (s : option string) (st : state) :
  testList <> [] \/ s <> None ->
  exists c, (for_loop testList
               (collect_coverage host buildOutputBase workspace workspaceBuild)
               s st).1 = Val c
            /\ c <> Continue None.
Proof.
  revert s st. induction testList as [|t l IH]; intros s st Hs.
  - destruct Hs as [Hs|Hs]; [done|]. exists (Continue s). split; [done|].
    congruence.
  - simpl for_loop. unfold bind.
    destruct (collect_coverage_returns buildOutputBase workspace workspaceBuild
                t s st) as (c & Hc & Hne).
    destruct (collect_coverage _ _ _ _ _ _ _) as [[c'|e] st1]; simpl in Hc;
      [|done].
    injection Hc as ->. destruct c as [[tot|]|r].
    + apply IH. by right.
    + done.
    + by eexists.
Qed.

Lemma fold_coverage_returns (workspaceBuild total testCoverage : string)
  (u : unit) :
  returns (fold_coverage host workspaceBuild total testCoverage u).
Proof.
  unfold fold_coverage. apply returns_bind; [apply merge_coverage_returns|].
  intros r. repeat returns_step.
Qed.

End Raises.

Lemma bind_val {A B} (m : M A) (k : A -> M B) (st st' : state) (a : A) :
  m st = (Val a, st') -> bind m k st = k a st'.
Proof. intros E. unfold bind. by rewrite E. Qed.

(** X10: with its two build variables set, the MSVC variant raises
    [UnboundLocalError] exactly when its search for the test binaries
    under the build output found nothing: after the loop over an empty
    list the name [totalCoverageFile] is read without having been bound.
    The search is then the last thing the run did: no command was
    run. *)
Theorem msvc_pipeline_raises_iff_no_test_binary
  (host : Host) (st : state) (buildOutputBase workspace : string) :
  GetValue host "BUILD_OUTPUT_BASE" = Some buildOutputBase ->
  GetValue host "WORKSPACE" = Some workspace ->
  workspace <> "" ->
  let pattern := Path.join (Path.join buildOutputBase "**") "*Test*.exe" in
  let run := gen_code_coverage_msvc host st in
  exists found rest,
    trace run.2
    = trace st ++ EvLog INFO "Generating UnitTest code coverage"
                 :: EvGlob pattern true found :: rest
    /\ (run.1 = Exc UnboundLocalError <-> found = [])
    /\ (found = [] -> rest = []).
Proof.
  intros Hb Hw Hne pattern run. subst run. unfold gen_code_coverage_msvc.
  rewrite Hb, Hw, bind_log.
  assert (Hlast : exists c, Str.last workspace = Some c).
  { clear Hw. induction workspace as [|c [|d w] IH]; [done|by eexists|].
    destruct IH as [c' Hc']; [done|]. exists c'. exact Hc'. }
  destruct Hlast as [c ->].
  set (ws := if decide (String c "" ≠ Path.sep) then _ else _).
  set (st1 := logged st INFO "Generating UnitTest code coverage").
  remember (Glob.glob (fs st1) pattern true) as found eqn:Hfound.
  set (st2 := mkState (fs st1) (shell_vars st1)
                      (trace st1 ++ [EvGlob pattern true found])).
  assert (Hglob : glob pattern true st1 = (Val found, st2))
    by (unfold glob; by rewrite <- Hfound).
  fold pattern. rewrite (bind_val _ _ _ _ _ Hglob), bind_ret_l.
  assert (Ht2 : trace st2
                = trace st ++ [EvLog INFO "Generating UnitTest code coverage";
                               EvGlob pattern true found])
    by (simpl; by rewrite <- List.app_assoc).
  exists found. clear Hfound Hglob.
  match goal with |- context [bind ?m ?K st2] => set (R := bind m K) end.
  assert (Hem : emits (fun _ => True) R).
  { unfold R, collect_coverage, fold_coverage, merge_coverage. cbv zeta.
    by repeat emits_step. }
  destruct (Hem st2) as (rest & Er & _). exists rest.
  split; [by rewrite Er, Ht2, <- List.app_assoc|].
  destruct found as [|t l].
  - assert (HR : R st2 = (Exc UnboundLocalError, st2)) by reflexivity.
    rewrite HR in Er |- *. split; [done|]. intros _.
    apply (f_equal length) in Er. rewrite length_app in Er.
    destruct rest; [done|]. simpl in Er. lia.
  - split; [|done]. split; [|done]. intros He. exfalso.
    unfold R in He. unfold bind at 1 in He.
    destruct (collect_loop_returns host buildOutputBase ws (Path.join ws "Build")
                (t :: l) None st2) as (c0 & Hc0 & Hsome); [by left|].
    destruct (for_loop _ _ _ _) as [[c1|e1] st3]; simpl in Hc0; [|done].
    injection Hc0 as ->. destruct c0 as [[tot|]|r]; [|done|done].
    assert (Hrest : returns
      (r <- RunCmd host "OpenCppCoverage"
             ("--export_type cobertura:"
              +:+ Path.join buildOutputBase "coverage.xml" +:+ " "
              +:+ "--working_dir=" +:+ Path.join ws "Build" +:+ " "
              +:+ "--input_coverage=" +:+ tot +:+ " ") None ;;
       if decide (r.1 ≠ 0) then
         log ERROR "UnitTest Coverage: Failed to generate cobertura format xml in single package." ;;
         ret 1
       else
       testCoverageList <-
         glob (Path.join (Path.join (Path.join ws "Build") "**")
                         "*Test*.exe.cov") true ;;
       c <- for_loop testCoverageList
              (fold_coverage host (Path.join ws "Build")
                             (Path.join (Path.join ws "Build") "coverage.cov")) tt ;;
       match c with
       | Return r => ret r
       | Continue _ =>
         r <- RunCmd host "OpenCppCoverage"
                ("--export_type cobertura:"
                 +:+ Path.join (Path.join ws "Build") "coverage.xml" +:+ " "
                 +:+ "--working_dir=" +:+ Path.join ws "Build" +:+ " "
                 +:+ "--input_coverage="
                 +:+ Path.join (Path.join ws "Build") "coverage.cov") None ;;
         if decide (r.1 ≠ 0) then
           log ERROR "UnitTest Coverage: Failed to generate cobertura format xml." ;;
           ret 1
         else ret 0
       end)).
    { apply returns_bind; [apply returns_RunCmd|]. intros r.
      destruct (decide (r.1 ≠ 0)); [by repeat returns_step|].
      apply returns_bind; [apply returns_glob|]. intros l'.
      apply returns_bind.
      { apply returns_for_loop. intros x u. apply fold_coverage_returns. }
      intros [u|z]; repeat returns_step. }
    destruct (Hrest st3) as [z Hz]. cbv zeta in He. congruence.
Qed.

(** * The version that is returned *)

Section Version.

Import StrFacts.

Lemma search_version_sound (s major minor : string) :
  search_version s = Some (major, minor) ->
  exists pre post,
    s = pre +:+ "version " +:+ major +:+ "." +:+ minor +:+ post
    /\ major <> "" /\ minor <> ""
    /\ all_digits major = true /\ all_digits minor = true.
Proof.
  induction s as [|c s IH].
  - done.
  - rewrite search_version_cons.
    destruct (version_here (String c s)) as [[mj mi]|] eqn:E.
    + intros [= -> ->]. apply version_here_sound in E as (post & -> & H).
      by exists "", post.
    + intros H. destruct (IH H) as (pre & post & -> & H').
      by exists (String c pre), post.
Qed.

Lemma int_go_nonneg (s : string) (acc : Z) :
  all_digits s = true -> 0 <= acc -> 0 <= Str.int_go acc s.
Proof.
  revert acc. induction s as [|c s IH]; intros acc Hs Hacc; [done|].
  simpl in Hs. apply andb_prop in Hs as [Hc Hs]. simpl. apply IH; [done|].
  unfold Str.isdigit in Hc. cbv zeta in Hc. apply andb_prop in Hc as [Hc _].
  apply Nat.leb_le in Hc. lia.
Qed.

End Version.

(** X11: a number that [get_lcov_version] returns is the value of the
    major part of a version number that [lcov --version] printed, in a
    text of ASCII characters, after it exited with 0, and it is not
    negative. *)
Theorem lcov_version_is_major_of_printed_version
  (host : Host) (st : state) (rc : Z) (out : string)
  (files : gmap string node) (v : Z) :
  spawn host st "lcov" "--version" None = (rc, out, files) ->
  Str.isascii out = true ->
  (get_lcov_version host st).1 = Val (Some v) ->
  rc = 0 /\ 0 <= v
  /\ exists pre major minor post,
       out = pre +:+ "version " +:+ major +:+ "." +:+ minor +:+ post
       /\ major <> "" /\ minor <> ""
       /\ all_digits major = true /\ all_digits minor = true
       /\ v = Str.int major.
Proof.
  intros Hsp _. unfold get_lcov_version.
  rewrite (bind_RunCmd host _ _ _ _ st rc out files Hsp).
  destruct (decide (rc ≠ 0)) as [|Hrc%not_ne_0]; [done|].
  destruct (search_version out) as [[major minor]|] eqn:E; [|done].
  intros [= <-].
  apply search_version_sound in E as (pre & post & -> & Hmj & Hmi & Dmj & Dmi).
  split; [done|]. split; [by apply int_go_nonneg|].
  by exists pre, major, minor, post.
Qed.

(** * The architectures a run went through *)

Section Order.

Context (host : Host).

Lemma headers_app (l1 l2 : list event) :
  headers (l1 ++ l2) = headers l1 ++ headers l2.
Proof. apply omap_app. Qed.

Lemma headers_none (l : list event) :
  Forall (fun e => header e = None) l -> headers l = [].
Proof.
  induction 1 as [|e l He _ IH]; [done|].
  unfold headers in *. simpl. by rewrite He.
Qed.

Lemma tally_file_no_header (test file : string) (fc : Z) :
  emits (fun e => header e = None) (tally_file test file fc).
Proof.
  unfold tally_file, tally_root, tally_suite, tally_case, tally_result.
  by repeat emits_step.
Qed.

Lemma run_test_no_header (cp arch test : string) (fc : Z) :
  emits (fun e => header e = None) (run_test host cp arch test fc).
Proof.
  unfold run_test. repeat emits_step; try done. apply tally_file_no_header.
Qed.

Lemma gen_code_coverage_gcc_no_header :
  emits (fun e => header e = None) (gen_code_coverage_gcc host).
Proof.
  unfold gen_code_coverage_gcc, get_lcov_version, lcov_stages. cbv zeta.
  by repeat emits_step.
Qed.

Lemma gen_code_coverage_msvc_no_header :
  emits (fun e => header e = None) (gen_code_coverage_msvc host).
Proof.
  unfold gen_code_coverage_msvc, collect_coverage, fold_coverage,
    merge_coverage. cbv zeta.
  by repeat emits_step.
Qed.

Lemma run_coverage_no_header (fc : Z) :
  emits (fun e => header e = None) (run_coverage host fc).
Proof.
  unfold run_coverage. repeat emits_step; try done.
  - apply gen_code_coverage_gcc_no_header.
  - apply gen_code_coverage_msvc_no_header.
Qed.

Lemma discover_no_header (cp : string) :
  emits (fun e => header e = None) (discover host cp).
Proof. unfold discover, check_candidate. by repeat emits_step. Qed.

(** One architecture logs one header, its own. *)
Lemma arch_body_header (path : option string) (arch : string) (fc : Z) :
  traced (arch_body host path arch fc)
         (fun evs _ => headers evs = [arch_header arch]).
Proof.
  intros st. unfold arch_body. rewrite bind_log.
  set (st1 := logged st SUBSECTION ("Testing for architecture: " +:+ arch)).
  assert (Hrest : forall k : M (ctl Z Z),
            emits (fun e => header e = None) k ->
            exists evs, trace (k st1).2 = trace st ++ evs
                        /\ headers evs = [arch_header arch]).
  { intros k Hk. destruct (Hk st1) as (evs & E & H).
    exists (EvLog SUBSECTION ("Testing for architecture: " +:+ arch) :: evs).
    split.
    - rewrite E. unfold st1, logged. simpl. by rewrite <- List.app_assoc.
    - unfold headers in *. simpl. f_equal. by apply headers_none. }
  apply Hrest. repeat emits_step; try done.
  - apply discover_no_header.
  - apply run_test_no_header.
  - apply run_coverage_no_header.
Qed.

Lemma for_loop_in_order (path : option string) (archs : list string) (fc : Z) :
  traced (for_loop archs (arch_body host path) fc) (in_order archs).
Proof.
  revert fc. induction archs as [|arch archs IH]; intros fc; simpl for_loop.
  - intros st. exists []. rewrite app_nil_r. by repeat split.
  - intros st. unfold bind.
    destruct (arch_body_header path arch fc st) as (evs1 & E1 & H1).
    destruct (arch_body host path arch fc st) as [[[fc'|z]|e] st1]; simpl in *.
    + destruct (IH fc' st1) as (evs2 & E2 & H2 & H3).
      exists (evs1 ++ evs2). rewrite E2, E1, List.app_assoc.
      split; [done|]. unfold in_order. rewrite headers_app, H1. split.
      * simpl. by apply prefix_cons.
      * intros s Hs. simpl. f_equal. by eapply H3.
    + exists evs1. split; [done|]. unfold in_order. rewrite H1.
      split; [|done]. simpl. apply prefix_cons, prefix_nil.
    + exists evs1. split; [done|]. unfold in_order. rewrite H1.
      split; [|done]. simpl. apply prefix_cons, prefix_nil.
Qed.

End Order.

Lemma all_in_order_after (archs : list string) {A} (m : M A) (k : A -> M Z) :
  emits (fun e => header e = None) m ->
  returns m ->
  (forall a, traced (k a) (all_in_order archs)) ->
  traced (bind m k) (all_in_order archs).
Proof.
  intros Hm Hr Hk st. unfold bind.
  destruct (Hm st) as (evs1 & E1 & H1). destruct (Hr st) as [a Ha].
  destruct (m st) as [[a'|e] st1]; simpl in *; [|done].
  destruct (Hk a' st1) as (evs2 & E2 & H2 & H3).
  exists (evs1 ++ evs2). rewrite E2, E1, List.app_assoc. split; [done|].
  unfold all_in_order. rewrite headers_app, (headers_none _ H1). simpl.
  split; [done|]. intros n Hn Hno. apply (H3 n Hn).
  intros Hin. apply Hno, elem_of_app. by right.
Qed.

Lemma do_post_build_in_order (host : Host) (ta : string) :
  GetValue host "CI_BUILD_TYPE" = Some "host_unit_test" ->
  GetValue host "TARGET_ARCH" = Some ta ->
  traced (do_post_build host) (all_in_order (Str.split ta)).
Proof.
  intros Hci Hta. unfold do_post_build. rewrite Hci, Hta.
  destruct (decide (Some "host_unit_test" ≠ Some "host_unit_test")) as [|_];
    [done|].
  do 4 (apply all_in_order_after;
        [by emits_step|intros st; by eexists|intros _]).
  intros st. rewrite bind_ret_l. unfold bind.
  destruct (traced_and _ _ _
              (for_loop_in_order host (GetValue host "BUILD_OUTPUT_BASE")
                 (Str.split ta) 0)
              (for_loop_short_circuit (Str.split ta)
                 (arch_body host (GetValue host "BUILD_OUTPUT_BASE")) 0
                 (fun arch fc => arch_body_short_circuit host _ arch fc)) st)
    as (evs & E & [H1 H2] & H3).
  exists evs.
  destruct (for_loop (Str.split ta) _ 0 st) as [[[fc|z]|e] st1]; simpl in *;
    rewrite ?app_nil_r; split; try done.
  - split; [done|]. intros n _ _. by eapply H2.
  - split; [done|]. intros n _ Hno. destruct H3 as [_ Hends].
    by destruct Hno; apply ends_at_empty_has_warning.
Qed.

(** X13: [do_post_build] takes the architectures in the order of
    [TARGET_ARCH], a text of ASCII characters, each once: the headers it
    logs are a prefix of the list, and the whole list when the run
    returned and no architecture was without tests. *)
Theorem architectures_are_taken_in_order
  (host : Host) (st : state) (evs : list event) (ta : string) :
  GetValue host "CI_BUILD_TYPE" = Some "host_unit_test" ->
  GetValue host "TARGET_ARCH" = Some ta ->
  Str.isascii ta = true ->
  trace (do_post_build host st).2 = trace st ++ evs ->
  headers evs `prefix_of` (arch_header <$> Str.split ta)
  /\ forall n, (do_post_build host st).1 = Val n ->
               no_tests_warning ∉ evs ->
               headers evs = arch_header <$> Str.split ta.
Proof.
  intros Hci Hta _ E.
  destruct (do_post_build_in_order host ta Hci Hta st) as (evs' & E' & H).
  rewrite E' in E. apply app_inv_head in E. by subst evs'.
Qed.

(** * The statements on concrete runs *)

(** C1: two architectures, the first with a failing test, the second with
    no test.  The empty architecture ends the whole function with
    [return 0]: the failure of the first, which was logged, is not in the
    result. *)
Theorem empty_architecture_discards_earlier_failures :
  let run := do_post_build Scenario.x64_fails_arm_empty Scenario.x64_tree in
  run.1 = Val 0
  /\ error_lines (trace run.2) = ["UnitTest Execution Error: FooTest"]
  /\ commands (trace run.2) = [(Str.dq +:+ "/b/X64/FooTest" +:+ Str.dq, 1)].
Proof. vm_compute. done. Qed.

(** C2: the lcov pipeline in which the last command, the report of the
    workspace, exits with 1.  The function returns 0. *)
Theorem last_lcov_stage_failure_is_ignored :
  let run := gen_code_coverage_gcc Scenario.last_report_fails (Scenario.start []) in
  run.1 = Val 0
  /\ last (commands (trace run.2)) = Some ("lcov_cobertura", 1)
  /\ error_lines (trace run.2) = [].
Proof. vm_compute. done. Qed.

(** C3, as stated, fails: the coverage files of two architectures are the
    same files, so the artifact paths of [IA32] and of [X64] are not
    disjoint. *)
Lemma coverage_files_are_shared_between_architectures :
  ~ (forall p,
       p ∈ artifacts "/w" "/b" "IA32" ["/b/IA32/FooTest"] ->
       p ∉ artifacts "/w" "/b" "X64" ["/b/X64/FooTest"]).
Proof.
  intros H. apply (H (cov_base_info "/b")); apply list_elem_of_In; vm_compute; tauto.
Qed.

(** C3 on [IA32] and [X64]. *)
Lemma result_files_of_distinct_architectures_disjoint_witness :
  "IA32" <> "X64"
  /\ (forall p,
        p ∈ artifacts "/w" "/b" "IA32" ["/b/IA32/FooTest"] ->
        p ∈ artifacts "/w" "/b" "X64" ["/b/X64/FooTest"] ->
        p ∈ coverage_files "/w" "/b").
Proof.
  split; [discriminate|].
  apply (result_files_of_distinct_architectures_disjoint
           "/w" "/b" "IA32" "X64" ["/b/IA32/FooTest"] ["/b/X64/FooTest"]);
    [discriminate|reflexivity|reflexivity].
Defined.

(** C4, as stated, fails: on a well-formed document with one failure
    node, in a case without a name, the tally raises instead of adding 1. *)
Lemma nameless_case_failure_is_not_counted :
  let st := Scenario.start
              [(Scenario.result_file,
                mkNode Regular 420 (Some Scenario.nameless_doc))] in
  length (failure_nodes Scenario.nameless_doc) = 1%nat
  /\ (tally_file "/b/X64/FooTest" Scenario.result_file 0 st).1
     = Exc (KeyError "name").
Proof. vm_compute. done. Qed.

(** C4 on a document with one failure in the case [TestBar]. *)
Lemma tally_adds_number_of_named_failures_witness :
  let st := Scenario.start
              [(Scenario.result_file,
                mkNode Regular 420 (Some Scenario.named_doc))] in
  length (failure_nodes Scenario.named_doc) = 1%nat
  /\ tally_file "/b/X64/FooTest" Scenario.result_file 0 st
     = (Val (0 + Z.of_nat (length (failure_nodes Scenario.named_doc))),
        traced_by st
          (EvParse Scenario.result_file (Some Scenario.named_doc)
           :: failure_logs "/b/X64/FooTest" (failure_nodes Scenario.named_doc))).
Proof.
  intros st. split; [reflexivity|].
  apply (tally_adds_number_of_named_failures
           "/b/X64/FooTest" Scenario.result_file 0 st
           (mkNode Regular 420 (Some Scenario.named_doc)) Scenario.named_doc);
    [reflexivity|discriminate|reflexivity|].
  apply Forall_cons. split; [by eexists|constructor].
Defined.

(** C5 on a test that exits with 2, followed by another test. *)
Lemma failing_binary_counts_once_and_is_not_parsed_witness :
  (run_test Scenario.tests_exit_2 "/b/X64" "X64" "/b/X64/BarTest" 0
            Scenario.x64_tree).1 = Val (0 + 1)
  /\ for_fold ["/b/X64/BarTest"; "/b/X64/FooTest"]
              (run_test Scenario.tests_exit_2 "/b/X64" "X64") 0 Scenario.x64_tree
     = for_fold ["/b/X64/FooTest"]
                (run_test Scenario.tests_exit_2 "/b/X64" "X64") (0 + 1)
                (run_test Scenario.tests_exit_2 "/b/X64" "X64" "/b/X64/BarTest" 0
                          Scenario.x64_tree).2.
Proof.
  destruct (failing_binary_counts_once_and_is_not_parsed
              Scenario.tests_exit_2 "/b/X64" "X64" "/b/X64/BarTest"
              ["/b/X64/FooTest"] 0 Scenario.x64_tree 2 ""
              (fs Scenario.x64_tree) eq_refl)
    as (Hrun & _ & Hloop); [discriminate|].
  split; [by rewrite Hrun|]. rewrite Hloop. by rewrite Hrun.
Defined.

(** C6 on a run whose test leaves a result file that is not well-formed. *)
Lemma malformed_result_document_aborts_run_witness :
  let host := Scenario.test_writes None in
  let run := do_post_build host Scenario.x64_tree in
  EvParse Scenario.result_file None ∈ trace run.2
  /\ run.1 = Exc ParseError.
Proof.
  intros host run.
  assert (Hin : EvParse Scenario.result_file None ∈ trace run.2).
  { apply list_elem_of_In. vm_compute. tauto. }
  split; [exact Hin|].
  exact (proj1 (malformed_result_document_aborts_run
                  host Scenario.x64_tree (trace run.2) Scenario.result_file
                  eq_refl Hin)).
Defined.

(** C10 on a run whose test leaves a result file with a failure in a case
    without a name. *)
Lemma nameless_failing_case_raises_KeyError_witness :
  let host := Scenario.test_writes (Some Scenario.nameless_doc) in
  let run := do_post_build host Scenario.x64_tree in
  EvParse Scenario.result_file (Some Scenario.nameless_doc) ∈ trace run.2
  /\ run.1 = Exc (KeyError "name").
Proof.
  intros host run.
  assert (Hin : EvParse Scenario.result_file (Some Scenario.nameless_doc)
                ∈ trace run.2).
  { apply list_elem_of_In. vm_compute. tauto. }
  split; [exact Hin|].
  refine (proj1 (nameless_failing_case_raises_KeyError
                   host Scenario.x64_tree (trace run.2) Scenario.result_file
                   Scenario.nameless_doc eq_refl Hin _)).
  apply Exists_cons_hd. intros [name Hname]. discriminate Hname.
Defined.

(** C7: for a relative build output directory, discovery returns a
    directory.  The filter checks [os.path.join(cp, a)] for a candidate
    [a] that the glob returned with [cp] in front already: here the path
    it checks is an executable file, and the candidate it keeps is a
    directory, against the comments of the filter (it must be a file, it
    must be executable). *)
Lemma relative_build_output_keeps_a_directory :
  let run := discover Scenario.relative_host (Path.join "Build" "X64")
                      Scenario.relative_tree in
  run.1 = Val ["Build/X64/FooTest"]
  /\ is_regular (fs Scenario.relative_tree) "Build/X64/FooTest" = false.
Proof. vm_compute. done. Qed.

(** X14 on a directory with an executable test, a plain file and a
    directory. *)
Lemma posix_discovery_keeps_executable_test_files_witness :
  Str.upper (host_os Scenario.x64_fails_arm_empty) = "LINUX"
  /\ Path.isabs "/b" = true
  /\ canonical "/b" /\ canonical "X64"
  /\ (discover Scenario.x64_fails_arm_empty (Path.join "/b" "X64")
               Scenario.x64_tree).1
     = Val ["/b/X64/FooTest"].
Proof.
  split; [reflexivity|]. split; [reflexivity|].
  split; [by repeat split|]. split; [by repeat split|].
  rewrite (proj1 (posix_discovery_keeps_executable_test_files
                    Scenario.x64_fails_arm_empty "/b" "X64" Scenario.x64_tree
                    eq_refl eq_refl
                    (conj (conj eq_refl (conj eq_refl eq_refl))
                          (conj eq_refl (conj eq_refl eq_refl)))
                    (conj (conj eq_refl (conj eq_refl eq_refl))
                          (conj eq_refl (conj eq_refl eq_refl))))).
  vm_compute. reflexivity.
Defined.

(** C8 on a host with lcov 2.0: every call of lcov carries the flag. *)
Lemma lcov_mismatch_flag_iff_major_version_ge_2_witness :
  let host := Scenario.last_report_fails in
  let st := Scenario.start [] in
  let st1 := (get_lcov_version host
                (logged st INFO "Generating UnitTest code coverage")).2 in
  get_lcov_version host (logged st INFO "Generating UnitTest code coverage")
  = (Val (Some 2), st1)
  /\ exists evs,
       trace (gen_code_coverage_gcc host st).2 = trace st1 ++ evs
       /\ forall params wd rc,
            EvRunCmd "lcov" params wd rc ∈ evs ->
            Str.endswith mismatch_flag params = true.
Proof.
  intros host st st1.
  assert (Hver : get_lcov_version host
                   (logged st INFO "Generating UnitTest code coverage")
                 = (Val (Some 2), st1)) by reflexivity.
  split; [exact Hver|].
  destruct (lcov_mismatch_flag_iff_major_version_ge_2 host st st1 2 Hver)
    as (evs & E & _ & Hflag).
  exists evs. split; [exact E|].
  intros params wd rc Hin. apply (Hflag params wd rc Hin). lia.
Defined.

(** C9 on a host whose lcov prints no version number. *)
Lemma get_lcov_version_raises_on_unmatched_output_witness :
  let host := Scenario.lcov_without_version in
  let st := Scenario.start [] in
  spawn host st "lcov" "--version" None = (0, "lcov: unknown build", fs st)
  /\ Str.isascii "lcov: unknown build" = true
  /\ (get_lcov_version host st).1 = Exc AttributeError.
Proof.
  intros host st. split; [reflexivity|]. split; [reflexivity|].
  rewrite (proj1 (get_lcov_version_raises_on_unmatched_output
                    host st 0 "lcov: unknown build" (fs st) eq_refl));
    [reflexivity|reflexivity|reflexivity|].
  apply search_version_None. reflexivity.
Defined.

(** * The further properties on concrete runs *)

(** X1 on a run whose test leaves a document with one failure. *)
Lemma returned_count_is_reported_count_witness :
  let run := do_post_build (Scenario.test_writes (Some Scenario.named_doc))
                           Scenario.x64_tree in
  run.1 = Val 1
  /\ 2 * 1 = 2 * Z.of_nat (length (error_lines (trace run.2)))
             + Z.of_nat (length (warning_lines (trace run.2))).
Proof.
  intros run.
  assert (Hv : run.1 = Val 1) by (vm_compute; reflexivity).
  split; [exact Hv|].
  apply (returned_count_is_reported_count
           (Scenario.test_writes (Some Scenario.named_doc)) Scenario.x64_tree
           (trace run.2) 1 eq_refl Hv).
  intros Hin. apply list_elem_of_In in Hin. vm_compute in Hin.
  repeat (destruct Hin as [Hin|Hin]; [discriminate Hin|]). exact Hin.
Defined.

(** X2 on a run whose second architecture has no test. *)
Lemma empty_architecture_returns_zero_witness :
  let run := do_post_build Scenario.x64_fails_arm_empty Scenario.x64_tree in
  run.1 = Val 0 /\ ends_at_empty_architecture (trace run.2).
Proof.
  intros run.
  apply (empty_architecture_returns_zero
           Scenario.x64_fails_arm_empty Scenario.x64_tree (trace run.2) eq_refl).
  apply list_elem_of_In. vm_compute. tauto.
Defined.

(** X3 on a host on which the first command of the MSVC variant fails. *)
Lemma msvc_pipeline_stops_at_failed_command_witness :
  let run := gen_code_coverage_msvc Runs.msvc_fails Runs.exe_tree in
  run.1 = Val 1
  /\ exists pre msg,
       trace run.2
       = pre ++ [EvRunCmd "OpenCppCoverage"
                   "--source /w/ --export_type binary:/b/X64/FooTest.exe.cov -- /b/X64/FooTest.exe"
                   None 1;
                 EvLog ERROR msg]
       /\ Forall cmd_ok pre.
Proof.
  intros run.
  apply (msvc_pipeline_stops_at_failed_command
           Runs.msvc_fails Runs.exe_tree (trace run.2) _ _ None 1 eq_refl);
    [|discriminate].
  apply list_elem_of_In. vm_compute. tauto.
Defined.

(** X4 on the host whose last report fails: the failed command is the
    last event, and the function returns 0. *)
Lemma lcov_pipeline_stops_at_failed_command_witness :
  let run := gen_code_coverage_gcc Scenario.last_report_fails Runs.empty_tree in
  let params := workspace_report_params "/w" in
  run.1 = Val 0
  /\ exists pre,
       trace run.2 = pre ++ [EvRunCmd "lcov_cobertura" params None 1]
       /\ Forall cmd_ok pre.
Proof.
  intros run params.
  destruct (lcov_pipeline_stops_at_failed_command
              Scenario.last_report_fails Runs.empty_tree (trace run.2)
              "lcov_cobertura" params None 1 eq_refl)
    as [[H _]|(H & _ & _ & _ & Hpre)].
  - apply list_elem_of_In. vm_compute. tauto.
  - discriminate.
  - vm_compute in H. discriminate H.
  - by split.
Defined.

(** X5 on a host that reports Darwin. *)
Lemma unsupported_os_runs_no_test_witness :
  let run := do_post_build Runs.darwin Scenario.x64_tree in
  Forall no_command (trace run.2)
  /\ (run.1 = Exc unsupported_os \/ run.1 = Exc OSError).
Proof.
  intros run.
  apply (unsupported_os_runs_no_test
           Runs.darwin Scenario.x64_tree (trace run.2) "/b" "X64");
    try reflexivity; try (vm_compute; discriminate).
Defined.

(** X7 on two tests of which the first exits with 2. *)
Lemma every_discovered_test_is_started_witness :
  let tests := ["/b/X64/BarTest"; "/b/X64/FooTest"] in
  let run := for_fold tests (run_test Scenario.tests_exit_2 "/b/X64" "X64") 0
                      Scenario.x64_tree in
  launched (trace run.2) = test_command "/b/X64" <$> tests.
Proof.
  intros tests run.
  apply (proj2 (every_discovered_test_is_started
                  Scenario.tests_exit_2 "/b/X64" "X64" tests 0
                  Scenario.x64_tree (trace run.2) eq_refl) 2).
  vm_compute. reflexivity.
Defined.

(** X8 on the result file of [FooTest]. *)
Lemma written_result_files_are_read_back_witness :
  gtest_xml_file "/b/X64/FooTest" "X64"
  ∈ Glob.glob (fs Runs.stale_tree) "/b/X64/FooTest.*.X64.result.xml" false.
Proof.
  apply (proj1 (written_result_files_are_read_back
                  "/b/X64/FooTest" "X64" (fs Runs.stale_tree)
                  (conj eq_refl (conj eq_refl eq_refl))
                  (conj eq_refl (conj eq_refl eq_refl)))).
  vm_compute. by eexists.
Defined.

(** X9 on a build output in which a former run left a result file. *)
Lemma no_result_file_survives_the_cleaning_witness :
  fs (clean_old_results "/b/X64" Runs.stale_tree).2 !! Scenario.result_file
  = None.
Proof.
  apply (no_result_file_survives_the_cleaning
           "/b/X64" "/b/X64/FooTest" "GTEST" "X64" Runs.stale_tree
           (conj eq_refl (conj eq_refl eq_refl)));
    vm_compute; reflexivity.
Defined.

(** X6 on a build output in which a former run left a result file. *)
Lemma stale_results_are_removed_witness :
  let run := clean_old_results "/b/X64" Runs.stale_tree in
  run.1 = Val tt
  /\ Glob.glob (fs run.2) "/b/X64/*.result.xml" false = [].
Proof.
  intros run.
  assert (Hv : run.1 = Val tt) by (vm_compute; reflexivity).
  split; [exact Hv|].
  apply (proj1 (stale_results_are_removed "/b/X64" Runs.stale_tree
                  (conj (conj eq_refl (conj eq_refl eq_refl))
                        (conj eq_refl (conj eq_refl eq_refl)))) Hv).
Defined.

(** X10 on a build output without a test binary. *)
Lemma msvc_pipeline_raises_iff_no_test_binary_witness :
  let run := gen_code_coverage_msvc Runs.msvc_fails Runs.empty_tree in
  run.1 = Exc UnboundLocalError
  /\ trace run.2 = [EvLog INFO "Generating UnitTest code coverage";
                    EvGlob "/b/**/*Test*.exe" true []].
Proof.
  intros run.
  destruct (msvc_pipeline_raises_iff_no_test_binary
              Runs.msvc_fails Runs.empty_tree "/b" "/w" eq_refl eq_refl)
    as (found & rest & Et & Hiff & Hrest); [discriminate|].
  assert (Hf : found = []).
  { vm_compute in Et. by injection Et as <- _. }
  split; [by apply Hiff|]. by vm_compute.
Defined.

(** X11 on a host with lcov 2.0. *)
Lemma lcov_version_is_major_of_printed_version_witness :
  exists pre major minor post,
    "lcov: LCOV version 2.0-1"
    = pre +:+ "version " +:+ major +:+ "." +:+ minor +:+ post
    /\ major <> "" /\ minor <> ""
    /\ all_digits major = true /\ all_digits minor = true
    /\ 2 = Str.int major.
Proof.
  apply (lcov_version_is_major_of_printed_version
           Scenario.last_report_fails Runs.empty_tree 0
           "lcov: LCOV version 2.0-1" (fs Runs.empty_tree) 2 eq_refl eq_refl).
  vm_compute. reflexivity.
Defined.

(** X13 on a run over two architectures. *)
Lemma architectures_are_taken_in_order_witness :
  let run := do_post_build Scenario.x64_fails_arm_empty Scenario.x64_tree in
  headers (trace run.2) `prefix_of` (arch_header <$> Str.split "X64 ARM").
Proof.
  intros run.
  apply (proj1 (architectures_are_taken_in_order
                  Scenario.x64_fails_arm_empty Scenario.x64_tree (trace run.2)
                  "X64 ARM" eq_refl eq_refl eq_refl eq_refl)).
Defined.
